(** * Intent CLI JSON integration examples: a shallow embedding

    The Python module [examples-intent/json-integration.py] drives an
    external command line tool, reads the JSON document the tool prints and
    decides what to do next.  This file embeds the module's helpers and its
    policy functions as Rocq functions over an explicit world (the log of
    sub-process invocations, the files written, the two output streams) and
    proves the properties the specification states about them.

    Conventions.
    - A Python [str] is a [string] holding its UTF-8 encoding.
    - A JSON integer is a [Z], a JSON float a binary64 value of
      [SpecFloat.spec_float].
    - A value read from the JSON document keeps the type [json]: the
      dataclasses of the module never check the types of their fields.
    - [print(f"...")] records the f-string as the list of its fragments. *)

From Stdlib Require Import ZArith List String Ascii Bool Lia.
From Stdlib Require Import Floats.SpecFloat.
Import ListNotations.

Local Open Scope string_scope.
Local Open Scope list_scope.
Local Open Scope Z_scope.

Set Warnings "-register-all".

(* ------------------------------------------------------------------ *)
(** ** Python values that a JSON document decodes to *)

Inductive json : Type :=
| JNull
| JBool (b : bool)
| JInt (z : Z)
| JFloat (f : spec_float)
| JString (s : string)
| JArray (l : list json)
| JObject (kvs : list (string * json)).

(** Exceptions of class [Exception] that the module can meet. *)
Inductive exn : Type :=
| KeyError (key : string)
| TypeError
| ValueError
| IndexError
| AttributeError
| OverflowError
| JSONDecodeError
| OSError
| RuntimeError (msg : string).

(** The result of a pure Python expression: a value or a raised exception. *)
Definition res (A : Type) : Type := (exn + A)%type.

Definition ok {A} (a : A) : res A := inr a.
Definition throw {A} (e : exn) : res A := inl e.

Definition rbind {A B} (r : res A) (k : A -> res B) : res B :=
  match r with
  | inl e => inl e
  | inr a => k a
  end.

Fixpoint rmap {A B} (f : A -> res B) (l : list A) : res (list B) :=
  match l with
  | [] => ok []
  | a :: l' => rbind (f a) (fun b => rbind (rmap f l') (fun bs => ok (b :: bs)))
  end.

Definition nl : string := String (ascii_of_nat 10) EmptyString.

(* ------------------------------------------------------------------ *)
(** ** Dictionaries *)

Fixpoint lookup (k : string) (kvs : list (string * json)) : option json :=
  match kvs with
  | [] => None
  | (k', v) :: rest => if String.eqb k k' then Some v else lookup k rest
  end.

Definition mem (k : string) (ks : list string) : bool :=
  existsb (String.eqb k) ks.

(** [v[k]] for a string key [k]: only a dict can be indexed by a string. *)
Definition getitem (v : json) (k : string) : res json :=
  match v with
  | JObject kvs =>
      match lookup k kvs with
      | Some x => ok x
      | None => throw (KeyError k)
      end
  | _ => throw TypeError
  end.

(** [d.get(k)] on a dict: [None] when the key is absent. *)
Definition dict_get (kvs : list (string * json)) (k : string) : json :=
  match lookup k kvs with
  | Some x => x
  | None => JNull
  end.

(* ------------------------------------------------------------------ *)
(** ** Strings: characters, [str.split()] and [str.startswith] *)

Definition of_bytes (l : list nat) : string :=
  fold_right (fun n s => String (ascii_of_nat n) s) EmptyString l.

(** A UTF-8 continuation byte, [10xxxxxx]. *)
Definition is_cont (c : ascii) : bool :=
  let n := nat_of_ascii c in (Nat.leb 128 n && Nat.ltb n 192)%bool.

(** The characters of a string, each with the bytes that encode it. *)
Fixpoint chars (s : string) : list string :=
  match s with
  | EmptyString => []
  | String c rest =>
      match rest with
      | EmptyString => [String c EmptyString]
      | String d _ =>
          if is_cont d then
            match chars rest with
            | h :: t => String c h :: t
            | [] => [String c EmptyString]
            end
          else String c EmptyString :: chars rest
      end
  end.

(** The characters for which [str.isspace] holds, in UTF-8:
    U+0009..U+000D, U+001C..U+001F, U+0020, U+0085, U+00A0, U+1680,
    U+2000..U+200A, U+2028, U+2029, U+202F, U+205F, U+3000. *)
Definition whitespace : list string :=
  map (fun n => of_bytes [n]) [9; 10; 11; 12; 13; 28; 29; 30; 31; 32]%nat
  ++ [of_bytes [194; 133]; of_bytes [194; 160]; of_bytes [225; 154; 128]]%nat
  ++ map (fun n : nat => of_bytes [226; 128; n]%nat)
       [128; 129; 130; 131; 132; 133; 134; 135; 136; 137; 138; 168; 169; 175]%nat
  ++ [of_bytes [226; 129; 159]; of_bytes [227; 128; 128]]%nat.

Definition isspace (c : string) : bool := mem c whitespace.

Definition is_empty (s : string) : bool :=
  match s with
  | EmptyString => true
  | _ => false
  end.

(** [split_chars cs cur]: the words of [cur ++ cs], where [cur] is the word
    being read and holds no whitespace. *)
Fixpoint split_chars (cs : list string) (cur : string) : list string :=
  match cs with
  | [] => if is_empty cur then [] else [cur]
  | c :: cs' =>
      if isspace c then
        if is_empty cur then split_chars cs' EmptyString
        else cur :: split_chars cs' EmptyString
      else split_chars cs' (cur ++ c)%string
  end.

(** [s.split()]: the maximal runs of characters that are not whitespace. *)
Definition split (s : string) : list string := split_chars (chars s) EmptyString.

Definition startswith (s p : string) : bool := String.prefix p s.

(** [sep.join(items)]: every item has to be a [str]. *)
Fixpoint join (sep : string) (items : list json) : res string :=
  match items with
  | [] => ok EmptyString
  | [JString s] => ok s
  | JString s :: rest => rbind (join sep rest) (fun t => ok (s ++ sep ++ t)%string)
  | _ :: _ => throw TypeError
  end.

(* ------------------------------------------------------------------ *)
(** ** Truth, iteration, numbers *)

Definition truthy (v : json) : bool :=
  match v with
  | JNull => false
  | JBool b => b
  | JInt z => negb (z =? 0)
  | JFloat (S754_zero _) => false
  | JFloat _ => true
  | JString s => negb (is_empty s)
  | JArray l => match l with [] => false | _ => true end
  | JObject kvs => match kvs with [] => false | _ => true end
  end.

(** [for x in v] and [[... for x in v]]: a list yields its items, a dict its
    keys, a string its characters; nothing else can be iterated. *)
Definition iter (v : json) : res (list json) :=
  match v with
  | JArray l => ok l
  | JObject kvs => ok (map (fun kv => JString (fst kv)) kvs)
  | JString s => ok (map JString (chars s))
  | _ => throw TypeError
  end.

(** [v == s] for a string literal [s]. *)
Definition eq_str (v : json) (s : string) : bool :=
  match v with
  | JString t => String.eqb t s
  | _ => false
  end.

(** A Python number: [int] (and [bool], its subclass) or [float]. *)
Inductive pynum : Type :=
| NInt (z : Z)
| NFloat (f : spec_float).

Definition num_of (v : json) : option pynum :=
  match v with
  | JBool b => Some (NInt (if b then 1 else 0))
  | JInt z => Some (NInt z)
  | JFloat f => Some (NFloat f)
  | _ => None
  end.

Definition json_of_num (n : pynum) : json :=
  match n with
  | NInt z => JInt z
  | NFloat f => JFloat f
  end.

(** The exact value of a number: [m * 2^e], an infinity, or not a number. *)
Inductive xval : Type :=
| XNan
| XNegInf
| XPosInf
| XFin (m e : Z).

Definition value_of (n : pynum) : xval :=
  match n with
  | NInt z => XFin z 0
  | NFloat (S754_zero _) => XFin 0 0
  | NFloat (S754_infinity s) => if s then XNegInf else XPosInf
  | NFloat S754_nan => XNan
  | NFloat (S754_finite s m e) => XFin (if s then Z.neg m else Z.pos m) e
  end.

(** [a < b] on numbers.  Python compares an [int] with a [float] by their
    exact values; a comparison with NaN is false. *)
Definition num_ltb (a b : pynum) : bool :=
  match value_of a, value_of b with
  | XNan, _ | _, XNan => false
  | XNegInf, XNegInf => false
  | XNegInf, _ => true
  | _, XNegInf => false
  | XPosInf, _ => false
  | _, XPosInf => true
  | XFin m1 e1, XFin m2 e2 =>
      let e := Z.min e1 e2 in
      m1 * 2 ^ (e1 - e) <? m2 * 2 ^ (e2 - e)
  end.

(** [a == b] on numbers, by their exact values. *)
Definition num_eqb (a b : pynum) : bool :=
  match value_of a, value_of b with
  | XNegInf, XNegInf => true
  | XPosInf, XPosInf => true
  | XFin m1 e1, XFin m2 e2 =>
      let e := Z.min e1 e2 in
      m1 * 2 ^ (e1 - e) =? m2 * 2 ^ (e2 - e)
  | _, _ => false
  end.

(** [v == n] where [n] is a number: false unless [v] is a number too. *)
Definition eq_num (v : json) (n : pynum) : bool :=
  match num_of v with
  | Some a => num_eqb a n
  | None => false
  end.

(** [v < n] and [v > n] where [n] is a number: a [TypeError] unless [v] is a
    number too. *)
Definition lt (v : json) (n : pynum) : res bool :=
  match num_of v with
  | Some a => ok (num_ltb a n)
  | None => throw TypeError
  end.

Definition gt (v : json) (n : pynum) : res bool :=
  match num_of v with
  | Some a => ok (num_ltb n a)
  | None => throw TypeError
  end.

(** [f"{v:.1f}"]: defined on floats and on integers that convert to a
    float; a string gives [ValueError], any other value [TypeError]. *)
Definition fixed1_check (v : json) : res unit :=
  match v with
  | JFloat _ => ok tt
  | JBool _ => ok tt
  | JInt z =>
      if Z.abs z <? 2 ^ 1024 - 2 ^ 970 then ok tt else throw OverflowError
  | JString _ => throw ValueError
  | _ => throw TypeError
  end.

(* ------------------------------------------------------------------ *)
(** ** Type definitions of the module *)

Record JsonError : Type := mkJsonError {
  code : json;
  message : json;
  location : json;
  fix_hint : json;
  fix_command : json
}.

Record NextAction : Type := mkNextAction {
  na_command : json;
  na_reason : json
}.

Record JsonMetadata : Type := mkJsonMetadata {
  timestamp : json;
  version : json;
  exit_code : json;
  correlation_id : json;
  duration_ms : json
}.

Record JsonResponse : Type := mkJsonResponse {
  success : json;
  action : json;
  command : json;
  data : json;
  errors : list JsonError;
  next_actions : list NextAction;
  metadata : JsonMetadata;
  spec_path : json
}.

(** ** Dataclass constructors called with an unpacked mapping

    Unpacking [e] into the keyword arguments of a dataclass [C] needs a
    mapping [e]; a key that is no field of [C] and a
    missing field without default are both a [TypeError].  A field with
    default [None] may be absent. *)

Definition JsonError_fields : list string :=
  ["code"; "message"; "location"; "fix_hint"; "fix_command"].

Definition NextAction_fields : list string := ["command"; "reason"].

Definition JsonMetadata_fields : list string :=
  ["timestamp"; "version"; "exit_code"; "correlation_id"; "duration_ms"].

Definition keys_within (fields : list string) (kvs : list (string * json)) : bool :=
  forallb (fun kv => mem (fst kv) fields) kvs.

(** A keyword argument without default. *)
Definition required (kvs : list (string * json)) (k : string) : res json :=
  match lookup k kvs with
  | Some v => ok v
  | None => throw TypeError
  end.

Definition JsonError_kw (e : json) : res JsonError :=
  match e with
  | JObject kvs =>
      if keys_within JsonError_fields kvs then
        rbind (required kvs "code") (fun c =>
        rbind (required kvs "message") (fun m =>
        ok (mkJsonError c m (dict_get kvs "location") (dict_get kvs "fix_hint")
              (dict_get kvs "fix_command"))))
      else throw TypeError
  | _ => throw TypeError
  end.

Definition NextAction_kw (a : json) : res NextAction :=
  match a with
  | JObject kvs =>
      if keys_within NextAction_fields kvs then
        rbind (required kvs "command") (fun c =>
        rbind (required kvs "reason") (fun r =>
        ok (mkNextAction c r)))
      else throw TypeError
  | _ => throw TypeError
  end.

Definition JsonMetadata_kw (m : json) : res JsonMetadata :=
  match m with
  | JObject kvs =>
      if keys_within JsonMetadata_fields kvs then
        rbind (required kvs "timestamp") (fun t =>
        rbind (required kvs "version") (fun v =>
        rbind (required kvs "exit_code") (fun x =>
        rbind (required kvs "correlation_id") (fun c =>
        rbind (required kvs "duration_ms") (fun d =>
        ok (mkJsonMetadata t v x c d))))))
      else throw TypeError
  | _ => throw TypeError
  end.

(** The conversion to the dataclass, lines 74-83 of the module: the keyword
    arguments are evaluated in the order they are written. *)
Definition to_response (response_data : json) : res JsonResponse :=
  rbind (getitem response_data "success") (fun success_ =>
  rbind (getitem response_data "action") (fun action_ =>
  rbind (getitem response_data "command") (fun command_ =>
  rbind (getitem response_data "data") (fun data_ =>
  rbind (getitem response_data "errors") (fun es =>
  rbind (iter es) (fun es_items =>
  rbind (rmap JsonError_kw es_items) (fun errors_ =>
  rbind (getitem response_data "next_actions") (fun nas =>
  rbind (iter nas) (fun nas_items =>
  rbind (rmap NextAction_kw nas_items) (fun next_actions_ =>
  rbind (getitem response_data "metadata") (fun md =>
  rbind (JsonMetadata_kw md) (fun metadata_ =>
  let spec_path_ :=
    match response_data with
    | JObject kvs => dict_get kvs "spec_path"
    | _ => JNull
    end in
  ok (mkJsonResponse success_ action_ command_ data_ errors_ next_actions_
        metadata_ spec_path_))))))))))))).

(* ------------------------------------------------------------------ *)
(** ** The world: sub-processes, files and output streams *)

(** What [json.loads] makes of the captured standard output. *)
Inductive captured : Type :=
| NotJson
| Document (j : json).

Definition json_loads (out : captured) : res json :=
  match out with
  | NotJson => throw JSONDecodeError
  | Document j => ok j
  end.

(** The [CompletedProcess] that [subprocess.run] returns. *)
Record CompletedProcess : Type := mkCompleted {
  returncode : Z;
  stdout : captured
}.

(** A fragment of an f-string: literal text, [{v}] or [{v:.1f}], and the
    text of a caught exception. *)
Inductive piece : Type :=
| Lit (s : string)
| Val (v : json)
| Fixed1 (v : json)
| ExnText (e : exn).

Definition line : Type := list piece.

Record World : Type := mkWorld {
  calls : list (list string);
  files : list (string * json);
  printed : list line;
  printed_err : list line
}.

Definition empty_world : World := mkWorld [] [] [] [].

(** The environment of the program: what a sub-process does when it is
    started in a given world ([inl]: it could not be started, or its output
    could not be read), and whether a file can be opened for writing. *)
Record Env : Type := mkEnv {
  spawn : World -> list string -> exn + CompletedProcess;
  writable : World -> string -> bool
}.

(** How a statement ends: normally, with an exception of class
    [Exception], with [SystemExit] raised by [sys.exit(code)], or not at
    all within the steps allowed. *)
Inductive outcome (A : Type) : Type :=
| Return (a : A)
| Raise (e : exn)
| Exit (code : json)
| Diverge.

Arguments Return {A} a.
Arguments Raise {A} e.
Arguments Exit {A} code.
Arguments Diverge {A}.

Definition M (A : Type) : Type := World -> outcome A * World.

Definition ret {A} (a : A) : M A := fun w => (Return a, w).

Definition bind {A B} (m : M A) (k : A -> M B) : M B :=
  fun w =>
    match m w with
    | (Return a, w') => k a w'
    | (Raise e, w') => (Raise e, w')
    | (Exit c, w') => (Exit c, w')
    | (Diverge, w') => (Diverge, w')
    end.

Declare Scope py_scope.
Delimit Scope py_scope with py.
Notation "x <- m ;; k" := (bind m (fun x => k))
  (at level 100, m at next level, right associativity) : py_scope.
Notation "m ;; k" := (bind m (fun _ => k))
  (at level 100, right associativity) : py_scope.
Local Open Scope py_scope.

Definition raise {A} (e : exn) : M A := fun w => (Raise e, w).

Definition sys_exit {A} (c : json) : M A := fun w => (Exit c, w).

Definition lift {A} (r : res A) : M A :=
  match r with
  | inl e => raise e
  | inr a => ret a
  end.

Definition print (l : line) : M unit :=
  fun w => (Return tt, mkWorld (calls w) (files w) (printed w ++ [l]) (printed_err w)).

Definition print_err (l : line) : M unit :=
  fun w => (Return tt, mkWorld (calls w) (files w) (printed w) (printed_err w ++ [l])).

(** [try: body except Exception as error: handler]: [SystemExit] is not an
    [Exception] and passes through. *)
Definition try_except {A} (body : M A) (handler : exn -> M A) : M A :=
  fun w =>
    match body w with
    | (Raise e, w') => handler e w'
    | r => r
    end.

(** [for x in items: body]. *)
Fixpoint for_each {A} (items : list A) (body : A -> M unit) : M unit :=
  match items with
  | [] => ret tt
  | x :: rest => body x ;; for_each rest body
  end.

(** [when c body]: an [if] without [else]. *)
Definition when (c : bool) (body : M unit) : M unit :=
  if c then body else ret tt.

Section Program.

Variable env : Env.

(** [subprocess.run(argv, capture_output=True, text=True, check=False)]:
    the call is logged; with [check=False] the return code never raises. *)
Definition subprocess_run (argv : list string) : M CompletedProcess :=
  fun w =>
    let w' := mkWorld (calls w ++ [argv]) (files w) (printed w) (printed_err w) in
    match spawn env w argv with
    | inl e => (Raise e, w')
    | inr result => (Return result, w')
    end.

(** [with open(path, 'w') as f: json.dump(value, f, indent=2)]. *)
Definition write_json (path : string) (value : json) : M unit :=
  fun w =>
    if writable env w path then
      (Return tt, mkWorld (calls w) (files w ++ [(path, value)]) (printed w) (printed_err w))
    else (Raise OSError, w).

(* ------------------------------------------------------------------ *)
(** ** Helper functions *)

Definition run_intent_command (command_ : string) (args : list string)
  : M JsonResponse :=
  let full_command := ["intent"; command_] ++ args ++ ["--json=true"] in
  result <- subprocess_run full_command ;;
  response_data <- lift (json_loads (stdout result)) ;;
  lift (to_response response_data).

Definition is_success (response : JsonResponse) : bool :=
  truthy (success response) && eq_num (exit_code (metadata response)) (NInt 0).

Definition get_error_messages (response : JsonResponse) : list json :=
  map message (errors response).

Definition get_next_actions (response : JsonResponse) : list json :=
  map na_command (next_actions response).

Definition nonempty {A} (l : list A) : bool :=
  match l with
  | [] => false
  | _ :: _ => true
  end.

(** [l[i]] on a Python list, for [i >= 0]. *)
Definition index {A} (l : list A) (i : nat) : res A :=
  match nth_error l i with
  | Some a => ok a
  | None => throw IndexError
  end.

(** [enumerate(l, start)]. *)
Fixpoint enumerate {A} (l : list A) (start : Z) : list (Z * A) :=
  match l with
  | [] => []
  | a :: rest => (start, a) :: enumerate rest (start + 1)
  end.

(** [v.split()]: only a [str] has the method. *)
Definition split_of (v : json) : res (list string) :=
  match v with
  | JString s => ok (split s)
  | _ => throw AttributeError
  end.

(** [f"{v:.1f}"] as a fragment, once the format is known to apply. *)
Definition fixed1 (v : json) : M piece :=
  lift (rbind (fixed1_check v) (fun _ => ok (Fixed1 v))).

(** [f"{v[k]}"] as a fragment. *)
Definition item (v : json) (k : string) : M piece :=
  lift (rbind (getitem v k) (fun x => ok (Val x))).

(* ------------------------------------------------------------------ *)
(** ** Quality gate *)

Definition quality_gate (spec_path_ : string) (threshold : pynum) : M unit :=
  print [Lit "Running quality gate (threshold: "; Val (json_of_num threshold);
         Lit ")..."] ;;
  response <- run_intent_command "quality" [spec_path_] ;;
  (if negb (truthy (success response)) then
     errors_ <- lift (join nl (get_error_messages response)) ;;
     raise (RuntimeError ("Quality check failed:" ++ nl ++ errors_))
   else ret tt) ;;
  score <- lift (getitem (data response) "overall_score") ;;
  print [Lit "Quality score: "; Val score; Lit "/100"] ;;
  below <- lift (lt score threshold) ;;
  (if below then
     print [Lit (nl ++ "❌ Quality gate failed: "); Val score; Lit " < ";
            Val (json_of_num threshold)] ;;
     print [Lit (nl ++ "Issues:")] ;;
     issues <- lift (rbind (getitem (data response) "issues") iter) ;;
     for_each issues (fun issue => print [Lit "  • "; Val issue]) ;;
     print [Lit (nl ++ "Suggestions:")] ;;
     suggestions <- lift (rbind (getitem (data response) "suggestions") iter) ;;
     for_each suggestions (fun suggestion => print [Lit "  • "; Val suggestion]) ;;
     sys_exit (JInt 1)
   else ret tt) ;;
  print [Lit "✅ Quality gate passed: "; Val score; Lit " >= ";
         Val (json_of_num threshold)] ;;
  when (nonempty (next_actions response))
    (print [Lit (nl ++ "Suggested next steps:")] ;;
     for_each (next_actions response) (fun action_ =>
       print [Lit "  "; Val (na_command action_)] ;;
       print [Lit "    → "; Val (na_reason action_)])).

(* ------------------------------------------------------------------ *)
(** ** KIRK analysis *)

(** [len(v)]: the number of items of a list, of keys of a dict, of
    characters of a string. *)
Definition len (v : json) : res json :=
  match v with
  | JArray l => ok (JInt (Z.of_nat (List.length l)))
  | JObject kvs => ok (JInt (Z.of_nat (List.length kvs)))
  | JString s => ok (JInt (Z.of_nat (List.length (chars s))))
  | _ => throw TypeError
  end.

(** [v[k1][k2]]. *)
Definition getitem2 (v : json) (k1 k2 : string) : res json :=
  rbind (getitem v k1) (fun x => getitem x k2).

(** [[x for x in l if keep(x)]]. *)
Fixpoint rfilter {A} (keep : A -> res bool) (l : list A) : res (list A) :=
  match l with
  | [] => ok []
  | x :: rest =>
      rbind (keep x) (fun b =>
      rbind (rfilter keep rest) (fun kept =>
      ok (if b then x :: kept else kept)))
  end.

(** [g['severity'] == 'critical']. *)
Definition is_critical (g : json) : res bool :=
  rbind (getitem g "severity") (fun severity => ok (eq_str severity "critical")).

Definition kirk_analysis (spec_path_ : string) : M unit :=
  print [Lit ("Starting KIRK analysis..." ++ nl)] ;;
  (* Run all KIRK commands *)
  quality <- run_intent_command "quality" [spec_path_] ;;
  coverage <- run_intent_command "coverage" [spec_path_] ;;
  gaps <- run_intent_command "gaps" [spec_path_] ;;
  invert <- run_intent_command "invert" [spec_path_] ;;
  effects <- run_intent_command "effects" [spec_path_] ;;
  (* Generate report *)
  print [Lit ("=== KIRK Analysis Report ===" ++ nl)] ;;
  (* Quality scores *)
  print [Lit "Quality Scores:"] ;;
  overall <- item (data quality) "overall_score" ;;
  print [Lit "  Overall:       "; overall; Lit "/100"] ;;
  coverage_score <- item (data quality) "coverage_score" ;;
  print [Lit "  Coverage:      "; coverage_score; Lit "/100"] ;;
  clarity <- item (data quality) "clarity_score" ;;
  print [Lit "  Clarity:       "; clarity; Lit "/100"] ;;
  testability <- item (data quality) "testability_score" ;;
  print [Lit "  Testability:   "; testability; Lit "/100"] ;;
  ai_readiness <- item (data quality) "ai_readiness_score" ;;
  print [Lit "  AI Readiness:  "; ai_readiness; Lit "/100"] ;;
  (* Coverage analysis *)
  print [Lit (nl ++ "Coverage:")] ;;
  v <- lift (getitem (data coverage) "overall_score") ;;
  shown <- fixed1 v ;;
  print [Lit "  Overall:       "; shown; Lit "%"] ;;
  v <- lift (getitem2 (data coverage) "owasp" "score") ;;
  shown <- fixed1 v ;;
  print [Lit "  OWASP:         "; shown; Lit "%"] ;;
  n <- lift (rbind (getitem2 (data coverage) "edge_cases" "tested") len) ;;
  print [Lit "  Edge Cases:    "; Val n; Lit " tested"] ;;
  n <- lift (rbind (getitem2 (data coverage) "edge_cases" "suggested") len) ;;
  print [Lit "                 "; Val n; Lit " suggested"] ;;
  (* Gaps summary *)
  print [Lit (nl ++ "Gaps Detected:")] ;;
  total_gaps <- item (data gaps) "total_gaps" ;;
  print [Lit "  Total:         "; total_gaps] ;;
  breakdown <- lift (getitem (data gaps) "severity_breakdown") ;;
  critical <- item breakdown "critical" ;;
  print [Lit "  Critical:      "; critical] ;;
  high <- item breakdown "high" ;;
  print [Lit "  High:          "; high] ;;
  medium <- item breakdown "medium" ;;
  print [Lit "  Medium:        "; medium] ;;
  low <- item breakdown "low" ;;
  print [Lit "  Low:           "; low] ;;
  (* Inversion analysis *)
  print [Lit (nl ++ "Failure Mode Analysis:")] ;;
  v <- lift (getitem (data invert) "score") ;;
  shown <- fixed1 v ;;
  print [Lit "  Score:         "; shown; Lit "/100"] ;;
  n <- lift (rbind (getitem (data invert) "security_gaps") len) ;;
  print [Lit "  Security:      "; Val n; Lit " gaps"] ;;
  n <- lift (rbind (getitem (data invert) "usability_gaps") len) ;;
  print [Lit "  Usability:     "; Val n; Lit " gaps"] ;;
  n <- lift (rbind (getitem (data invert) "integration_gaps") len) ;;
  print [Lit "  Integration:   "; Val n; Lit " gaps"] ;;
  (* Effects analysis *)
  print [Lit (nl ++ "Second-Order Effects:")] ;;
  total_effects <- item (data effects) "total_second_order_effects" ;;
  print [Lit "  Total:         "; total_effects] ;;
  v <- lift (getitem (data effects) "coverage_score") ;;
  shown <- fixed1 v ;;
  print [Lit "  Coverage:      "; shown; Lit "%"] ;;
  n <- lift (rbind (getitem (data effects) "orphaned_resources") len) ;;
  print [Lit "  Orphans:       "; Val n] ;;
  (* Critical issues *)
  critical_gaps <- lift (rbind (rbind (getitem (data gaps) "security_gaps") iter)
                           (rfilter is_critical)) ;;
  when (nonempty critical_gaps)
    (print [Lit (nl ++ "⚠️  Critical Security Gaps:")] ;;
     for_each critical_gaps (fun gap =>
       description <- item gap "description" ;;
       print [Lit "  • "; description] ;;
       suggestion <- item gap "suggestion" ;;
       print [Lit "    Fix: "; suggestion])) ;;
  print [Lit (nl ++ "=== End Report ===")].

(* ------------------------------------------------------------------ *)
(** ** Test execution with feedback *)

Definition results_file : string := "check-results.json".

Definition print_bead (ib : Z * json) : M unit :=
  let (i, bead) := ib in
  name <- item bead "behavior_name" ;;
  priority <- item bead "priority" ;;
  print [Lit nl; Val (JInt i); Lit ". "; name; Lit " (Priority: "; priority; Lit ")"] ;;
  feature <- item bead "feature" ;;
  print [Lit "   Feature: "; feature] ;;
  failure_type <- item bead "failure_type" ;;
  print [Lit "   Type: "; failure_type] ;;
  description <- item bead "description" ;;
  print [Lit "   Issue: "; description] ;;
  fix_suggestion <- item bead "fix_suggestion" ;;
  print [Lit "   Fix: "; fix_suggestion].

Definition test_with_feedback (spec_path_ : string) : M unit :=
  print [Lit ("Running tests..." ++ nl)] ;;
  check_response <- run_intent_command "check" [spec_path_] ;;
  print [Lit "Test Results:"] ;;
  total <- item (data check_response) "total" ;;
  print [Lit "  Total:    "; total] ;;
  passed <- item (data check_response) "passed" ;;
  print [Lit "  Passed:   "; passed] ;;
  failed <- item (data check_response) "failed" ;;
  print [Lit "  Failed:   "; failed] ;;
  skipped <- item (data check_response) "skipped" ;;
  print [Lit "  Skipped:  "; skipped] ;;
  duration <- item (data check_response) "duration_ms" ;;
  print [Lit "  Duration: "; duration; Lit "ms"] ;;
  any_failed <- lift (rbind (getitem (data check_response) "failed")
                        (fun n => gt n (NInt 0))) ;;
  (if any_failed then
     print [Lit (nl ++ "❌ Tests failed. Generating fix beads..." ++ nl)] ;;
     write_json results_file (data check_response) ;;
     feedback <- run_intent_command "feedback" ["--results"; results_file] ;;
     print [Lit "Fix Beads Generated:"] ;;
     beads <- lift (rbind (getitem (data feedback) "fix_beads") iter) ;;
     for_each (enumerate beads 1) print_bead ;;
     sys_exit (JInt 1)
   else ret tt) ;;
  print [Lit (nl ++ "✅ All tests passed!")].

(* ------------------------------------------------------------------ *)
(** ** CI/CD integration *)

Definition print_critical_gap (gap : json) : M unit :=
  severity <- lift (getitem gap "severity") ;;
  if eq_str severity "critical" then
    description <- item gap "description" ;;
    print [Lit "    • "; description]
  else ret tt.

Definition cicd_check (spec_path_ : string)
    (quality_threshold coverage_threshold : pynum) (allow_critical_gaps : bool)
  : M unit :=
  print [Lit ("=== CI/CD Quality Check ===" ++ nl)] ;;
  let failed := false in
  (* Quality check *)
  quality <- run_intent_command "quality" [spec_path_] ;;
  quality_score <- lift (getitem (data quality) "overall_score") ;;
  print [Lit "Quality: "; Val quality_score; Lit "/100 (threshold: ";
         Val (json_of_num quality_threshold); Lit ")"] ;;
  quality_low <- lift (lt quality_score quality_threshold) ;;
  failed <- (if quality_low
             then print [Lit "  ❌ Below threshold"] ;; ret true
             else print [Lit "  ✅ Passed"] ;; ret failed) ;;
  (* Coverage check *)
  coverage <- run_intent_command "coverage" [spec_path_] ;;
  coverage_score <- lift (getitem (data coverage) "overall_score") ;;
  shown <- fixed1 coverage_score ;;
  print [Lit (nl ++ "Coverage: "); shown; Lit "% (threshold: ";
         Val (json_of_num coverage_threshold); Lit ")"] ;;
  coverage_low <- lift (lt coverage_score coverage_threshold) ;;
  failed <- (if coverage_low
             then print [Lit "  ❌ Below threshold"] ;; ret true
             else print [Lit "  ✅ Passed"] ;; ret failed) ;;
  (* Critical gaps check *)
  gaps <- run_intent_command "gaps" [spec_path_] ;;
  critical_count <- lift (rbind (getitem (data gaps) "severity_breakdown")
                            (fun breakdown => getitem breakdown "critical")) ;;
  print [Lit (nl ++ "Critical Gaps: "); Val critical_count] ;;
  some_critical <- lift (gt critical_count (NInt 0)) ;;
  failed <- (if some_critical && negb allow_critical_gaps
             then
               print [Lit "  ❌ Critical gaps not allowed"] ;;
               security_gaps <- lift (rbind (getitem (data gaps) "security_gaps") iter) ;;
               for_each security_gaps print_critical_gap ;;
               ret true
             else print [Lit "  ✅ Passed"] ;; ret failed) ;;
  (* Tests *)
  check <- run_intent_command "check" [spec_path_] ;;
  passed <- item (data check) "passed" ;;
  total <- item (data check) "total" ;;
  print [Lit (nl ++ "Tests: "); passed; Lit "/"; total; Lit " passed"] ;;
  tests_failed <- lift (rbind (getitem (data check) "failed")
                          (fun n => gt n (NInt 0))) ;;
  failed <- (if tests_failed
             then
               count <- item (data check) "failed" ;;
               print [Lit "  ❌ "; count; Lit " tests failed"] ;;
               ret true
             else print [Lit "  ✅ All tests passed"] ;; ret failed) ;;
  (if failed : bool then
     print [Lit (nl ++ "❌ CI/CD check failed")] ;;
     sys_exit (JInt 1)
   else ret tt) ;;
  print [Lit (nl ++ "✅ CI/CD check passed")].

(* ------------------------------------------------------------------ *)
(** ** Workflow automation *)

(** The positional arguments of a suggested command line: the words after
    the sub-command that are not flags. *)
Definition positional (parts : list string) : list string :=
  filter (fun arg => negb (startswith arg "--")) (skipn 2 parts).

(** The [while] loop of [auto_workflow].  [fuel] bounds the number of
    iterations of the model; the loop [Diverge]s when it is used up. *)
Fixpoint auto_loop (fuel : nat) (max_depth : Z) (response : JsonResponse)
    (depth : Z) : M unit :=
  if nonempty (next_actions response) && (depth <? max_depth) then
    match fuel with
    | O => fun w => (Diverge, w)
    | S fuel' =>
        print [Lit (nl ++ "=== Step "); Val (JInt (depth + 1)); Lit " ==="] ;;
        print [Lit "Command: "; Val (command response)] ;;
        print [Lit "Action: "; Val (action response)] ;;
        next_action <- lift (index (next_actions response) 0) ;;
        print [Lit (nl ++ "Next: "); Val (na_command next_action)] ;;
        print [Lit "Reason: "; Val (na_reason next_action)] ;;
        (* Parse command (simplified) *)
        parts <- lift (split_of (na_command next_action)) ;;
        command_ <- lift (index parts 1) ;;
        let args := positional parts in
        response' <- run_intent_command command_ args ;;
        auto_loop fuel' max_depth response' (depth + 1)
    end
  else ret tt.

Definition auto_workflow (spec_path_ : string) (max_depth : Z) : M unit :=
  print [Lit ("Starting automated workflow..." ++ nl)] ;;
  response <- run_intent_command "quality" [spec_path_] ;;
  auto_loop (Z.to_nat max_depth) max_depth response 0 ;;
  print [Lit (nl ++ "=== Workflow Complete ===")].

(* ------------------------------------------------------------------ *)
(** ** Error handling *)

Definition print_error (error : JsonError) : M unit :=
  print [Lit "  ["; Val (code error); Lit "] "; Val (message error)] ;;
  when (truthy (location error))
    (print [Lit "    at "; Val (location error)]) ;;
  when (truthy (fix_hint error))
    (print [Lit "    hint: "; Val (fix_hint error)]) ;;
  when (truthy (fix_command error))
    (print [Lit "    fix: "; Val (fix_command error)]).

Definition robust_execution (spec_path_ : string) : M unit :=
  try_except
    (response <- run_intent_command "quality" [spec_path_] ;;
     (if negb (truthy (success response)) then
        print [Lit "Command failed:"] ;;
        for_each (errors response) print_error ;;
        (* Attempt auto-fix if suggested *)
        let fixable_errors :=
          filter (fun e => truthy (fix_command e)) (errors response) in
        when (nonempty fixable_errors)
          (print [Lit (nl ++ "Attempting auto-fix...")] ;;
           for_each fixable_errors (fun error =>
             print [Lit "Running: "; Val (fix_command error)])) ;;
        sys_exit (exit_code (metadata response))
      else ret tt) ;;
     print [Lit "✅ Success"] ;;
     print [Lit "Correlation ID: "; Val (correlation_id (metadata response))])
    (fun error =>
       print_err [Lit "Execution error: "; ExnText error] ;;
       sys_exit (JInt 4)).

(* ------------------------------------------------------------------ *)
(** ** Main *)

Definition main (argv : list string) : M unit :=
  let spec_path_ :=
    match argv with
    | _ :: p :: _ => p
    | _ => "examples/user-api.cue"
    end in
  robust_execution spec_path_.

End Program.

(* ------------------------------------------------------------------ *)
(** * Properties *)

(** The world after one more sub-process invocation. *)
Definition logged (w : World) (argv : list string) : World :=
  mkWorld (calls w ++ [argv]) (files w) (printed w) (printed_err w).

(** The command line that [run_intent_command] builds. *)
Definition argv_of (command_ : string) (args : list string) : list string :=
  ["intent"; command_] ++ args ++ ["--json=true"].

Definition outcome_of {A} (r : res A) : outcome A :=
  match r with
  | inl e => Raise e
  | inr a => Return a
  end.

(** The fields of the wire object that the conversion reads with a
    subscript. *)
Definition required_fields : list string :=
  ["success"; "action"; "command"; "data"; "errors"; "next_actions"; "metadata"].

(** ** Results of pure expressions *)

Lemma rbind_ok {A B} (r : res A) (k : A -> res B) (b : B) :
  rbind r k = inr b -> exists a, r = inr a /\ k a = inr b.
Proof.
  destruct r as [e | a]; simpl; intros H; [discriminate | eauto].
Qed.

Lemma getitem_ok (v : json) (k : string) (x : json) :
  getitem v k = inr x -> exists kvs, v = JObject kvs /\ lookup k kvs = Some x.
Proof.
  destruct v; simpl; try discriminate.
  destruct (lookup k kvs) eqn:E; simpl; intros H; inversion H; subst; eauto.
Qed.

Lemma getitem_object (kvs : list (string * json)) (k : string) (x : json) :
  lookup k kvs = Some x -> getitem (JObject kvs) k = inr x.
Proof. simpl; intros ->; reflexivity. Qed.

Lemma rmap_ok {A B} (f : A -> res B) (l : list A) (bs : list B) :
  rmap f l = inr bs -> forall a, In a l -> exists b, f a = inr b /\ In b bs.
Proof.
  revert bs; induction l as [| x l IH]; simpl; intros bs H a Ha; [contradiction |].
  apply rbind_ok in H as (b & Hb & H).
  apply rbind_ok in H as (bs' & Hbs & H).
  inversion H; subst; clear H.
  destruct Ha as [-> | Ha].
  - exists b; simpl; auto.
  - destruct (IH _ Hbs _ Ha) as (b' & ? & ?); exists b'; simpl; auto.
Qed.

Lemma rmap_length {A B} (f : A -> res B) (l : list A) (bs : list B) :
  rmap f l = inr bs -> List.length bs = List.length l.
Proof.
  revert bs; induction l as [| x l IH]; simpl; intros bs H.
  - inversion H; reflexivity.
  - apply rbind_ok in H as (b & Hb & H).
    apply rbind_ok in H as (bs' & Hbs & H).
    inversion H; subst; simpl; f_equal; eauto.
Qed.

(** What a successful conversion says about the document. *)
Lemma to_response_ok (j : json) (r : JsonResponse) :
  to_response j = inr r ->
  exists kvs es nas md es_items nas_items,
    j = JObject kvs /\
    lookup "success" kvs = Some (success r) /\
    lookup "action" kvs = Some (action r) /\
    lookup "command" kvs = Some (command r) /\
    lookup "data" kvs = Some (data r) /\
    lookup "errors" kvs = Some es /\
    iter es = inr es_items /\
    rmap JsonError_kw es_items = inr (errors r) /\
    lookup "next_actions" kvs = Some nas /\
    iter nas = inr nas_items /\
    rmap NextAction_kw nas_items = inr (next_actions r) /\
    lookup "metadata" kvs = Some md /\
    JsonMetadata_kw md = inr (metadata r) /\
    spec_path r = dict_get kvs "spec_path".
Proof.
  unfold to_response; intros H.
  apply rbind_ok in H as (x1 & H1 & H).
  apply rbind_ok in H as (x2 & H2 & H).
  apply rbind_ok in H as (x3 & H3 & H).
  apply rbind_ok in H as (x4 & H4 & H).
  apply rbind_ok in H as (x5 & H5 & H).
  apply rbind_ok in H as (x6 & H6 & H).
  apply rbind_ok in H as (x7 & H7 & H).
  apply rbind_ok in H as (x8 & H8 & H).
  apply rbind_ok in H as (x9 & H9 & H).
  apply rbind_ok in H as (x10 & H10 & H).
  apply rbind_ok in H as (x11 & H11 & H).
  apply rbind_ok in H as (x12 & H12 & H).
  apply getitem_ok in H1 as (kvs & -> & H1).
  apply getitem_ok in H2 as (kvs' & E & H2); inversion E; subst kvs'; clear E.
  apply getitem_ok in H3 as (kvs' & E & H3); inversion E; subst kvs'; clear E.
  apply getitem_ok in H4 as (kvs' & E & H4); inversion E; subst kvs'; clear E.
  apply getitem_ok in H5 as (kvs' & E & H5); inversion E; subst kvs'; clear E.
  apply getitem_ok in H8 as (kvs' & E & H8); inversion E; subst kvs'; clear E.
  apply getitem_ok in H11 as (kvs' & E & H11); inversion E; subst kvs'; clear E.
  inversion H; subst; clear H; simpl.
  exists kvs, x5, x8, x11, x6, x9; repeat split; assumption.
Qed.

(** The conversion raises [KeyError] or [TypeError], nothing else. *)
Definition key_or_type_error (e : exn) : Prop :=
  e = TypeError \/ exists k, e = KeyError k /\ In k required_fields.

Lemma getitem_error (v : json) (k : string) (e : exn) :
  getitem v k = inl e -> e = TypeError \/ e = KeyError k.
Proof.
  destruct v; simpl; try (intros H; inversion H; auto; fail).
  destruct (lookup k kvs); intros H; inversion H; auto.
Qed.

Lemma iter_error (v : json) (e : exn) : iter v = inl e -> e = TypeError.
Proof. destruct v; simpl; intros H; inversion H; reflexivity. Qed.

Lemma required_error kvs k e : required kvs k = inl e -> e = TypeError.
Proof. unfold required; destruct (lookup k kvs); intros H; inversion H; auto. Qed.

Ltac res_cases H :=
  repeat match type of H with
    | rbind ?r _ = inl _ =>
        let E := fresh "E" in destruct r eqn:E; simpl in H
    | (if ?c then _ else _) = inl _ => destruct c
    end.

Lemma JsonError_kw_error v e : JsonError_kw v = inl e -> e = TypeError.
Proof.
  destruct v; simpl; intros H; try (inversion H; auto; fail).
  res_cases H; try (inversion H; auto; fail);
    repeat match goal with
      | E : required _ _ = inl _ |- _ => apply required_error in E; subst
      end; inversion H; auto.
Qed.

Lemma NextAction_kw_error v e : NextAction_kw v = inl e -> e = TypeError.
Proof.
  destruct v; simpl; intros H; try (inversion H; auto; fail).
  res_cases H; try (inversion H; auto; fail);
    repeat match goal with
      | E : required _ _ = inl _ |- _ => apply required_error in E; subst
      end; inversion H; auto.
Qed.

Lemma JsonMetadata_kw_error v e : JsonMetadata_kw v = inl e -> e = TypeError.
Proof.
  destruct v; simpl; intros H; try (inversion H; auto; fail).
  res_cases H; try (inversion H; auto; fail);
    repeat match goal with
      | E : required _ _ = inl _ |- _ => apply required_error in E; subst
      end; inversion H; auto.
Qed.

Lemma rmap_error {A B} (f : A -> res B) (l : list A) (e : exn) :
  (forall a e', f a = inl e' -> e' = TypeError) ->
  rmap f l = inl e -> e = TypeError.
Proof.
  intros Hf; induction l as [| x l IH]; simpl; intros H; [discriminate |].
  destruct (f x) eqn:Ex; simpl in H.
  - inversion H; subst; eauto.
  - destruct (rmap f l); simpl in H; [inversion H; subst; auto | discriminate].
Qed.

Lemma to_response_error (j : json) (e : exn) :
  to_response j = inl e -> key_or_type_error e.
Proof.
  unfold to_response, key_or_type_error; intros H.
  res_cases H; try discriminate;
    inversion H; subst; clear H;
    repeat match goal with
      | E : getitem _ _ = inl _ |- _ =>
          apply getitem_error in E; destruct E as [-> | ->]
      | E : iter _ = inl _ |- _ => apply iter_error in E; subst
      | E : rmap JsonError_kw _ = inl _ |- _ =>
          apply (rmap_error _ _ _ JsonError_kw_error) in E; subst
      | E : rmap NextAction_kw _ = inl _ |- _ =>
          apply (rmap_error _ _ _ NextAction_kw_error) in E; subst
      | E : JsonMetadata_kw _ = inl _ |- _ =>
          apply JsonMetadata_kw_error in E; subst
      end; auto;
    right; eexists; (split; [reflexivity | simpl; tauto]).
Qed.

(** ** The invocation runner and the response parser *)

Lemma run_intent_command_completed env w command_ args rc out :
  spawn env w (argv_of command_ args) = inr (mkCompleted rc out) ->
  run_intent_command env command_ args w =
    (outcome_of (rbind (json_loads out) to_response),
     logged w (argv_of command_ args)).
Proof.
  unfold argv_of, logged, run_intent_command; intros H; simpl.
  unfold bind, subprocess_run; simpl in *; rewrite H; simpl.
  destruct out as [| j]; simpl; [reflexivity |].
  destruct (to_response j); reflexivity.
Qed.

Lemma run_intent_command_not_started env w command_ args e :
  spawn env w (argv_of command_ args) = inl e ->
  run_intent_command env command_ args w =
    (Raise e, logged w (argv_of command_ args)).
Proof.
  unfold argv_of, logged, run_intent_command; intros H; simpl.
  unfold bind, subprocess_run; simpl in *; rewrite H; reflexivity.
Qed.

(** A key of a mapping that is not among the fields of the dataclass. *)
Definition has_extra_key (fields : list string) (kvs : list (string * json)) : Prop :=
  exists k x, In (k, x) kvs /\ ~ In k fields.

Lemma mem_In (k : string) (ks : list string) : mem k ks = true -> In k ks.
Proof.
  unfold mem; rewrite existsb_exists; intros (x & Hx & E).
  apply String.eqb_eq in E; subst; assumption.
Qed.

Lemma keys_within_no_extra fields kvs :
  keys_within fields kvs = true -> ~ has_extra_key fields kvs.
Proof.
  unfold keys_within; rewrite forallb_forall; intros H (k & x & Hin & Hk).
  apply Hk, mem_In, (H (k, x) Hin).
Qed.

Lemma JsonError_kw_keys kvs e :
  JsonError_kw (JObject kvs) = inr e -> ~ has_extra_key JsonError_fields kvs.
Proof.
  simpl; destruct (keys_within JsonError_fields kvs) eqn:E; [| discriminate].
  intros _; apply keys_within_no_extra, E.
Qed.

Lemma NextAction_kw_keys kvs a :
  NextAction_kw (JObject kvs) = inr a -> ~ has_extra_key NextAction_fields kvs.
Proof.
  simpl; destruct (keys_within NextAction_fields kvs) eqn:E; [| discriminate].
  intros _; apply keys_within_no_extra, E.
Qed.

Lemma JsonMetadata_kw_keys kvs m :
  JsonMetadata_kw (JObject kvs) = inr m -> ~ has_extra_key JsonMetadata_fields kvs.
Proof.
  simpl; destruct (keys_within JsonMetadata_fields kvs) eqn:E; [| discriminate].
  intros _; apply keys_within_no_extra, E.
Qed.

(** An environment in which every sub-process prints the same thing. *)
Definition const_env (p : CompletedProcess) : Env :=
  mkEnv (fun _ _ => inr p) (fun _ _ => true).

Definition sample_metadata (exit_code_ : json) : json :=
  JObject [("timestamp", JString "2024-01-01T00:00:00Z");
           ("version", JString "1.0.0");
           ("exit_code", exit_code_);
           ("correlation_id", JString "c-1");
           ("duration_ms", JInt 12)].

(** A document with every field of the wire object. *)
Definition sample_document (success_ data_ : json) (errors_ next_actions_ : list json)
    (exit_code_ : json) : json :=
  JObject [("success", success_);
           ("action", JString "quality");
           ("command", JString "intent quality spec.cue");
           ("data", data_);
           ("errors", JArray errors_);
           ("next_actions", JArray next_actions_);
           ("metadata", sample_metadata exit_code_)].

(** C7.  When the captured output is a JSON object from which a required
    field ([success], [action], [command], [data], [errors],
    [next_actions] or [metadata]) is absent, [run_intent_command] raises an
    exception, a [KeyError] or a [TypeError], and returns no response; when
    the absent field is [success] the exception is [KeyError('success')]. *)
Theorem missing_required_field_raises env w command_ args rc kvs k :
  In k required_fields ->
  lookup k kvs = None ->
  spawn env w (argv_of command_ args) = inr (mkCompleted rc (Document (JObject kvs))) ->
  exists e,
    run_intent_command env command_ args w
      = (Raise e, logged w (argv_of command_ args)) /\
    key_or_type_error e /\
    (k = "success" -> e = KeyError "success").
Proof.
  intros Hk Habsent Hspawn.
  rewrite (run_intent_command_completed _ _ _ _ _ _ Hspawn); simpl.
  destruct (to_response (JObject kvs)) as [e | r] eqn:E.
  - exists e; repeat split.
    + eapply to_response_error; eassumption.
    + intros ->; unfold to_response in E; simpl in E.
      rewrite Habsent in E; simpl in E; inversion E; reflexivity.
  - exfalso.
    apply to_response_ok in E
      as (kvs' & es & nas & md & ei & ni & Ej & H1 & H2 & H3 & H4 & H5 & _ & _
          & H8 & _ & _ & H11 & _).
    inversion Ej; subst kvs'; clear Ej.
    simpl in Hk.
    repeat (destruct Hk as [<- | Hk]; [congruence |]).
    contradiction.
Qed.

Lemma missing_required_field_raises_witness :
  exists e,
    run_intent_command
      (const_env (mkCompleted 0 (Document (JObject [("action", JString "quality")]))))
      "quality" ["spec.cue"] empty_world
      = (Raise e, logged empty_world (argv_of "quality" ["spec.cue"])) /\
    key_or_type_error e /\
    ("success" = "success" -> e = KeyError "success").
Proof.
  apply (missing_required_field_raises _ _ _ _ 0 [("action", JString "quality")]);
    [simpl; tauto | reflexivity | reflexivity].
Defined.

(** C10.  When an entry of [errors] has a key outside [code], [message],
    [location], [fix_hint], [fix_command], or an entry of [next_actions] a
    key outside [command], [reason], or [metadata] a key outside its five
    fields, [run_intent_command] raises an exception and returns no
    response: the extra data is not ignored. *)
Theorem extra_key_raises env w command_ args rc kvs :
  spawn env w (argv_of command_ args) = inr (mkCompleted rc (Document (JObject kvs))) ->
  (exists es ekvs, lookup "errors" kvs = Some (JArray es) /\
                   In (JObject ekvs) es /\ has_extra_key JsonError_fields ekvs) \/
  (exists nas akvs, lookup "next_actions" kvs = Some (JArray nas) /\
                    In (JObject akvs) nas /\ has_extra_key NextAction_fields akvs) \/
  (exists mkvs, lookup "metadata" kvs = Some (JObject mkvs) /\
                has_extra_key JsonMetadata_fields mkvs) ->
  exists e,
    run_intent_command env command_ args w
      = (Raise e, logged w (argv_of command_ args)) /\
    key_or_type_error e.
Proof.
  intros Hspawn Hextra.
  rewrite (run_intent_command_completed _ _ _ _ _ _ Hspawn); simpl.
  destruct (to_response (JObject kvs)) as [e | r] eqn:E.
  - exists e; split; [reflexivity | eapply to_response_error; eassumption].
  - exfalso.
    apply to_response_ok in E
      as (kvs' & es & nas & md & ei & ni & Ej & _ & _ & _ & _ & H5 & H6 & H7
          & H8 & H9 & H10 & H11 & H12 & _).
    inversion Ej; subst kvs'; clear Ej.
    destruct Hextra as [(es' & ekvs & L & Hin & Hx)
                       | [(nas' & akvs & L & Hin & Hx) | (mkvs & L & Hx)]].
    + rewrite L in H5; inversion H5; subst es; simpl in H6.
      inversion H6; subst ei.
      destruct (rmap_ok _ _ _ H7 _ Hin) as (b & Hb & _).
      exact (JsonError_kw_keys _ _ Hb Hx).
    + rewrite L in H8; inversion H8; subst nas; simpl in H9.
      inversion H9; subst ni.
      destruct (rmap_ok _ _ _ H10 _ Hin) as (b & Hb & _).
      exact (NextAction_kw_keys _ _ Hb Hx).
    + rewrite L in H11; inversion H11; subst md.
      exact (JsonMetadata_kw_keys _ _ H12 Hx).
Qed.

(** A response whose only error carries one more key, [severity]. *)
Definition document_with_extra_key : json :=
  sample_document (JBool false) (JObject [])
    [JObject [("code", JString "E1"); ("message", JString "bad");
              ("severity", JString "high")]]
    [] (JInt 2).

Lemma extra_key_raises_witness :
  exists e,
    run_intent_command (const_env (mkCompleted 2 (Document document_with_extra_key)))
      "quality" ["spec.cue"] empty_world
      = (Raise e, logged empty_world (argv_of "quality" ["spec.cue"])) /\
    key_or_type_error e.
Proof.
  eapply (extra_key_raises _ _ _ _ 2); [reflexivity |].
  left; eexists; eexists; split; [reflexivity |].
  split; [left; reflexivity |].
  exists "severity", (JString "high"); split; [simpl; tauto |].
  simpl; intros H; repeat (destruct H as [H | H]; [discriminate |]); exact H.
Defined.

Definition passing_document : json :=
  sample_document (JBool true) (JObject [("overall_score", JInt 90)]) [] [] (JInt 0).



(* ------------------------------------------------------------------ *)
(** ** Running statements *)

(** The world after the lines [ls] were printed. *)
Definition say (w : World) (ls : list line) : World :=
  mkWorld (calls w) (files w) (printed w ++ ls) (printed_err w).

Lemma say_nil w : say w [] = w.
Proof. destruct w; unfold say; simpl; rewrite app_nil_r; reflexivity. Qed.

Lemma say_say w ls ls' : say (say w ls) ls' = say w (ls ++ ls').
Proof. unfold say; simpl; rewrite <- app_assoc; reflexivity. Qed.

Lemma logged_say w ls argv : logged (say w ls) argv = say (logged w argv) ls.
Proof. reflexivity. Qed.

(** The world after [value] was written to the file [path]. *)
Definition wrote (w : World) (path : string) (value : json) : World :=
  mkWorld (calls w) (files w ++ [(path, value)]) (printed w) (printed_err w).

Lemma wrote_say w ls path value :
  wrote (say w ls) path value = say (wrote w path value) ls.
Proof. reflexivity. Qed.

Lemma write_json_ok env path value w :
  writable env w path = true ->
  write_json env path value w = (Return tt, wrote w path value).
Proof. unfold write_json; intros ->; reflexivity. Qed.

Ltac normalize_world :=
  repeat first [rewrite logged_say | rewrite wrote_say | rewrite say_say].

Lemma print_say l w : print l w = (Return tt, say w [l]).
Proof. reflexivity. Qed.

Lemma bind_Return {A B} (m : M A) (k : A -> M B) w a w' :
  m w = (Return a, w') -> bind m k w = k a w'.
Proof. unfold bind; intros ->; reflexivity. Qed.

Lemma bind_Raise {A B} (m : M A) (k : A -> M B) w e w' :
  m w = (Raise e, w') -> bind m k w = (Raise e, w').
Proof. unfold bind; intros ->; reflexivity. Qed.

Lemma bind_Exit {A B} (m : M A) (k : A -> M B) w c w' :
  m w = (Exit c, w') -> bind m k w = (Exit c, w').
Proof. unfold bind; intros ->; reflexivity. Qed.

Lemma bind_print {B} (l : line) (k : unit -> M B) w :
  bind (print l) k w = k tt (say w [l]).
Proof. reflexivity. Qed.

Lemma bind_lift_ok {A B} (r : res A) (k : A -> M B) w a :
  r = inr a -> bind (lift r) k w = k a w.
Proof. intros ->; reflexivity. Qed.

Lemma bind_lift_error {A B} (r : res A) (k : A -> M B) w e :
  r = inl e -> bind (lift r) k w = (Raise e, w).
Proof. intros ->; reflexivity. Qed.

Lemma bind_lift_inl {A B} (e : exn) (k : A -> M B) w :
  bind (lift (inl e)) k w = (Raise e, w).
Proof. reflexivity. Qed.

Lemma bind_lift_inr {A B} (a : A) (k : A -> M B) w :
  bind (lift (inr a)) k w = k a w.
Proof. reflexivity. Qed.

(** A loop whose body only prints. *)
Lemma for_each_say {A} (body : A -> M unit) (f : A -> list line) items :
  (forall x w, body x w = (Return tt, say w (f x))) ->
  forall w, for_each items body w = (Return tt, say w (flat_map f items)).
Proof.
  intros Hbody; induction items as [| x items IH]; intros w; simpl.
  - rewrite say_nil; reflexivity.
  - rewrite (bind_Return _ _ _ _ _ (Hbody x w)), IH, say_say; reflexivity.
Qed.

Lemma for_each_print {A} (f : A -> line) items w :
  for_each items (fun x => print (f x)) w = (Return tt, say w (map f items)).
Proof.
  rewrite (for_each_say _ (fun x => [f x])); [| reflexivity].
  replace (flat_map (fun x => [f x]) items) with (map f items); [reflexivity |].
  induction items; simpl; congruence.
Qed.

Lemma when_say (c : bool) (body : M unit) ls w :
  body w = (Return tt, say w ls) ->
  when c body w = (Return tt, say w (if c then ls else [])).
Proof.
  destruct c; simpl; intros H; [exact H | rewrite say_nil; reflexivity].
Qed.

(** A sub-process that ran and printed a document that converts. *)
Lemma run_intent_command_response env w command_ args rc j r :
  spawn env w (argv_of command_ args) = inr (mkCompleted rc (Document j)) ->
  to_response j = inr r ->
  run_intent_command env command_ args w
    = (Return r, logged w (argv_of command_ args)).
Proof.
  intros H Hr; rewrite (run_intent_command_completed _ _ _ _ _ _ H); simpl.
  rewrite Hr; reflexivity.
Qed.

Arguments run_intent_command : simpl never.

(* ------------------------------------------------------------------ *)
(** ** The quality gate *)

Definition bullet (v : json) : line := [Lit "  • "; Val v].

Definition gate_banner (threshold : pynum) : line :=
  [Lit "Running quality gate (threshold: "; Val (json_of_num threshold); Lit ")..."].

Definition gate_score (score : json) : line :=
  [Lit "Quality score: "; Val score; Lit "/100"].

Definition gate_failed (score : json) (threshold : pynum) : line :=
  [Lit (nl ++ "❌ Quality gate failed: "); Val score; Lit " < ";
   Val (json_of_num threshold)].

Definition gate_passed (score : json) (threshold : pynum) : line :=
  [Lit "✅ Quality gate passed: "; Val score; Lit " >= ";
   Val (json_of_num threshold)].

Definition next_step_lines (a : NextAction) : list line :=
  [[Lit "  "; Val (na_command a)]; [Lit "    → "; Val (na_reason a)]].

Definition next_steps (nas : list NextAction) : list line :=
  if nonempty nas
  then [Lit (nl ++ "Suggested next steps:")] :: flat_map next_step_lines nas
  else [].

(** The gate on a response that reports success, with a score that is a
    number and, below the threshold, lists of issues and suggestions. *)
Lemma quality_gate_below env w spec_path_ threshold rc j r d score issues suggestions :
  (forall w', spawn env w' (argv_of "quality" [spec_path_])
              = inr (mkCompleted rc (Document j))) ->
  to_response j = inr r ->
  truthy (success r) = true ->
  data r = JObject d ->
  lookup "overall_score" d = Some score ->
  lt score threshold = inr true ->
  lookup "issues" d = Some (JArray issues) ->
  lookup "suggestions" d = Some (JArray suggestions) ->
  quality_gate env spec_path_ threshold w =
    (Exit (JInt 1),
     say (logged w (argv_of "quality" [spec_path_]))
       ([gate_banner threshold; gate_score score; gate_failed score threshold;
         [Lit (nl ++ "Issues:")]]
        ++ map bullet issues
        ++ [[Lit (nl ++ "Suggestions:")]]
        ++ map bullet suggestions)).
Proof.
  intros Hspawn Hr Hs Hd Hscore Hlt Hi Hsg.
  unfold quality_gate.
  rewrite bind_print.
  rewrite (bind_Return _ _ _ _ _ (run_intent_command_response _ _ _ _ _ _ _ (Hspawn _) Hr)).
  rewrite Hs, Hd; simpl negb; cbv iota.
  rewrite (bind_Return _ _ _ tt _ eq_refl).
  rewrite (bind_lift_ok _ _ _ score) by (simpl; rewrite Hscore; reflexivity).
  rewrite bind_print.
  rewrite (bind_lift_ok _ _ _ true Hlt).
  erewrite bind_Exit; [reflexivity |].
  rewrite !bind_print.
  rewrite (bind_lift_ok _ _ _ issues) by (simpl; rewrite Hi; reflexivity).
  rewrite (bind_Return _ _ _ _ _ (for_each_print _ _ _)).
  rewrite bind_print.
  rewrite (bind_lift_ok _ _ _ suggestions) by (simpl; rewrite Hsg; reflexivity).
  rewrite (bind_Return _ _ _ _ _ (for_each_print _ _ _)).
  unfold sys_exit; rewrite logged_say, !say_say; simpl app.
  reflexivity.
Qed.

Lemma print_next_steps nas w :
  when (nonempty nas)
    (bind (print [Lit (nl ++ "Suggested next steps:")]) (fun _ =>
     for_each nas (fun action_ =>
       bind (print [Lit "  "; Val (na_command action_)]) (fun _ =>
       print [Lit "    → "; Val (na_reason action_)])))) w
  = (Return tt, say w (next_steps nas)).
Proof.
  unfold next_steps; apply when_say.
  rewrite bind_print.
  rewrite (for_each_say _ next_step_lines); [rewrite say_say; reflexivity |].
  intros x w'; rewrite bind_print, print_say, say_say; reflexivity.
Qed.

Lemma quality_gate_not_below env w spec_path_ threshold rc j r score :
  (forall w', spawn env w' (argv_of "quality" [spec_path_])
              = inr (mkCompleted rc (Document j))) ->
  to_response j = inr r ->
  truthy (success r) = true ->
  getitem (data r) "overall_score" = inr score ->
  lt score threshold = inr false ->
  quality_gate env spec_path_ threshold w =
    (Return tt,
     say (logged w (argv_of "quality" [spec_path_]))
       ([gate_banner threshold; gate_score score; gate_passed score threshold]
        ++ next_steps (next_actions r))).
Proof.
  intros Hspawn Hr Hs Hscore Hlt.
  unfold quality_gate.
  rewrite bind_print.
  rewrite (bind_Return _ _ _ _ _ (run_intent_command_response _ _ _ _ _ _ _ (Hspawn _) Hr)).
  rewrite Hs; simpl negb; cbv iota.
  rewrite (bind_Return _ _ _ tt _ eq_refl).
  rewrite (bind_lift_ok _ _ _ score Hscore).
  rewrite bind_print.
  rewrite (bind_lift_ok _ _ _ false Hlt).
  rewrite (bind_Return _ _ _ tt _ eq_refl).
  rewrite bind_print.
  rewrite print_next_steps, logged_say, !say_say; reflexivity.
Qed.

(** C2.  With threshold 80 and a response that reports success: when
    [data.overall_score] is 79 the gate prints one line for every entry of
    [data.issues] and one for every entry of [data.suggestions] and then
    ends the process with [sys.exit(1)]; when it is 80 the gate returns
    normally and has printed the pass message. *)
Theorem quality_gate_threshold_80 env w spec_path_ rc j r d :
  (forall w', spawn env w' (argv_of "quality" [spec_path_])
              = inr (mkCompleted rc (Document j))) ->
  to_response j = inr r ->
  success r = JBool true ->
  data r = JObject d ->
  (forall issues suggestions,
     lookup "overall_score" d = Some (JInt 79) ->
     lookup "issues" d = Some (JArray issues) ->
     lookup "suggestions" d = Some (JArray suggestions) ->
     quality_gate env spec_path_ (NInt 80) w =
       (Exit (JInt 1),
        say (logged w (argv_of "quality" [spec_path_]))
          ([gate_banner (NInt 80); gate_score (JInt 79);
            gate_failed (JInt 79) (NInt 80); [Lit (nl ++ "Issues:")]]
           ++ map bullet issues
           ++ [[Lit (nl ++ "Suggestions:")]]
           ++ map bullet suggestions))) /\
  (lookup "overall_score" d = Some (JInt 80) ->
     quality_gate env spec_path_ (NInt 80) w =
       (Return tt,
        say (logged w (argv_of "quality" [spec_path_]))
          ([gate_banner (NInt 80); gate_score (JInt 80);
            gate_passed (JInt 80) (NInt 80)]
           ++ next_steps (next_actions r)))).
Proof.
  intros Hspawn Hr Hs Hd; split.
  - intros issues suggestions Hscore Hi Hsg.
    eapply quality_gate_below; eauto.
    rewrite Hs; reflexivity.
  - intros Hscore.
    eapply quality_gate_not_below; eauto.
    + rewrite Hs; reflexivity.
    + rewrite Hd; simpl; rewrite Hscore; reflexivity.
Qed.

Definition failing_quality_document : json :=
  sample_document (JBool true)
    (JObject [("overall_score", JInt 79);
              ("issues", JArray [JString "no error cases"; JString "vague intent"]);
              ("suggestions", JArray [JString "add a 404 behavior"])])
    [] [] (JInt 0).

Definition passing_quality_document : json :=
  sample_document (JBool true)
    (JObject [("overall_score", JInt 80); ("issues", JArray []);
              ("suggestions", JArray [])])
    []
    [JObject [("command", JString "intent coverage spec.cue");
              ("reason", JString "check coverage")]]
    (JInt 0).

Definition response_of (j : json) : JsonResponse :=
  match to_response j with
  | inr r => r
  | inl _ =>
      mkJsonResponse JNull JNull JNull JNull [] []
        (mkJsonMetadata JNull JNull JNull JNull JNull) JNull
  end.

Lemma quality_gate_threshold_80_witness :
  quality_gate (const_env (mkCompleted 0 (Document failing_quality_document)))
    "spec.cue" (NInt 80) empty_world
  = (Exit (JInt 1),
     mkWorld [["intent"; "quality"; "spec.cue"; "--json=true"]] []
       [gate_banner (NInt 80); gate_score (JInt 79);
        gate_failed (JInt 79) (NInt 80); [Lit (nl ++ "Issues:")];
        bullet (JString "no error cases"); bullet (JString "vague intent");
        [Lit (nl ++ "Suggestions:")]; bullet (JString "add a 404 behavior")]
       []) /\
  quality_gate (const_env (mkCompleted 0 (Document passing_quality_document)))
    "spec.cue" (NInt 80) empty_world
  = (Return tt,
     mkWorld [["intent"; "quality"; "spec.cue"; "--json=true"]] []
       [gate_banner (NInt 80); gate_score (JInt 80);
        gate_passed (JInt 80) (NInt 80);
        [Lit (nl ++ "Suggested next steps:")];
        [Lit "  "; Val (JString "intent coverage spec.cue")];
        [Lit "    → "; Val (JString "check coverage")]]
       []).
Proof.
  split.
  - exact (proj1 (quality_gate_threshold_80
                    (const_env (mkCompleted 0 (Document failing_quality_document)))
                    empty_world "spec.cue" 0 failing_quality_document
                    (response_of failing_quality_document) _
                    (fun _ => eq_refl) eq_refl eq_refl eq_refl)
             [JString "no error cases"; JString "vague intent"]
             [JString "add a 404 behavior"] eq_refl eq_refl eq_refl).
  - exact (proj2 (quality_gate_threshold_80
                    (const_env (mkCompleted 0 (Document passing_quality_document)))
                    empty_world "spec.cue" 0 passing_quality_document
                    (response_of passing_quality_document) _
                    (fun _ => eq_refl) eq_refl eq_refl eq_refl)
             eq_refl).
Defined.

(* ------------------------------------------------------------------ *)
(** ** Robust execution *)

Definition error_lines (error : JsonError) : list line :=
  [[Lit "  ["; Val (code error); Lit "] "; Val (message error)]]
  ++ (if truthy (location error)
      then [[Lit "    at "; Val (location error)]] else [])
  ++ (if truthy (fix_hint error)
      then [[Lit "    hint: "; Val (fix_hint error)]] else [])
  ++ (if truthy (fix_command error)
      then [[Lit "    fix: "; Val (fix_command error)]] else []).

Definition autofix_lines (es : list JsonError) : list line :=
  let fixable_errors := filter (fun e => truthy (fix_command e)) es in
  if nonempty fixable_errors
  then [Lit (nl ++ "Attempting auto-fix...")]
       :: map (fun e => [Lit "Running: "; Val (fix_command e)]) fixable_errors
  else [].

(** The world after a line went to the error stream. *)
Definition say_err (w : World) (l : line) : World :=
  mkWorld (calls w) (files w) (printed w) (printed_err w ++ [l]).

Lemma print_error_say error w :
  print_error error w = (Return tt, say w (error_lines error)).
Proof.
  unfold print_error, error_lines.
  rewrite bind_print.
  erewrite bind_Return by (apply when_say, print_say).
  erewrite bind_Return by (apply when_say, print_say).
  erewrite when_say by apply print_say.
  rewrite !say_say; reflexivity.
Qed.

Lemma robust_execution_reported_failure env w spec_path_ rc j r :
  spawn env w (argv_of "quality" [spec_path_]) = inr (mkCompleted rc (Document j)) ->
  to_response j = inr r ->
  truthy (success r) = false ->
  robust_execution env spec_path_ w =
    (Exit (exit_code (metadata r)),
     say (logged w (argv_of "quality" [spec_path_]))
       ([[Lit "Command failed:"]]
        ++ flat_map error_lines (errors r)
        ++ autofix_lines (errors r))).
Proof.
  intros Hspawn Hr Hs.
  unfold robust_execution, try_except.
  rewrite (bind_Return _ _ _ _ _ (run_intent_command_response _ _ _ _ _ _ _ Hspawn Hr)).
  rewrite Hs; simpl negb; cbv iota.
  erewrite bind_Exit; [reflexivity |].
  rewrite bind_print.
  rewrite (bind_Return _ _ _ _ _ (for_each_say _ _ _ print_error_say _)).
  erewrite bind_Return.
  2:{ apply when_say. rewrite bind_print, for_each_print, say_say; reflexivity. }
  unfold sys_exit, autofix_lines; rewrite !say_say; reflexivity.
Qed.

Lemma robust_execution_reported_success env w spec_path_ rc j r :
  spawn env w (argv_of "quality" [spec_path_]) = inr (mkCompleted rc (Document j)) ->
  to_response j = inr r ->
  truthy (success r) = true ->
  robust_execution env spec_path_ w =
    (Return tt,
     say (logged w (argv_of "quality" [spec_path_]))
       [[Lit "✅ Success"];
        [Lit "Correlation ID: "; Val (correlation_id (metadata r))]]).
Proof.
  intros Hspawn Hr Hs.
  unfold robust_execution, try_except.
  rewrite (bind_Return _ _ _ _ _ (run_intent_command_response _ _ _ _ _ _ _ Hspawn Hr)).
  rewrite Hs; simpl negb; cbv iota.
  rewrite (bind_Return _ _ _ tt _ eq_refl).
  rewrite bind_print, print_say, say_say; reflexivity.
Qed.

Lemma robust_execution_exception env w spec_path_ e w' :
  run_intent_command env "quality" [spec_path_] w = (Raise e, w') ->
  robust_execution env spec_path_ w =
    (Exit (JInt 4), say_err w' [Lit "Execution error: "; ExnText e]).
Proof.
  intros Hrun.
  unfold robust_execution, try_except.
  rewrite (bind_Raise _ _ _ _ _ Hrun); reflexivity.
Qed.

(** C5.  Robust execution on a response with [success] false and
    [metadata.exit_code] 7 ends the process with [sys.exit(7)], after the
    report of the errors; on captured output that is not JSON it ends the
    process with [sys.exit(4)], after the decoding error went to the error
    stream. *)
Theorem robust_execution_exit_codes env w spec_path_ rc :
  (forall j r,
     spawn env w (argv_of "quality" [spec_path_])
       = inr (mkCompleted rc (Document j)) ->
     to_response j = inr r ->
     success r = JBool false ->
     exit_code (metadata r) = JInt 7 ->
     robust_execution env spec_path_ w =
       (Exit (JInt 7),
        say (logged w (argv_of "quality" [spec_path_]))
          ([[Lit "Command failed:"]]
           ++ flat_map error_lines (errors r)
           ++ autofix_lines (errors r)))) /\
  (spawn env w (argv_of "quality" [spec_path_]) = inr (mkCompleted rc NotJson) ->
     robust_execution env spec_path_ w =
       (Exit (JInt 4),
        say_err (logged w (argv_of "quality" [spec_path_]))
          [Lit "Execution error: "; ExnText JSONDecodeError])).
Proof.
  split.
  - intros j r Hspawn Hr Hs Hcode.
    rewrite <- Hcode.
    eapply robust_execution_reported_failure; eauto.
    rewrite Hs; reflexivity.
  - intros Hspawn.
    apply robust_execution_exception.
    rewrite (run_intent_command_completed _ _ _ _ _ _ Hspawn); reflexivity.
Qed.

Definition exit_7_document : json :=
  sample_document (JBool false) (JObject [])
    [JObject [("code", JString "E042"); ("message", JString "spec not found");
              ("fix_command", JString "intent init")]]
    [] (JInt 7).

Lemma robust_execution_exit_codes_witness :
  robust_execution (const_env (mkCompleted 7 (Document exit_7_document)))
    "spec.cue" empty_world
  = (Exit (JInt 7),
     mkWorld [["intent"; "quality"; "spec.cue"; "--json=true"]] []
       [[Lit "Command failed:"];
        [Lit "  ["; Val (JString "E042"); Lit "] "; Val (JString "spec not found")];
        [Lit "    fix: "; Val (JString "intent init")];
        [Lit (nl ++ "Attempting auto-fix...")];
        [Lit "Running: "; Val (JString "intent init")]]
       []) /\
  robust_execution (const_env (mkCompleted 0 NotJson)) "spec.cue" empty_world
  = (Exit (JInt 4),
     mkWorld [["intent"; "quality"; "spec.cue"; "--json=true"]] [] []
       [[Lit "Execution error: "; ExnText JSONDecodeError]]).
Proof.
  split.
  - exact (proj1 (robust_execution_exit_codes
                    (const_env (mkCompleted 7 (Document exit_7_document)))
                    empty_world "spec.cue" 7)
             exit_7_document (response_of exit_7_document)
             eq_refl eq_refl eq_refl eq_refl).
  - exact (proj2 (robust_execution_exit_codes
                    (const_env (mkCompleted 0 NotJson)) empty_world "spec.cue" 0)
             eq_refl).
Defined.

(* ------------------------------------------------------------------ *)
(** ** Splitting a suggested command line *)

Example chars_ascii : chars "a b" = ["a"; " "; "b"].
Proof. reflexivity. Qed.

(** U+00E9 and U+2003 take two and three bytes. *)
Example chars_utf8 :
  chars (of_bytes [97; 195; 169; 226; 128; 131; 98]%nat)
  = [of_bytes [97]; of_bytes [195; 169]; of_bytes [226; 128; 131]; of_bytes [98]]%nat.
Proof. reflexivity. Qed.

Example split_command_line :
  split "intent coverage spec.cue --json=true"
  = ["intent"; "coverage"; "spec.cue"; "--json=true"].
Proof. reflexivity. Qed.

Example split_runs_of_whitespace :
  split (" intent" ++ of_bytes [9; 32]%nat ++ "gaps" ++ nl ++ of_bytes [226; 128; 131]%nat
         ++ "a.cue  ")
  = ["intent"; "gaps"; "a.cue"].
Proof. reflexivity. Qed.

Example split_blank : split "   " = [].
Proof. reflexivity. Qed.

Lemma append_empty_r (s : string) : (s ++ "")%string = s.
Proof. induction s; simpl; congruence. Qed.

Lemma append_assoc (a b c : string) : ((a ++ b) ++ c)%string = (a ++ b ++ c)%string.
Proof. induction a; simpl; congruence. Qed.

Lemma is_empty_append (a b : string) :
  is_empty (a ++ b) = (is_empty a && is_empty b)%bool.
Proof. destruct a; reflexivity. Qed.

(** A word that is being read, as [split_chars] leaves it. *)
Definition word (cur : string) : list string :=
  if is_empty cur then [] else [cur].

(** A run of characters without whitespace is read into the current word. *)
Lemma split_chars_run (run : list string) (cur : string) :
  forallb (fun c => negb (isspace c)) run = true ->
  forall cs,
    split_chars (run ++ cs) cur
    = split_chars cs (cur ++ String.concat "" run).
Proof.
  revert cur; induction run as [| c run IH]; intros cur Hrun cs; simpl.
  - rewrite append_empty_r; reflexivity.
  - simpl in Hrun; apply andb_true_iff in Hrun as (Hc & Hrun).
    apply negb_true_iff in Hc; rewrite Hc.
    rewrite IH by assumption.
    f_equal.
    destruct run as [| c' run]; simpl.
    + rewrite append_empty_r; reflexivity.
    + rewrite append_assoc; reflexivity.
Qed.

(** A whitespace character ends the current word, if there is one. *)
Lemma split_chars_space (c : string) (cs : list string) (cur : string) :
  isspace c = true ->
  split_chars (c :: cs) cur = word cur ++ split_chars cs "".
Proof.
  intros Hc; simpl; rewrite Hc; unfold word.
  destruct (is_empty cur); reflexivity.
Qed.

Lemma split_chars_end (cur : string) : split_chars [] cur = word cur.
Proof. reflexivity. Qed.

(** No word of the result is empty. *)
Lemma split_chars_nonempty (cs : list string) (cur : string) :
  Forall (fun t => is_empty t = false) (split_chars cs cur).
Proof.
  revert cur; induction cs as [| c cs IH]; intros cur; simpl.
  - destruct (is_empty cur) eqn:E; auto.
  - destruct (isspace c); [| apply IH].
    destruct (is_empty cur) eqn:E; [apply IH | constructor; [assumption | apply IH]].
Qed.

Lemma split_nonempty (s : string) : Forall (fun t => is_empty t = false) (split s).
Proof. apply split_chars_nonempty. Qed.

(* ------------------------------------------------------------------ *)
(** ** The chained workflow driver *)

Lemma run_intent_command_calls env command_ args w :
  calls (snd (run_intent_command env command_ args w))
  = calls w ++ [argv_of command_ args].
Proof.
  destruct (spawn env w (argv_of command_ args)) as [e | [rc out]] eqn:E.
  - rewrite (run_intent_command_not_started _ _ _ _ _ E); reflexivity.
  - rewrite (run_intent_command_completed _ _ _ _ _ _ E); reflexivity.
Qed.

Lemma run_intent_command_ends env command_ args w :
  fst (run_intent_command env command_ args w) <> Diverge.
Proof.
  destruct (spawn env w (argv_of command_ args)) as [e | [rc out]] eqn:E.
  - rewrite (run_intent_command_not_started _ _ _ _ _ E); discriminate.
  - rewrite (run_intent_command_completed _ _ _ _ _ _ E); simpl.
    destruct (rbind (json_loads out) to_response); discriminate.
Qed.

(** The lines that one iteration prints before it starts the sub-process. *)
Definition step_lines (response : JsonResponse) (depth : Z) (next_action : NextAction)
  : list line :=
  [[Lit (nl ++ "=== Step "); Val (JInt (depth + 1)); Lit " ==="];
   [Lit "Command: "; Val (command response)];
   [Lit "Action: "; Val (action response)];
   [Lit (nl ++ "Next: "); Val (na_command next_action)];
   [Lit "Reason: "; Val (na_reason next_action)]].

Lemma auto_loop_unfold env fuel max_depth response depth :
  auto_loop env fuel max_depth response depth =
  if nonempty (next_actions response) && (depth <? max_depth) then
    match fuel with
    | O => fun w => (Diverge, w)
    | S fuel' =>
        bind (print [Lit (nl ++ "=== Step "); Val (JInt (depth + 1)); Lit " ==="]) (fun _ =>
        bind (print [Lit "Command: "; Val (command response)]) (fun _ =>
        bind (print [Lit "Action: "; Val (action response)]) (fun _ =>
        bind (lift (index (next_actions response) 0)) (fun next_action =>
        bind (print [Lit (nl ++ "Next: "); Val (na_command next_action)]) (fun _ =>
        bind (print [Lit "Reason: "; Val (na_reason next_action)]) (fun _ =>
        bind (lift (split_of (na_command next_action))) (fun parts =>
        bind (lift (index parts 1)) (fun command_ =>
        bind (run_intent_command env command_ (positional parts)) (fun response' =>
        auto_loop env fuel' max_depth response' (depth + 1))))))))))
    end
  else ret tt.
Proof. destruct fuel; reflexivity. Qed.

(** One iteration of the loop. *)
Lemma auto_loop_iteration env fuel max_depth response depth w
      next_action others s tool sub more :
  next_actions response = next_action :: others ->
  depth < max_depth ->
  na_command next_action = JString s ->
  split s = tool :: sub :: more ->
  auto_loop env (S fuel) max_depth response depth w
  = bind (run_intent_command env sub
            (filter (fun arg => negb (String.prefix "--" arg)) more))
         (fun response' => auto_loop env fuel max_depth response' (depth + 1))
         (say w (step_lines response depth next_action)).
Proof.
  intros Hna Hdepth Hcmd Hsplit.
  rewrite auto_loop_unfold.
  rewrite Hna.
  apply Z.ltb_lt in Hdepth; rewrite Hdepth.
  cbn [nonempty andb].
  rewrite !bind_print.
  rewrite (bind_lift_ok _ _ _ next_action eq_refl).
  rewrite !bind_print.
  rewrite (bind_lift_ok _ _ _ (tool :: sub :: more))
    by (rewrite Hcmd; simpl; rewrite Hsplit; reflexivity).
  rewrite (bind_lift_ok _ _ _ sub eq_refl).
  rewrite !say_say; reflexivity.
Qed.

(** C9.  An iteration of the chained workflow driver reads the first
    element of [next_actions] only, splits its command on whitespace,
    drops the first word, takes the second as the sub-command and passes
    the later words that do not start with [--], in their order, as the
    arguments: these fix the command line of the next sub-process, whatever
    the other suggested actions and the first word are. *)
Theorem auto_loop_follows_first_action env fuel max_depth response depth w
        next_action others s tool sub more :
  next_actions response = next_action :: others ->
  depth < max_depth ->
  na_command next_action = JString s ->
  split s = tool :: sub :: more ->
  let args := filter (fun arg => negb (String.prefix "--" arg)) more in
  let w1 := say w (step_lines response depth next_action) in
  auto_loop env (S fuel) max_depth response depth w
  = bind (run_intent_command env sub args)
         (fun response' => auto_loop env fuel max_depth response' (depth + 1)) w1 /\
  calls (snd (run_intent_command env sub args w1))
  = calls w ++ [["intent"; sub] ++ args ++ ["--json=true"]].
Proof.
  intros Hna Hdepth Hcmd Hsplit args w1; split.
  - eapply auto_loop_iteration; eassumption.
  - rewrite run_intent_command_calls; reflexivity.
Qed.

Definition two_suggestions : JsonResponse :=
  mkJsonResponse (JBool true) (JString "quality") (JString "intent quality a.cue")
    (JObject [])
    []
    [mkNextAction (JString "mytool coverage a.cue --verbose extra --json=true")
       (JString "measure coverage");
     mkNextAction (JString "intent gaps a.cue") (JString "find gaps")]
    (mkJsonMetadata (JString "t") (JString "1") (JInt 0) (JString "c") (JInt 1))
    JNull.

Lemma auto_loop_follows_first_action_witness :
  let env := const_env (mkCompleted 0 (Document passing_document)) in
  let args := filter (fun arg => negb (String.prefix "--" arg))
                ["a.cue"; "--verbose"; "extra"; "--json=true"] in
  let w1 := say empty_world
              (step_lines two_suggestions 0
                 (mkNextAction (JString "mytool coverage a.cue --verbose extra --json=true")
                    (JString "measure coverage"))) in
  auto_loop env 1 3 two_suggestions 0 empty_world
  = bind (run_intent_command env "coverage" args)
         (fun response' => auto_loop env 0 3 response' (0 + 1)) w1 /\
  calls (snd (run_intent_command env "coverage" args w1))
  = calls empty_world ++ [["intent"; "coverage"] ++ args ++ ["--json=true"]].
Proof.
  exact (auto_loop_follows_first_action
           (const_env (mkCompleted 0 (Document passing_document)))
           0 3 two_suggestions 0 empty_world
           (mkNextAction (JString "mytool coverage a.cue --verbose extra --json=true")
              (JString "measure coverage"))
           [mkNextAction (JString "intent gaps a.cue") (JString "find gaps")]
           "mytool coverage a.cue --verbose extra --json=true"
           "mytool" "coverage" ["a.cue"; "--verbose"; "extra"; "--json=true"]
           eq_refl eq_refl eq_refl eq_refl).
Defined.

Example positional_arguments :
  positional ["mytool"; "coverage"; "a.cue"; "--verbose"; "extra"; "--json=true"]
  = ["a.cue"; "extra"].
Proof. reflexivity. Qed.

(** The sub-process started in world [w] with [argv] prints a document
    that converts to a response with the property [P]. *)
Definition answers (env : Env) (w : World) (argv : list string)
    (P : JsonResponse -> Prop) : Prop :=
  exists rc j r,
    spawn env w argv = inr (mkCompleted rc (Document j)) /\
    to_response j = inr r /\ P r.

(** The first suggested action of a response can be followed: its command
    is a string with at least two words. *)
Definition followable (r : JsonResponse) : Prop :=
  exists a rest s tool sub more,
    next_actions r = a :: rest /\
    na_command a = JString s /\
    split s = tool :: sub :: more.

(** The loop, against a tool whose responses always suggest a next action
    and whose first [B] responses can be followed: [n] more iterations
    start [n] more sub-processes and end normally. *)
Lemma auto_loop_bounded env (B : nat) :
  (forall w' argv,
     answers env w' argv (fun r =>
       next_actions r <> [] /\
       ((List.length (calls w') < B)%nat -> followable r))) ->
  forall (n : nat) depth r w1,
    (List.length (calls w1) + n = B + 1)%nat ->
    next_actions r <> [] ->
    ((0 < n)%nat -> followable r) ->
    exists w2 cs,
      auto_loop env n (depth + Z.of_nat n) r depth w1 = (Return tt, w2) /\
      calls w2 = calls w1 ++ cs /\ List.length cs = n /\
      files w2 = files w1 /\ printed_err w2 = printed_err w1.
Proof.
  intros Henv; induction n as [| k IH]; intros depth r w1 Hlen Hne Hfollow.
  - exists w1, []; rewrite auto_loop_unfold.
    replace (depth <? depth + Z.of_nat 0) with false
      by (symmetry; apply Z.ltb_ge; lia).
    rewrite andb_false_r, app_nil_r; repeat split; reflexivity.
  - destruct (Hfollow (Nat.lt_0_succ k))
      as (a & rest & s & tool & sub & more & Hna & Hcmd & Hsplit).
    assert (Hdepth : depth < depth + Z.of_nat (S k)) by lia.
    rewrite (auto_loop_iteration _ _ _ _ _ _ _ _ _ _ _ _ Hna Hdepth Hcmd Hsplit).
    set (w1' := say w1 (step_lines r depth a)).
    set (args := filter (fun arg => negb (String.prefix "--" arg)) more).
    destruct (Henv w1' (argv_of sub args)) as (rc & j & r' & Hsp & Hr' & Hne' & Hf').
    rewrite (bind_Return _ _ _ _ _
               (run_intent_command_response _ _ _ _ _ _ _ Hsp Hr')).
    replace (depth + Z.of_nat (S k)) with ((depth + 1) + Z.of_nat k) by lia.
    destruct (IH (depth + 1) r' (logged w1' (argv_of sub args)))
      as (w2 & cs & Hrun & Hcalls & Hcs & Hfiles & Herr).
    + simpl; rewrite length_app; simpl; lia.
    + exact Hne'.
    + intros Hk; apply Hf'; simpl; lia.
    + exists w2, (argv_of sub args :: cs); repeat split.
      * exact Hrun.
      * rewrite Hcalls; simpl; rewrite <- app_assoc; reflexivity.
      * simpl; congruence.
      * rewrite Hfiles; reflexivity.
      * rewrite Herr; reflexivity.
Qed.

(** C4.  With [max_depth = 3], against a tool whose every response suggests
    a next action (the first three of them with a command that can be
    followed), the driver starts exactly four sub-processes, the
    [quality] one and three chained ones, and then returns: the suggestions
    of the fourth response are not looked into. *)
Theorem auto_workflow_depth_3 env w spec_path_ :
  (forall w' argv,
     answers env w' argv (fun r =>
       next_actions r <> [] /\
       ((List.length (calls w') < List.length (calls w) + 3)%nat -> followable r))) ->
  exists w' chained,
    auto_workflow env spec_path_ 3 w = (Return tt, w') /\
    calls w' = calls w ++ argv_of "quality" [spec_path_] :: chained /\
    List.length chained = 3%nat /\
    files w' = files w /\ printed_err w' = printed_err w.
Proof.
  intros Henv.
  unfold auto_workflow.
  rewrite bind_print.
  set (w0 := say w [[Lit ("Starting automated workflow..." ++ nl)]]).
  destruct (Henv w0 (argv_of "quality" [spec_path_]))
    as (rc & j & r & Hsp & Hr & Hne & Hf).
  rewrite (bind_Return _ _ _ _ _ (run_intent_command_response _ _ _ _ _ _ _ Hsp Hr)).
  destruct (auto_loop_bounded env (List.length (calls w) + 3) Henv
              3 0 r (logged w0 (argv_of "quality" [spec_path_])))
    as (w2 & cs & Hrun & Hcalls & Hcs & Hfiles & Herr).
  - simpl; rewrite length_app; simpl; lia.
  - exact Hne.
  - intros _; apply Hf; simpl; lia.
  - simpl in Hrun.
    rewrite (bind_Return _ _ _ _ _ Hrun).
    eexists; exists cs; split; [reflexivity |].
    simpl; rewrite Hcalls, Hfiles, Herr; simpl.
    rewrite <- app_assoc; repeat split; assumption.
Qed.

(** A response that suggests one more [quality] run, and one whose
    suggestion cannot be followed: its command is no string. *)
Definition looping_document : json :=
  sample_document (JBool true) (JObject [])
    [] [JObject [("command", JString "intent quality spec.cue --strict");
                 ("reason", JString "again")]] (JInt 0).

Definition dead_end_document : json :=
  sample_document (JBool true) (JObject [])
    [] [JObject [("command", JInt 5); ("reason", JNull)]] (JInt 0).

(** The tool that answers its first three invocations with
    [looping_document] and every later one with [dead_end_document]. *)
Definition looping_env : Env :=
  mkEnv (fun w _ =>
           if (List.length (calls w) <? 3)%nat
           then inr (mkCompleted 0 (Document looping_document))
           else inr (mkCompleted 0 (Document dead_end_document)))
        (fun _ _ => true).

Lemma looping_document_followable : followable (response_of looping_document).
Proof.
  exists (mkNextAction (JString "intent quality spec.cue --strict") (JString "again")),
    [], "intent quality spec.cue --strict", "intent", "quality",
    ["spec.cue"; "--strict"].
  repeat split; vm_compute; reflexivity.
Qed.

Lemma looping_env_answers w' argv :
  answers looping_env w' argv (fun r =>
    next_actions r <> [] /\
    ((List.length (calls w') < List.length (calls empty_world) + 3)%nat -> followable r)).
Proof.
  unfold answers; cbn [looping_env spawn].
  destruct (List.length (calls w') <? 3)%nat eqn:E.
  - exists 0, looping_document, (response_of looping_document).
    split; [reflexivity |].
    split; [vm_compute; reflexivity |].
    split; [vm_compute; discriminate |].
    intros _; exact looping_document_followable.
  - exists 0, dead_end_document, (response_of dead_end_document).
    split; [reflexivity |].
    split; [vm_compute; reflexivity |].
    split; [vm_compute; discriminate |].
    apply Nat.ltb_ge in E; intros H; exfalso.
    apply (Nat.lt_irrefl 3), (Nat.le_lt_trans _ _ _ E H).
Qed.

Lemma auto_workflow_depth_3_witness :
  exists w' chained,
    auto_workflow looping_env "spec.cue" 3 empty_world = (Return tt, w') /\
    calls w' = calls empty_world ++ argv_of "quality" ["spec.cue"] :: chained /\
    List.length chained = 3%nat /\
    files w' = files empty_world /\ printed_err w' = printed_err empty_world.
Proof.
  exact (auto_workflow_depth_3 looping_env empty_world "spec.cue" looping_env_answers).
Defined.

Example auto_workflow_four_calls :
  calls (snd (auto_workflow looping_env "spec.cue" 3 empty_world))
  = [["intent"; "quality"; "spec.cue"; "--json=true"];
     ["intent"; "quality"; "spec.cue"; "--json=true"];
     ["intent"; "quality"; "spec.cue"; "--json=true"];
     ["intent"; "quality"; "spec.cue"; "--json=true"]].
Proof. reflexivity. Qed.

(** The fuel [auto_workflow] gives its loop is enough: the loop body runs
    at most [max_depth - depth] more times, so the model never runs out of
    steps. *)
Lemma auto_loop_ends env fuel max_depth r depth w :
  (Z.to_nat (max_depth - depth) <= fuel)%nat ->
  fst (auto_loop env fuel max_depth r depth w) <> Diverge.
Proof.
  revert r depth w; induction fuel as [| fuel IH]; intros r depth w Hfuel;
    rewrite auto_loop_unfold;
    destruct (nonempty (next_actions r) && (depth <? max_depth)) eqn:C;
    try discriminate.
  - apply andb_true_iff in C as (_ & C); apply Z.ltb_lt in C; lia.
  - apply andb_true_iff in C as (_ & C); apply Z.ltb_lt in C.
    rewrite !bind_print.
    destruct (index (next_actions r) 0) as [e | a] eqn:Ea;
      [rewrite bind_lift_inl; discriminate | rewrite bind_lift_inr].
    rewrite !bind_print.
    destruct (split_of (na_command a)) as [e | parts] eqn:Ep;
      [rewrite bind_lift_inl; discriminate | rewrite bind_lift_inr].
    destruct (index parts 1) as [e | c] eqn:Ec;
      [rewrite bind_lift_inl; discriminate | rewrite bind_lift_inr].
    unfold bind at 1.
    destruct (run_intent_command env c (positional parts) _) as [o w'] eqn:Er.
    destruct o; try discriminate.
    + apply IH; lia.
    + exfalso; eapply run_intent_command_ends; rewrite Er; reflexivity.
Qed.

Theorem auto_workflow_ends env spec_path_ max_depth w :
  fst (auto_workflow env spec_path_ max_depth w) <> Diverge.
Proof.
  unfold auto_workflow.
  rewrite bind_print.
  unfold bind at 1.
  destruct (run_intent_command env "quality" [spec_path_] _) as [o w'] eqn:Er.
  destruct o; try discriminate.
  - unfold bind.
    destruct (auto_loop env (Z.to_nat max_depth) max_depth a 0 w') as [o w''] eqn:El.
    destruct o; try discriminate.
    exfalso; eapply (auto_loop_ends env (Z.to_nat max_depth) max_depth a 0 w').
    + replace (max_depth - 0) with max_depth by lia; apply Nat.le_refl.
    + rewrite El; reflexivity.
  - exfalso; eapply run_intent_command_ends; rewrite Er; reflexivity.
Qed.

(* ------------------------------------------------------------------ *)
(** ** The CI/CD check *)

(** A threshold test that sets the flag [failed] or leaves it. *)
Lemma bind_flag {B} (b failed : bool) (bad good : line) (k : bool -> M B) w :
  bind (if b then bind (print bad) (fun _ => ret true)
        else bind (print good) (fun _ => ret failed)) k w
  = k (if b then true else failed) (say w [if b then bad else good]).
Proof. destruct b; reflexivity. Qed.

Lemma bind_print_ret {A B} (l : line) (a : A) (k : A -> M B) w :
  bind (bind (print l) (fun _ => ret a)) k w = k a (say w [l]).
Proof. reflexivity. Qed.

Lemma bind_item {B} (v : json) (key : string) (x : json) (k : piece -> M B) w :
  getitem v key = inr x -> bind (item v key) k w = k (Val x) w.
Proof. unfold item; intros ->; reflexivity. Qed.

Lemma bind_fixed1 {B} (v : json) (k : piece -> M B) w :
  fixed1_check v = inr tt -> bind (fixed1 v) k w = k (Fixed1 v) w.
Proof. unfold fixed1; intros ->; reflexivity. Qed.

(** An entry of [security_gaps] that the report can print: it has a
    severity and, when that is critical, a description. *)
Definition gap_ok (gap : json) : Prop :=
  exists severity,
    getitem gap "severity" = inr severity /\
    (eq_str severity "critical" = true ->
     exists description, getitem gap "description" = inr description).

Lemma print_critical_gap_ok gap :
  gap_ok gap ->
  exists l, forall w, print_critical_gap gap w = (Return tt, say w l).
Proof.
  intros (sev & Hsev & Hdesc); unfold print_critical_gap.
  destruct (eq_str sev "critical") eqn:E.
  - destruct (Hdesc eq_refl) as (d & Hd).
    exists [[Lit "    • "; Val d]]; intros w.
    rewrite (bind_lift_ok _ _ _ sev Hsev), E.
    rewrite (bind_item _ _ _ _ _ Hd), print_say; reflexivity.
  - exists []; intros w.
    rewrite (bind_lift_ok _ _ _ sev Hsev), E, say_nil; reflexivity.
Qed.

Lemma print_critical_gaps gaps_list :
  Forall gap_ok gaps_list ->
  exists ls, forall w,
    for_each gaps_list print_critical_gap w = (Return tt, say w ls).
Proof.
  induction 1 as [| gap gaps_list Hgap _ (ls & IH)].
  - exists []; intros w; simpl; rewrite say_nil; reflexivity.
  - destruct (print_critical_gap_ok gap Hgap) as (l & Hl).
    exists (l ++ ls); intros w; simpl.
    rewrite (bind_Return _ _ _ _ _ (Hl w)), IH, say_say; reflexivity.
Qed.

Section CicdCheck.

Variable env : Env.
Variable spec_path_ : string.
Variables quality_threshold coverage_threshold : pynum.
Variable allow_critical_gaps : bool.

(** The four responses. *)
Variables quality coverage gaps check : JsonResponse.
Variables rc_quality rc_coverage rc_gaps rc_check : Z.
Variables j_quality j_coverage j_gaps j_check : json.

Hypothesis quality_run : forall w,
  spawn env w (argv_of "quality" [spec_path_])
  = inr (mkCompleted rc_quality (Document j_quality)).
Hypothesis quality_response : to_response j_quality = inr quality.
Hypothesis coverage_run : forall w,
  spawn env w (argv_of "coverage" [spec_path_])
  = inr (mkCompleted rc_coverage (Document j_coverage)).
Hypothesis coverage_response : to_response j_coverage = inr coverage.
Hypothesis gaps_run : forall w,
  spawn env w (argv_of "gaps" [spec_path_])
  = inr (mkCompleted rc_gaps (Document j_gaps)).
Hypothesis gaps_response : to_response j_gaps = inr gaps.
Hypothesis check_run : forall w,
  spawn env w (argv_of "check" [spec_path_])
  = inr (mkCompleted rc_check (Document j_check)).
Hypothesis check_response : to_response j_check = inr check.

(** The values the check reads, and what the four tests say. *)
Variables quality_score coverage_score breakdown critical_count : json.
Variables passed total failed_count : json.
Variables quality_low coverage_low some_critical tests_failed : bool.

Hypothesis quality_score_read :
  getitem (data quality) "overall_score" = inr quality_score.
Hypothesis quality_compared :
  lt quality_score quality_threshold = inr quality_low.
Hypothesis coverage_score_read :
  getitem (data coverage) "overall_score" = inr coverage_score.
Hypothesis coverage_shown : fixed1_check coverage_score = inr tt.
Hypothesis coverage_compared :
  lt coverage_score coverage_threshold = inr coverage_low.
Hypothesis breakdown_read :
  getitem (data gaps) "severity_breakdown" = inr breakdown.
Hypothesis critical_read : getitem breakdown "critical" = inr critical_count.
Hypothesis critical_compared : gt critical_count (NInt 0) = inr some_critical.
Hypothesis security_gaps_listed :
  some_critical && negb allow_critical_gaps = true ->
  exists security_gaps,
    rbind (getitem (data gaps) "security_gaps") iter = inr security_gaps /\
    Forall gap_ok security_gaps.
Hypothesis passed_read : getitem (data check) "passed" = inr passed.
Hypothesis total_read : getitem (data check) "total" = inr total.
Hypothesis failed_read : getitem (data check) "failed" = inr failed_count.
Hypothesis failed_compared : gt failed_count (NInt 0) = inr tests_failed.

(** With four responses of the expected shape the check starts the four
    sub-processes in order, whatever the tests say, and ends with
    [sys.exit(1)] exactly when one of the four tests fails. *)
Lemma cicd_check_runs_all w :
  exists w',
    cicd_check env spec_path_ quality_threshold coverage_threshold
      allow_critical_gaps w
    = (if quality_low || coverage_low
          || (some_critical && negb allow_critical_gaps) || tests_failed
       then Exit (JInt 1) else Return tt, w') /\
    calls w' = calls w ++ [argv_of "quality" [spec_path_];
                           argv_of "coverage" [spec_path_];
                           argv_of "gaps" [spec_path_];
                           argv_of "check" [spec_path_]] /\
    files w' = files w /\ printed_err w' = printed_err w.
Proof.
  unfold cicd_check.
  rewrite bind_print.
  rewrite (bind_Return _ _ _ _ _
             (run_intent_command_response _ _ _ _ _ _ _ (quality_run _) quality_response)).
  rewrite (bind_lift_ok _ _ _ _ quality_score_read), bind_print.
  rewrite (bind_lift_ok _ _ _ _ quality_compared), bind_flag.
  rewrite (bind_Return _ _ _ _ _
             (run_intent_command_response _ _ _ _ _ _ _ (coverage_run _) coverage_response)).
  rewrite (bind_lift_ok _ _ _ _ coverage_score_read).
  rewrite (bind_fixed1 _ _ _ coverage_shown), bind_print.
  rewrite (bind_lift_ok _ _ _ _ coverage_compared), bind_flag.
  rewrite (bind_Return _ _ _ _ _
             (run_intent_command_response _ _ _ _ _ _ _ (gaps_run _) gaps_response)).
  rewrite (bind_lift_ok _ _ _ critical_count)
    by (rewrite breakdown_read; exact critical_read).
  rewrite bind_print.
  rewrite (bind_lift_ok _ _ _ _ critical_compared).
  destruct (some_critical && negb allow_critical_gaps) eqn:G.
  - destruct (security_gaps_listed eq_refl) as (sg & Hsg & Hok).
    destruct (print_critical_gaps sg Hok) as (ls & Hls).
    erewrite bind_Return.
    2:{ rewrite bind_print, (bind_lift_ok _ _ _ _ Hsg).
        rewrite (bind_Return _ _ _ _ _ (Hls _)); reflexivity. }
    rewrite (bind_Return _ _ _ _ _
               (run_intent_command_response _ _ _ _ _ _ _ (check_run _) check_response)).
    rewrite (bind_item _ _ _ _ _ passed_read), (bind_item _ _ _ _ _ total_read).
    rewrite bind_print.
    rewrite (bind_lift_ok _ _ _ tests_failed)
      by (rewrite failed_read; exact failed_compared).
    rewrite !orb_true_r; simpl orb.
    destruct tests_failed.
    + erewrite bind_Return.
      2:{ rewrite (bind_item _ _ _ _ _ failed_read), bind_print; reflexivity. }
      eexists; split; [reflexivity |].
      simpl; rewrite <- !app_assoc; repeat split; reflexivity.
    + rewrite bind_print_ret.
      eexists; split; [reflexivity |].
      simpl; rewrite <- !app_assoc; repeat split; reflexivity.
  - rewrite bind_print_ret.
    rewrite (bind_Return _ _ _ _ _
               (run_intent_command_response _ _ _ _ _ _ _ (check_run _) check_response)).
    rewrite (bind_item _ _ _ _ _ passed_read), (bind_item _ _ _ _ _ total_read).
    rewrite bind_print.
    rewrite (bind_lift_ok _ _ _ tests_failed)
      by (rewrite failed_read; exact failed_compared).
    destruct tests_failed.
    + erewrite bind_Return.
      2:{ rewrite (bind_item _ _ _ _ _ failed_read), bind_print; reflexivity. }
      rewrite !orb_true_r.
      eexists; split; [reflexivity |].
      simpl; rewrite <- !app_assoc; repeat split; reflexivity.
    + rewrite bind_print_ret.
      rewrite !orb_false_r.
      destruct quality_low, coverage_low; simpl orb; cbv iota;
        (eexists; split; [reflexivity |]);
        simpl; rewrite <- !app_assoc; repeat split; reflexivity.
Qed.

End CicdCheck.

(** The binary64 values [60.0] and [70.0]. *)
Definition float_60 : spec_float := S754_finite false 8444249301319680 (-47).
Definition float_70 : spec_float := S754_finite false 4925812092436480 (-46).

Example float_60_value : num_eqb (NFloat float_60) (NInt 60) = true.
Proof. reflexivity. Qed.

Example float_70_value : num_eqb (NFloat float_70) (NInt 70) = true.
Proof. reflexivity. Qed.

Example int_below_float : num_ltb (NInt 69) (NFloat float_70) = true.
Proof. reflexivity. Qed.

(** C3.  Given four responses of the expected shape, the CI/CD check
    starts the four sub-processes [quality], [coverage], [gaps] and
    [check], in this order, whatever the outcome of each test, and ends
    with [sys.exit(1)] exactly when one test fails; with the thresholds 80
    and 70.0, the scores 90 and 60.0, no critical gap and no failed test it
    ends with [sys.exit(1)]. *)
Theorem cicd_check_no_short_circuit env spec_path_
    quality_threshold coverage_threshold allow_critical_gaps
    quality coverage gaps check rc_quality rc_coverage rc_gaps rc_check
    j_quality j_coverage j_gaps j_check
    quality_score coverage_score breakdown critical_count passed total failed_count
    quality_low coverage_low some_critical tests_failed w :
  (forall w', spawn env w' (argv_of "quality" [spec_path_])
              = inr (mkCompleted rc_quality (Document j_quality))) ->
  to_response j_quality = inr quality ->
  (forall w', spawn env w' (argv_of "coverage" [spec_path_])
              = inr (mkCompleted rc_coverage (Document j_coverage))) ->
  to_response j_coverage = inr coverage ->
  (forall w', spawn env w' (argv_of "gaps" [spec_path_])
              = inr (mkCompleted rc_gaps (Document j_gaps))) ->
  to_response j_gaps = inr gaps ->
  (forall w', spawn env w' (argv_of "check" [spec_path_])
              = inr (mkCompleted rc_check (Document j_check))) ->
  to_response j_check = inr check ->
  getitem (data quality) "overall_score" = inr quality_score ->
  lt quality_score quality_threshold = inr quality_low ->
  getitem (data coverage) "overall_score" = inr coverage_score ->
  fixed1_check coverage_score = inr tt ->
  lt coverage_score coverage_threshold = inr coverage_low ->
  getitem (data gaps) "severity_breakdown" = inr breakdown ->
  getitem breakdown "critical" = inr critical_count ->
  gt critical_count (NInt 0) = inr some_critical ->
  (some_critical && negb allow_critical_gaps = true ->
   exists security_gaps,
     rbind (getitem (data gaps) "security_gaps") iter = inr security_gaps /\
     Forall gap_ok security_gaps) ->
  getitem (data check) "passed" = inr passed ->
  getitem (data check) "total" = inr total ->
  getitem (data check) "failed" = inr failed_count ->
  gt failed_count (NInt 0) = inr tests_failed ->
  exists w',
    cicd_check env spec_path_ quality_threshold coverage_threshold
      allow_critical_gaps w
    = (if quality_low || coverage_low
          || (some_critical && negb allow_critical_gaps) || tests_failed
       then Exit (JInt 1) else Return tt, w') /\
    calls w' = calls w ++ [argv_of "quality" [spec_path_];
                           argv_of "coverage" [spec_path_];
                           argv_of "gaps" [spec_path_];
                           argv_of "check" [spec_path_]] /\
    (quality_threshold = NInt 80 -> coverage_threshold = NFloat float_70 ->
     quality_score = JInt 90 -> coverage_score = JFloat float_60 ->
     critical_count = JInt 0 -> failed_count = JInt 0 ->
     cicd_check env spec_path_ quality_threshold coverage_threshold
       allow_critical_gaps w = (Exit (JInt 1), w')).
Proof.
  intros Hq Hrq Hc Hrc Hg Hrg Hk Hrk Hqs Hql Hcs Hcf Hcl Hbd Hcc Hsc Hsg Hp Ht Hf Htf.
  destruct (cicd_check_runs_all env spec_path_ quality_threshold coverage_threshold
              allow_critical_gaps quality coverage gaps check
              rc_quality rc_coverage rc_gaps rc_check
              j_quality j_coverage j_gaps j_check
              Hq Hrq Hc Hrc Hg Hrg Hk Hrk
              quality_score coverage_score breakdown critical_count
              passed total failed_count
              quality_low coverage_low some_critical tests_failed
              Hqs Hql Hcs Hcf Hcl Hbd Hcc Hsc Hsg Hp Ht Hf Htf w)
    as (w' & Hrun & Hcalls & _ & _).
  exists w'; repeat split; try assumption.
  intros -> -> -> -> -> ->.
  rewrite Hrun.
  inversion Hcl; subst coverage_low.
  rewrite orb_true_r; reflexivity.
Qed.

Definition quality_90 : json :=
  sample_document (JBool true) (JObject [("overall_score", JInt 90)]) [] [] (JInt 0).

Definition coverage_60 : json :=
  sample_document (JBool true) (JObject [("overall_score", JFloat float_60)])
    [] [] (JInt 0).

Definition no_critical_gaps : json :=
  sample_document (JBool true)
    (JObject [("severity_breakdown", JObject [("critical", JInt 0)]);
              ("security_gaps", JArray [])])
    [] [] (JInt 0).

Definition all_tests_pass : json :=
  sample_document (JBool true)
    (JObject [("total", JInt 12); ("passed", JInt 12); ("failed", JInt 0)])
    [] [] (JInt 0).

(** The tool that answers each sub-command with its own document. *)
Definition scripted_env (quality_ coverage_ gaps_ check_ : json) : Env :=
  mkEnv (fun _ argv =>
           match argv with
           | _ :: sub :: _ =>
               if String.eqb sub "quality" then inr (mkCompleted 0 (Document quality_))
               else if String.eqb sub "coverage" then inr (mkCompleted 0 (Document coverage_))
               else if String.eqb sub "gaps" then inr (mkCompleted 0 (Document gaps_))
               else if String.eqb sub "check" then inr (mkCompleted 0 (Document check_))
               else inl OSError
           | _ => inl OSError
           end)
        (fun _ _ => true).

Lemma cicd_check_no_short_circuit_witness :
  let env := scripted_env quality_90 coverage_60 no_critical_gaps all_tests_pass in
  exists w',
    cicd_check env "spec.cue" (NInt 80) (NFloat float_70) false empty_world
    = (Exit (JInt 1), w') /\
    calls w' = [argv_of "quality" ["spec.cue"]; argv_of "coverage" ["spec.cue"];
                argv_of "gaps" ["spec.cue"]; argv_of "check" ["spec.cue"]].
Proof.
  destruct (cicd_check_no_short_circuit
              (scripted_env quality_90 coverage_60 no_critical_gaps all_tests_pass)
              "spec.cue" (NInt 80) (NFloat float_70) false
              (response_of quality_90) (response_of coverage_60)
              (response_of no_critical_gaps) (response_of all_tests_pass)
              0 0 0 0 quality_90 coverage_60 no_critical_gaps all_tests_pass
              (JInt 90) (JFloat float_60) (JObject [("critical", JInt 0)]) (JInt 0)
              (JInt 12) (JInt 12) (JInt 0)
              false true false false empty_world
              (fun _ => eq_refl) eq_refl (fun _ => eq_refl) eq_refl
              (fun _ => eq_refl) eq_refl (fun _ => eq_refl) eq_refl
              eq_refl eq_refl eq_refl eq_refl eq_refl eq_refl eq_refl eq_refl
              (fun H => False_ind _ (diff_false_true H))
              eq_refl eq_refl eq_refl eq_refl)
    as (w' & _ & Hcalls & Hexit).
  exists w'; split.
  - exact (Hexit eq_refl eq_refl eq_refl eq_refl eq_refl eq_refl).
  - exact Hcalls.
Defined.

(** A quality score below the threshold does not stop the check: the
    three other sub-processes are started all the same. *)
Example cicd_check_after_failed_quality :
  let quality_50 :=
    sample_document (JBool true) (JObject [("overall_score", JInt 50)]) [] [] (JInt 0) in
  let result :=
    cicd_check (scripted_env quality_50 coverage_60 no_critical_gaps all_tests_pass)
      "spec.cue" (NInt 80) (NFloat float_70) false empty_world in
  fst result = Exit (JInt 1) /\
  calls (snd result)
  = [["intent"; "quality"; "spec.cue"; "--json=true"];
     ["intent"; "coverage"; "spec.cue"; "--json=true"];
     ["intent"; "gaps"; "spec.cue"; "--json=true"];
     ["intent"; "check"; "spec.cue"; "--json=true"]].
Proof. split; reflexivity. Qed.

(* ------------------------------------------------------------------ *)
(** ** Test execution with feedback *)

Lemma gt_int (n m : Z) : gt (JInt n) (NInt m) = inr (m <? n).
Proof.
  unfold gt, num_ltb; simpl.
  rewrite !Z.mul_1_r; reflexivity.
Qed.

Lemma lt_int (n m : Z) : lt (JInt n) (NInt m) = inr (n <? m).
Proof.
  unfold lt, num_ltb; simpl.
  rewrite !Z.mul_1_r; reflexivity.
Qed.

(** The fragment that [f"{v[k]}"] contributes when the key is there. *)
Definition field (v : json) (k : string) : piece :=
  match getitem v k with
  | inr x => Val x
  | inl _ => Val JNull
  end.

Lemma bind_field {B} (v : json) (key : string) (k : piece -> M B) w :
  (exists x, getitem v key = inr x) ->
  bind (item v key) k w = k (field v key) w.
Proof.
  intros (x & Hx); unfold field; rewrite Hx; apply bind_item, Hx.
Qed.

Definition bead_keys : list string :=
  ["behavior_name"; "priority"; "feature"; "failure_type"; "description";
   "fix_suggestion"].

(** A fix bead with the six keys the report reads. *)
Definition bead_ok (bead : json) : Prop :=
  forall k, In k bead_keys -> exists x, getitem bead k = inr x.

(** The block of five lines printed for the [i]-th fix bead. *)
Definition bead_lines (ib : Z * json) : list line :=
  let (i, bead) := ib in
  [[Lit nl; Val (JInt i); Lit ". "; field bead "behavior_name";
    Lit " (Priority: "; field bead "priority"; Lit ")"];
   [Lit "   Feature: "; field bead "feature"];
   [Lit "   Type: "; field bead "failure_type"];
   [Lit "   Issue: "; field bead "description"];
   [Lit "   Fix: "; field bead "fix_suggestion"]].

Lemma print_bead_say (i : Z) (bead : json) w :
  bead_ok bead ->
  print_bead (i, bead) w = (Return tt, say w (bead_lines (i, bead))).
Proof.
  intros Hok; unfold print_bead, bead_lines.
  rewrite !bind_field by (apply Hok; simpl; tauto).
  rewrite bind_print.
  rewrite !bind_field by (apply Hok; simpl; tauto).
  rewrite bind_print.
  rewrite !bind_field by (apply Hok; simpl; tauto).
  rewrite bind_print.
  rewrite !bind_field by (apply Hok; simpl; tauto).
  rewrite bind_print.
  rewrite !bind_field by (apply Hok; simpl; tauto).
  rewrite print_say, !say_say; reflexivity.
Qed.

Lemma print_beads (beads : list json) :
  Forall bead_ok beads ->
  forall start w,
    for_each (enumerate beads start) print_bead w
    = (Return tt, say w (flat_map bead_lines (enumerate beads start))).
Proof.
  induction 1 as [| bead beads Hok _ IH]; intros start w.
  - simpl; rewrite say_nil; reflexivity.
  - cbn [enumerate for_each flat_map].
    rewrite (bind_Return _ _ _ _ _ (print_bead_say start bead w Hok)).
    rewrite IH, say_say; reflexivity.
Qed.

Lemma enumerate_length {A} (l : list A) (start : Z) :
  List.length (enumerate l start) = List.length l.
Proof. revert start; induction l; intros start; simpl; congruence. Qed.

(** One block of five lines for every fix bead. *)
Lemma bead_blocks_length (beads : list json) (start : Z) :
  List.length (flat_map bead_lines (enumerate beads start))
  = (5 * List.length beads)%nat.
Proof.
  revert start; induction beads as [| b beads IH]; intros start; [reflexivity |].
  cbn [enumerate flat_map]; rewrite length_app, IH; simpl; lia.
Qed.

Definition results_lines (total passed failed skipped duration : json) : list line :=
  [[Lit "Test Results:"];
   [Lit "  Total:    "; Val total];
   [Lit "  Passed:   "; Val passed];
   [Lit "  Failed:   "; Val failed];
   [Lit "  Skipped:  "; Val skipped];
   [Lit "  Duration: "; Val duration; Lit "ms"]].

Definition feedback_argv : list string :=
  ["intent"; "feedback"; "--results"; "check-results.json"; "--json=true"].

Section TestWithFeedback.

Variable env : Env.
Variable spec_path_ : string.
Variable rc_check : Z.
Variable j_check : json.
Variable check_response : JsonResponse.
Variables total passed failed skipped duration : json.

Hypothesis check_run : forall w,
  spawn env w (argv_of "check" [spec_path_])
  = inr (mkCompleted rc_check (Document j_check)).
Hypothesis check_converts : to_response j_check = inr check_response.
Hypothesis total_read : getitem (data check_response) "total" = inr total.
Hypothesis passed_read : getitem (data check_response) "passed" = inr passed.
Hypothesis failed_read : getitem (data check_response) "failed" = inr failed.
Hypothesis skipped_read : getitem (data check_response) "skipped" = inr skipped.
Hypothesis duration_read :
  getitem (data check_response) "duration_ms" = inr duration.

Lemma test_with_feedback_all_passed w :
  gt failed (NInt 0) = inr false ->
  test_with_feedback env spec_path_ w
  = (Return tt,
     mkWorld (calls w ++ [argv_of "check" [spec_path_]])
       (files w)
       (printed w
        ++ [[Lit ("Running tests..." ++ nl)]]
        ++ results_lines total passed failed skipped duration
        ++ [[Lit (nl ++ "✅ All tests passed!")]])
       (printed_err w)).
Proof.
  intros Hgt; unfold test_with_feedback.
  rewrite bind_print.
  rewrite (bind_Return _ _ _ _ _
             (run_intent_command_response _ _ _ _ _ _ _ (check_run _) check_converts)).
  rewrite bind_print.
  rewrite (bind_item _ _ _ _ _ total_read), bind_print.
  rewrite (bind_item _ _ _ _ _ passed_read), bind_print.
  rewrite (bind_item _ _ _ _ _ failed_read), bind_print.
  rewrite (bind_item _ _ _ _ _ skipped_read), bind_print.
  rewrite (bind_item _ _ _ _ _ duration_read), bind_print.
  rewrite (bind_lift_ok _ _ _ false) by (rewrite failed_read; exact Hgt).
  rewrite (bind_Return _ _ _ tt _ eq_refl).
  rewrite print_say; normalize_world.
  unfold say, logged, results_lines; cbn [calls files printed printed_err app].
  reflexivity.
Qed.

Variable rc_feedback : Z.
Variable j_feedback : json.
Variable feedback : JsonResponse.
Variable fix_beads : json.
Variable beads : list json.

Hypothesis file_writable : forall w, writable env w results_file = true.
Hypothesis feedback_run : forall w,
  spawn env w feedback_argv = inr (mkCompleted rc_feedback (Document j_feedback)).
Hypothesis feedback_converts : to_response j_feedback = inr feedback.
Hypothesis fix_beads_read : getitem (data feedback) "fix_beads" = inr fix_beads.
Hypothesis fix_beads_listed : iter fix_beads = inr beads.
Hypothesis beads_ok : Forall bead_ok beads.

Lemma test_with_feedback_some_failed w :
  gt failed (NInt 0) = inr true ->
  test_with_feedback env spec_path_ w
  = (Exit (JInt 1),
     mkWorld (calls w ++ [argv_of "check" [spec_path_]; feedback_argv])
       (files w ++ [("check-results.json", data check_response)])
       (printed w
        ++ [[Lit ("Running tests..." ++ nl)]]
        ++ results_lines total passed failed skipped duration
        ++ [[Lit (nl ++ "❌ Tests failed. Generating fix beads..." ++ nl)];
            [Lit "Fix Beads Generated:"]]
        ++ flat_map bead_lines (enumerate beads 1))
       (printed_err w)).
Proof.
  intros Hgt; unfold test_with_feedback.
  rewrite bind_print.
  rewrite (bind_Return _ _ _ _ _
             (run_intent_command_response _ _ _ _ _ _ _ (check_run _) check_converts)).
  rewrite bind_print.
  rewrite (bind_item _ _ _ _ _ total_read), bind_print.
  rewrite (bind_item _ _ _ _ _ passed_read), bind_print.
  rewrite (bind_item _ _ _ _ _ failed_read), bind_print.
  rewrite (bind_item _ _ _ _ _ skipped_read), bind_print.
  rewrite (bind_item _ _ _ _ _ duration_read), bind_print.
  rewrite (bind_lift_ok _ _ _ true) by (rewrite failed_read; exact Hgt).
  erewrite bind_Exit; [reflexivity |].
  rewrite bind_print.
  rewrite (bind_Return _ _ _ _ _ (write_json_ok _ _ _ _ (file_writable _))).
  erewrite (bind_Return (run_intent_command env "feedback" _)).
  2:{ apply (run_intent_command_response _ _ _ _ rc_feedback j_feedback feedback);
        [apply feedback_run | exact feedback_converts]. }
  rewrite bind_print.
  rewrite (bind_lift_ok _ _ _ beads)
    by (rewrite fix_beads_read; exact fix_beads_listed).
  rewrite (bind_Return _ _ _ _ _ (print_beads beads beads_ok 1 _)).
  unfold sys_exit; normalize_world.
  unfold say, logged, wrote, results_lines, feedback_argv, results_file;
    cbn [calls files printed printed_err app].
  rewrite <- !app_assoc; reflexivity.
Qed.

End TestWithFeedback.

(** C6.  On a [check] response with [data.failed] 0, test-with-feedback
    writes no file, starts no sub-process but [check] and returns; with
    [data.failed] above 0 it writes [data] to [check-results.json], starts
    [feedback] with the arguments [--results check-results.json], prints
    one block of five lines for every entry of the [fix_beads] of the
    feedback response and ends the process with [sys.exit(1)]. *)
Theorem test_with_feedback_persists env spec_path_ rc_check j_check check_response
    total passed skipped duration (n : Z) w :
  (forall w', spawn env w' (argv_of "check" [spec_path_])
              = inr (mkCompleted rc_check (Document j_check))) ->
  to_response j_check = inr check_response ->
  getitem (data check_response) "total" = inr total ->
  getitem (data check_response) "passed" = inr passed ->
  getitem (data check_response) "failed" = inr (JInt n) ->
  getitem (data check_response) "skipped" = inr skipped ->
  getitem (data check_response) "duration_ms" = inr duration ->
  (n = 0 ->
   test_with_feedback env spec_path_ w
   = (Return tt,
      mkWorld (calls w ++ [argv_of "check" [spec_path_]])
        (files w)
        (printed w
         ++ [[Lit ("Running tests..." ++ nl)]]
         ++ results_lines total passed (JInt n) skipped duration
         ++ [[Lit (nl ++ "✅ All tests passed!")]])
        (printed_err w))) /\
  (0 < n ->
   forall rc_feedback j_feedback feedback fix_beads beads,
     (forall w', writable env w' "check-results.json" = true) ->
     (forall w', spawn env w'
                   ["intent"; "feedback"; "--results"; "check-results.json";
                    "--json=true"]
                 = inr (mkCompleted rc_feedback (Document j_feedback))) ->
     to_response j_feedback = inr feedback ->
     getitem (data feedback) "fix_beads" = inr fix_beads ->
     iter fix_beads = inr beads ->
     Forall bead_ok beads ->
     test_with_feedback env spec_path_ w
     = (Exit (JInt 1),
        mkWorld
          (calls w ++ [argv_of "check" [spec_path_];
                       ["intent"; "feedback"; "--results"; "check-results.json";
                        "--json=true"]])
          (files w ++ [("check-results.json", data check_response)])
          (printed w
           ++ [[Lit ("Running tests..." ++ nl)]]
           ++ results_lines total passed (JInt n) skipped duration
           ++ [[Lit (nl ++ "❌ Tests failed. Generating fix beads..." ++ nl)];
               [Lit "Fix Beads Generated:"]]
           ++ flat_map bead_lines (enumerate beads 1))
          (printed_err w)) /\
     List.length (flat_map bead_lines (enumerate beads 1))
     = (5 * List.length beads)%nat).
Proof.
  intros Hrun Hconv Ht Hp Hf Hs Hd; split.
  - intros ->.
    eapply test_with_feedback_all_passed; eauto.
  - intros Hn rc_feedback j_feedback feedback fix_beads beads Hw Hfr Hfc Hfb Hit Hok.
    split; [| apply bead_blocks_length].
    eapply test_with_feedback_some_failed; eauto.
    rewrite gt_int; apply Z.ltb_lt in Hn; rewrite Hn; reflexivity.
Qed.

Definition check_document (failed_ : Z) : json :=
  sample_document (JBool (failed_ =? 0))
    (JObject [("total", JInt 10); ("passed", JInt (10 - failed_));
              ("failed", JInt failed_); ("skipped", JInt 0);
              ("duration_ms", JInt 1500)])
    [] [] (JInt (if failed_ =? 0 then 0 else 1)).

Definition sample_bead (name : string) : json :=
  JObject [("behavior_name", JString name); ("priority", JInt 1);
           ("feature", JString "users"); ("failure_type", JString "status");
           ("description", JString "expected 404, got 500");
           ("fix_suggestion", JString "handle the missing user")].

Definition feedback_document : json :=
  sample_document (JBool true)
    (JObject [("fix_beads", JArray [sample_bead "get-user"; sample_bead "delete-user"])])
    [] [] (JInt 0).

(** The tool that answers [check] and [feedback]. *)
Definition feedback_env (check_ feedback_ : json) : Env :=
  mkEnv (fun _ argv =>
           match argv with
           | _ :: sub :: _ =>
               if String.eqb sub "check" then inr (mkCompleted 1 (Document check_))
               else if String.eqb sub "feedback"
                    then inr (mkCompleted 0 (Document feedback_))
                    else inl OSError
           | _ => inl OSError
           end)
        (fun _ _ => true).

Lemma sample_bead_ok name : bead_ok (sample_bead name).
Proof.
  intros k Hk; simpl in Hk.
  repeat (destruct Hk as [<- | Hk]; [eexists; reflexivity |]); contradiction.
Qed.

Lemma test_with_feedback_persists_witness :
  (let env := feedback_env (check_document 0) feedback_document in
   test_with_feedback env "spec.cue" empty_world
   = (Return tt,
      mkWorld [["intent"; "check"; "spec.cue"; "--json=true"]] []
        ([[Lit ("Running tests..." ++ nl)]]
         ++ results_lines (JInt 10) (JInt 10) (JInt 0) (JInt 0) (JInt 1500)
         ++ [[Lit (nl ++ "✅ All tests passed!")]])
        [])) /\
  (let env := feedback_env (check_document 2) feedback_document in
   test_with_feedback env "spec.cue" empty_world
   = (Exit (JInt 1),
      mkWorld
        [["intent"; "check"; "spec.cue"; "--json=true"];
         ["intent"; "feedback"; "--results"; "check-results.json"; "--json=true"]]
        [("check-results.json", data (response_of (check_document 2)))]
        ([[Lit ("Running tests..." ++ nl)]]
         ++ results_lines (JInt 10) (JInt 8) (JInt 2) (JInt 0) (JInt 1500)
         ++ [[Lit (nl ++ "❌ Tests failed. Generating fix beads..." ++ nl)];
             [Lit "Fix Beads Generated:"]]
         ++ bead_lines (1, sample_bead "get-user")
         ++ bead_lines (2, sample_bead "delete-user"))
        [])).
Proof.
  split.
  - exact (proj1 (test_with_feedback_persists
                    (feedback_env (check_document 0) feedback_document)
                    "spec.cue" 1 (check_document 0) (response_of (check_document 0))
                    (JInt 10) (JInt 10) (JInt 0) (JInt 1500) 0 empty_world
                    (fun _ => eq_refl) eq_refl eq_refl eq_refl eq_refl eq_refl eq_refl)
             eq_refl).
  - exact (proj1 (proj2 (test_with_feedback_persists
                    (feedback_env (check_document 2) feedback_document)
                    "spec.cue" 1 (check_document 2) (response_of (check_document 2))
                    (JInt 10) (JInt 8) (JInt 0) (JInt 1500) 2 empty_world
                    (fun _ => eq_refl) eq_refl eq_refl eq_refl eq_refl eq_refl eq_refl)
             eq_refl 0 feedback_document (response_of feedback_document)
             (JArray [sample_bead "get-user"; sample_bead "delete-user"])
             [sample_bead "get-user"; sample_bead "delete-user"]
             (fun _ => eq_refl) (fun _ => eq_refl) eq_refl eq_refl eq_refl
             (Forall_cons _ (sample_bead_ok "get-user")
                (Forall_cons _ (sample_bead_ok "delete-user") (Forall_nil _))))).
Defined.

(* ------------------------------------------------------------------ *)
(** * What the functions never do *)

(** ** Statements that only print

    [quiet E m]: whatever the world, [m] starts no sub-process, writes no
    file and nothing to the error stream; it ends by returning, by an
    exception or by [sys.exit(c)] with [E c]. *)
Definition quiet {A} (E : json -> Prop) (m : M A) : Prop :=
  forall w, exists ls,
    snd (m w) = say w ls /\
    match fst (m w) with
    | Return _ | Raise _ => True
    | Exit c => E c
    | Diverge => False
    end.

Lemma quiet_ret {A} E (a : A) : quiet E (ret a).
Proof. intros w; exists []; rewrite say_nil; simpl; auto. Qed.

Lemma quiet_raise {A} E (e : exn) : quiet E (@raise A e).
Proof. intros w; exists []; rewrite say_nil; simpl; auto. Qed.

Lemma quiet_sys_exit {A} (E : json -> Prop) (c : json) : E c -> quiet E (@sys_exit A c).
Proof. intros H w; exists []; rewrite say_nil; simpl; auto. Qed.

Lemma quiet_lift {A} E (r : res A) : quiet E (lift r).
Proof. destruct r; [apply quiet_raise | apply quiet_ret]. Qed.

Lemma quiet_print E (l : line) : quiet E (print l).
Proof. intros w; exists [l]; simpl; auto. Qed.

Lemma quiet_item E (v : json) (k : string) : quiet E (item v k).
Proof. apply quiet_lift. Qed.

Lemma quiet_fixed1 E (v : json) : quiet E (fixed1 v).
Proof. apply quiet_lift. Qed.

Lemma quiet_bind {A B} E (m : M A) (k : A -> M B) :
  quiet E m -> (forall a, quiet E (k a)) -> quiet E (bind m k).
Proof.
  intros Hm Hk w; unfold bind.
  destruct (Hm w) as (ls & Hw & Ho).
  destruct (m w) as [o w1]; simpl in *; subst w1.
  destruct o as [a | e | c | ]; simpl; try (exists ls; auto; fail).
  destruct (Hk a (say w ls)) as (ls' & Hw' & Ho').
  exists (ls ++ ls'); rewrite Hw', say_say; auto.
Qed.

Lemma quiet_for_each {A} E (body : A -> M unit) (items : list A) :
  (forall x, quiet E (body x)) -> quiet E (for_each items body).
Proof.
  intros Hbody; induction items as [| x items IH]; simpl.
  - apply quiet_ret.
  - apply quiet_bind; auto.
Qed.

Lemma quiet_when E (c : bool) (body : M unit) : quiet E body -> quiet E (when c body).
Proof. destruct c; simpl; [auto | intros _; apply quiet_ret]. Qed.

(** Proves [quiet E m] for a statement built from the constructs above. *)
Ltac quiet_step :=
  first
    [ apply quiet_print | apply quiet_lift | apply quiet_item | apply quiet_fixed1
    | apply quiet_ret | apply quiet_raise
    | apply quiet_sys_exit; reflexivity
    | apply quiet_when
    | apply quiet_for_each; intros ?
    | apply quiet_bind; [| intros ?]
    | match goal with
      | |- quiet _ (if ?b then _ else _) => destruct b
      | |- quiet _ (let (_, _) := ?x in _) => destruct x
      end
    | progress unfold print_bead, print_critical_gap, print_error ].

Ltac quiet_tac := repeat quiet_step.

(** ** Running a statement step by step *)

(** The outcome of [run_intent_command] is a response or an exception, in
    the world with one more invocation. *)
Lemma run_cases {B} env command_ args (k : JsonResponse -> M B) w
      (P : outcome B * World -> Prop) :
  (forall e, P (Raise e, logged w (argv_of command_ args))) ->
  (forall r, P (k r (logged w (argv_of command_ args)))) ->
  P (bind (run_intent_command env command_ args) k w).
Proof.
  intros Hraise Hreturn.
  destruct (spawn env w (argv_of command_ args)) as [e | [rc out]] eqn:E.
  - rewrite (bind_Raise _ _ _ _ _ (run_intent_command_not_started _ _ _ _ _ E)).
    apply Hraise.
  - pose proof (run_intent_command_completed _ _ _ _ _ _ E) as Hrun.
    destruct (rbind (json_loads out) to_response) as [e | r]; simpl in Hrun.
    + rewrite (bind_Raise _ _ _ _ _ Hrun); apply Hraise.
    + rewrite (bind_Return _ _ _ _ _ Hrun); apply Hreturn.
Qed.

(** What the tool answers when it is started in [w] with [argv]: the
    response that [run_intent_command] returns, or the exception it
    raises. *)
Definition answer (env : Env) (w : World) (argv : list string) : res JsonResponse :=
  match spawn env w argv with
  | inl e => inl e
  | inr result => rbind (json_loads (stdout result)) to_response
  end.

Lemma run_intent_command_answer env command_ args w :
  run_intent_command env command_ args w
  = (outcome_of (answer env w (argv_of command_ args)),
     logged w (argv_of command_ args)).
Proof.
  unfold answer.
  destruct (spawn env w (argv_of command_ args)) as [e | [rc out]] eqn:E.
  - apply (run_intent_command_not_started _ _ _ _ _ E).
  - apply (run_intent_command_completed _ _ _ _ _ _ E).
Qed.

Lemma run_cases_answer {B} env command_ args (k : JsonResponse -> M B) w
      (P : outcome B * World -> Prop) :
  (forall e, answer env w (argv_of command_ args) = inl e ->
             P (Raise e, logged w (argv_of command_ args))) ->
  (forall r, answer env w (argv_of command_ args) = inr r ->
             P (k r (logged w (argv_of command_ args)))) ->
  P (bind (run_intent_command env command_ args) k w).
Proof.
  intros Hraise Hreturn.
  pose proof (run_intent_command_answer env command_ args w) as Hrun.
  destruct (answer env w (argv_of command_ args)) as [e | r]; simpl in Hrun.
  - rewrite (bind_Raise _ _ _ _ _ Hrun); apply Hraise; reflexivity.
  - rewrite (bind_Return _ _ _ _ _ Hrun); apply Hreturn; reflexivity.
Qed.

Lemma quiet_cases {A B} E (m : M A) (k : A -> M B) w
      (P : outcome B * World -> Prop) :
  quiet E m ->
  (forall ls e, P (Raise e, say w ls)) ->
  (forall ls c, E c -> P (Exit c, say w ls)) ->
  (forall ls a, P (k a (say w ls))) ->
  P (bind m k w).
Proof.
  intros Hm Hraise Hexit Hreturn; unfold bind.
  destruct (Hm w) as (ls & Hw & Ho).
  destruct (m w) as [o w1]; simpl in *; subst w1.
  destruct o as [a | e | c | ]; [apply Hreturn | apply Hraise | apply Hexit, Ho | contradiction].
Qed.

Lemma quiet_end {A} E (m : M A) w (P : outcome A * World -> Prop) :
  quiet E m ->
  (forall ls a, P (Return a, say w ls)) ->
  (forall ls e, P (Raise e, say w ls)) ->
  (forall ls c, E c -> P (Exit c, say w ls)) ->
  P (m w).
Proof.
  intros Hm Hreturn Hraise Hexit.
  destruct (Hm w) as (ls & Hw & Ho).
  destruct (m w) as [o w1]; simpl in *; subst w1.
  destruct o as [a | e | c | ]; [apply Hreturn | apply Hraise | apply Hexit, Ho | contradiction].
Qed.

(** X1.  [run_intent_command] starts exactly one sub-process, with the
    command line [intent <command> <args> --json=true], and has no other
    effect: no file, no output; it ends with a response or an exception,
    never with [sys.exit]. *)
Theorem run_intent_command_effect env command_ args w :
  snd (run_intent_command env command_ args w)
  = mkWorld (calls w ++ [["intent"; command_] ++ args ++ ["--json=true"]])
      (files w) (printed w) (printed_err w) /\
  ((exists r, fst (run_intent_command env command_ args w) = Return r) \/
   (exists e, fst (run_intent_command env command_ args w) = Raise e)).
Proof.
  destruct (spawn env w (argv_of command_ args)) as [e | [rc out]] eqn:E.
  - rewrite (run_intent_command_not_started _ _ _ _ _ E); split; [reflexivity |].
    right; eexists; reflexivity.
  - rewrite (run_intent_command_completed _ _ _ _ _ _ E); split; [reflexivity |].
    destruct (rbind (json_loads out) to_response); simpl; eauto.
Qed.

(** ** One sub-process, no file, exit code 1 *)

(** The effect of a function that starts the sub-processes [argvs], writes
    no file and nothing to the error stream and exits with codes in [E]
    only. *)
Definition effect_is {A} (w : World) (argvs : list (list string)) (E : json -> Prop)
    (res : outcome A * World) : Prop :=
  calls (snd res) = calls w ++ argvs /\
  files (snd res) = files w /\
  printed_err (snd res) = printed_err w /\
  (forall c, fst res = Exit c -> E c) /\
  fst res <> Diverge.

Ltac effect_done :=
  unfold effect_is; cbn [fst snd]; normalize_world;
  cbn [calls files printed_err say logged];
  rewrite <- ?app_assoc; cbn [app];
  repeat split; try discriminate; try reflexivity;
  try (intros ? [= <-]; auto; fail).

(** X2.  Whatever the tool answers, the quality gate starts exactly one
    sub-process ([intent quality <spec> --json=true]), writes no file and
    nothing to the error stream, and when it ends the process it does so
    with [sys.exit(1)]. *)
Theorem quality_gate_effect env spec_path_ threshold w :
  effect_is w [["intent"; "quality"; spec_path_; "--json=true"]]
    (fun c => c = JInt 1)
    (quality_gate env spec_path_ threshold w).
Proof.
  unfold quality_gate.
  rewrite bind_print.
  apply run_cases; [intros e; effect_done | intros response].
  apply (quiet_end (fun c => c = JInt 1)); [quiet_tac | | |];
    intros; effect_done.
Qed.

(** ** Sub-processes in a fixed order *)

(** The effect of a function that starts the sub-processes [argvs] one
    after the other and stops before the end of the list only by an
    exception; no file, nothing on the error stream, exit codes in [E]. *)
Definition started_in_order {A} (w : World) (argvs : list (list string))
    (E : json -> Prop) (res : outcome A * World) : Prop :=
  files (snd res) = files w /\
  printed_err (snd res) = printed_err w /\
  (exists done more,
     calls (snd res) = calls w ++ done /\
     done ++ more = argvs /\
     match fst res with
     | Raise _ => True
     | _ => more = []
     end) /\
  (forall c, fst res = Exit c -> E c) /\
  fst res <> Diverge.

Ltac order_done :=
  unfold started_in_order; cbn [fst snd]; normalize_world;
  cbn [calls files printed_err say logged];
  rewrite <- ?app_assoc; cbn [app];
  split; [reflexivity |]; split; [reflexivity |]; split;
  [ eexists; eexists; split; [reflexivity |];
    split; [cbn [app]; reflexivity | first [exact I | reflexivity]]
  | split; [first [intros ? [= <-]; assumption | intros ?; discriminate]
           | discriminate] ].

(** Runs a chain of statements: printing ones, conversions that may raise
    and sub-processes. *)
Ltac exec E done :=
  repeat first
    [ rewrite bind_print
    | apply run_cases; [intros ?; done | intros ?]
    | eapply (quiet_cases (fun _ : json => False));
      [solve [quiet_tac] | intros; done | intros ? ? [] | intros ? ?]
    | eapply (quiet_cases E);
      [solve [quiet_tac] | intros; done | intros; done | intros ? ?] ].

(** Runs the sub-processes at the head of a chain of statements. *)
Ltac exec_runs done :=
  repeat first
    [ rewrite bind_print
    | apply run_cases; [intros ?; done | intros ?] ].

(** X3.  Whatever the tool answers, the CI/CD check starts [quality],
    [coverage], [gaps] and [check] in this order and stops before the
    fourth only by an exception: when it returns or exits, all four were
    started.  It writes no file and ends the process with [sys.exit(1)]
    only. *)
Theorem cicd_check_effect env spec_path_ quality_threshold coverage_threshold
    allow_critical_gaps w :
  started_in_order w
    [argv_of "quality" [spec_path_]; argv_of "coverage" [spec_path_];
     argv_of "gaps" [spec_path_]; argv_of "check" [spec_path_]]
    (fun c => c = JInt 1)
    (cicd_check env spec_path_ quality_threshold coverage_threshold
       allow_critical_gaps w).
Proof.
  unfold cicd_check.
  exec (fun c : json => c = JInt 1) order_done.
  rewrite print_say; order_done.
Qed.

(** ** The KIRK analysis *)

Definition kirk_commands (spec_path_ : string) : list (list string) :=
  [argv_of "quality" [spec_path_]; argv_of "coverage" [spec_path_];
   argv_of "gaps" [spec_path_]; argv_of "invert" [spec_path_];
   argv_of "effects" [spec_path_]].

(** X4.  Whatever the tool answers, the KIRK analysis starts [quality],
    [coverage], [gaps], [invert] and [effects] in this order and stops
    before the fifth only by an exception; it writes no file and never
    ends the process: it returns or raises. *)
Theorem kirk_analysis_effect env spec_path_ w :
  started_in_order w (kirk_commands spec_path_) (fun _ => False)
    (kirk_analysis env spec_path_ w).
Proof.
  unfold kirk_analysis, kirk_commands.
  exec_runs order_done.
  apply (quiet_end (fun _ => False)); [solve [quiet_tac] | | |];
    intros; order_done.
Qed.

(** The five sub-processes of the KIRK analysis, each with the world it
    is started in. *)
Definition kirk_runs (w : World) (spec_path_ : string) : list (World * list string) :=
  let w0 := say w [[Lit ("Starting KIRK analysis..." ++ nl)]] in
  let w1 := logged w0 (argv_of "quality" [spec_path_]) in
  let w2 := logged w1 (argv_of "coverage" [spec_path_]) in
  let w3 := logged w2 (argv_of "gaps" [spec_path_]) in
  let w4 := logged w3 (argv_of "invert" [spec_path_]) in
  [(w0, argv_of "quality" [spec_path_]);
   (w1, argv_of "coverage" [spec_path_]);
   (w2, argv_of "gaps" [spec_path_]);
   (w3, argv_of "invert" [spec_path_]);
   (w4, argv_of "effects" [spec_path_])].

(** No line of the report when a command fails; the head of the report
    when all five give a response. *)
Definition report_needs_all_five (env : Env) (w : World) (spec_path_ : string)
    (res : outcome unit * World) : Prop :=
  ((exists W argv e, In (W, argv) (kirk_runs w spec_path_) /\
                     answer env W argv = inl e) ->
   printed (snd res) = printed w ++ [[Lit ("Starting KIRK analysis..." ++ nl)]] /\
   exists e, fst res = Raise e) /\
  ((forall W argv, In (W, argv) (kirk_runs w spec_path_) ->
                   exists r, answer env W argv = inr r) ->
   exists ls,
     printed (snd res)
     = printed w ++ [[Lit ("Starting KIRK analysis..." ++ nl)];
                     [Lit ("=== KIRK Analysis Report ===" ++ nl)];
                     [Lit "Quality Scores:"]] ++ ls).

(** A command of [kirk_runs] that answered with a response did not fail. *)
Ltac answered :=
  match goal with
  | Hr : answer ?env _ _ = inr _, He : answer ?env _ _ = inl _ |- _ =>
      discriminate (eq_trans (eq_sym Hr) He)
  end.

(** The analysis stopped at a command that failed. *)
Ltac report_absent :=
  unfold report_needs_all_five; split;
  [ intros _; split; [reflexivity | eexists; reflexivity]
  | let Hall := fresh "Hall" in
    intros Hall;
    match goal with
    | He : answer ?env ?W ?argv = inl _ |- _ =>
        let r := fresh "r" in
        let Hr := fresh "Hr" in
        destruct (Hall W argv) as (r & Hr);
        [unfold kirk_runs; cbn [In]; tauto | answered]
    end ].

(** The analysis reached the report. *)
Ltac report_begun :=
  unfold report_needs_all_five; split;
  [ let W := fresh "W" in
    let argv := fresh "argv" in
    let e := fresh "e" in
    let Hin := fresh "Hin" in
    let He := fresh "He" in
    intros (W & argv & e & Hin & He);
    unfold kirk_runs in Hin; cbv zeta in Hin; cbn [In] in Hin;
    repeat (destruct Hin as [Hin | Hin];
            [injection Hin as <- <-; answered |]);
    contradiction
  | intros _; eexists; cbn [fst snd]; normalize_world;
    cbn [printed say logged]; rewrite <- ?app_assoc; cbn [app]; reflexivity ].

(** X5.  The five commands of the KIRK analysis run before the report is
    printed.  When one of them fails (it cannot be started, or its output
    does not convert), the analysis raises and nothing but the line
    [Starting KIRK analysis...] has been printed, also when the failing
    command is the last one; when all five give a response the output goes
    on with the head of the report. *)
Theorem kirk_analysis_report_needs_all_five env spec_path_ w :
  report_needs_all_five env w spec_path_ (kirk_analysis env spec_path_ w).
Proof.
  unfold kirk_analysis.
  rewrite bind_print.
  apply run_cases_answer; [intros e1 He1; report_absent | intros r1 Hr1].
  apply run_cases_answer; [intros e2 He2; report_absent | intros r2 Hr2].
  apply run_cases_answer; [intros e3 He3; report_absent | intros r3 Hr3].
  apply run_cases_answer; [intros e4 He4; report_absent | intros r4 Hr4].
  apply run_cases_answer; [intros e5 He5; report_absent | intros r5 Hr5].
  rewrite !bind_print.
  apply (quiet_end (fun _ => False)); [solve [quiet_tac] | | |];
    intros; report_begun.
Qed.

(** The tool that answers [quality], [coverage], [gaps] and [invert] and
    cannot run [effects]. *)
Definition no_effects_env : Env :=
  mkEnv (fun _ argv =>
           match argv with
           | _ :: sub :: _ =>
               if String.eqb sub "effects" then inl OSError
               else inr (mkCompleted 0 (Document passing_document))
           | _ => inl OSError
           end)
        (fun _ _ => true).

Lemma kirk_analysis_report_needs_all_five_witness :
  printed (snd (kirk_analysis no_effects_env "spec.cue" empty_world))
  = printed empty_world ++ [[Lit ("Starting KIRK analysis..." ++ nl)]] /\
  exists e, fst (kirk_analysis no_effects_env "spec.cue" empty_world) = Raise e.
Proof.
  apply (proj1 (kirk_analysis_report_needs_all_five no_effects_env "spec.cue" empty_world)).
  eexists; eexists; exists OSError; split.
  - unfold kirk_runs; cbn [In]; right; right; right; right; left; reflexivity.
  - reflexivity.
Defined.

(** ** Test execution with feedback: the file and the second sub-process *)

Lemma bind_assoc {A B C} (m : M A) (f : A -> M B) (k : B -> M C) w :
  bind (bind m f) k w = bind m (fun a => bind (f a) k) w.
Proof. unfold bind; destruct (m w) as [[a | e | c | ] w']; reflexivity. Qed.

Lemma bind_sys_exit {A B} (c : json) (k : A -> M B) w :
  bind (sys_exit c) k w = (Exit c, w).
Proof. reflexivity. Qed.

Lemma write_cases {B} env path value (k : unit -> M B) w
      (P : outcome B * World -> Prop) :
  P (Raise OSError, w) ->
  P (k tt (wrote w path value)) ->
  P (bind (write_json env path value) k w).
Proof.
  intros Hraise Hreturn; unfold bind, write_json.
  destruct (writable env w path); assumption.
Qed.

(** What test-with-feedback leaves behind: either only [check] was started
    and no file written, and the process was not ended; or the file
    [check-results.json] was written and [feedback] started after it, and
    the function did not return. *)
Definition feedback_effect (w : World) (spec_path_ : string)
    (res : outcome unit * World) : Prop :=
  printed_err (snd res) = printed_err w /\
  fst res <> Diverge /\
  ((calls (snd res) = calls w ++ [argv_of "check" [spec_path_]] /\
    files (snd res) = files w /\
    (forall c, fst res <> Exit c))
   \/
   (calls (snd res) = calls w ++ [argv_of "check" [spec_path_]; feedback_argv] /\
    (exists d, files (snd res) = files w ++ [("check-results.json", d)]) /\
    fst res <> Return tt /\
    (forall c, fst res = Exit c -> c = JInt 1))).

Ltac feedback_done :=
  rewrite ?print_say;
  unfold feedback_effect, feedback_argv, results_file; cbn [fst snd];
  normalize_world;
  cbn [calls files printed_err say logged wrote];
  rewrite <- ?app_assoc; cbn [app];
  split; [reflexivity |]; split; [discriminate |];
  first
    [ left; split; [reflexivity |]; split; [reflexivity |];
      intros ?; discriminate
    | right; split; [reflexivity |]; split; [eexists; reflexivity |];
      split; [discriminate |];
      first [intros ? [= <-]; reflexivity | intros ?; discriminate] ].

(** X6.  Whatever the tool answers, test-with-feedback starts [check]
    first; it writes at most one file, [check-results.json], and only
    before it starts [feedback]; it returns only when no file was written
    and [feedback] not started, and ends the process with [sys.exit(1)]
    only, after both. *)
Theorem test_with_feedback_effect env spec_path_ w :
  feedback_effect w spec_path_ (test_with_feedback env spec_path_ w).
Proof.
  unfold test_with_feedback.
  repeat first
    [ rewrite bind_print
    | rewrite bind_sys_exit
    | apply run_cases; [intros ?; feedback_done | intros ?]
    | apply write_cases; [feedback_done |]
    | eapply (quiet_cases (fun _ : json => False));
      [solve [quiet_tac] | intros; feedback_done | intros ? ? [] | intros ? ?]
    | rewrite bind_assoc
    | match goal with
      | |- feedback_effect _ _ (bind (if ?b then _ else _) _ _) => destruct b
      end ];
    feedback_done.
Qed.

(** ** Robust execution and main *)

Definition success_lines (r : JsonResponse) : list line :=
  [[Lit "✅ Success"];
   [Lit "Correlation ID: "; Val (correlation_id (metadata r))]].

Definition failure_lines (r : JsonResponse) : list line :=
  [[Lit "Command failed:"]]
  ++ flat_map error_lines (errors r)
  ++ autofix_lines (errors r).

(** Robust execution, by the outcome of its one sub-process. *)
Lemma robust_execution_cases env spec_path_ w :
  let w1 := logged w (argv_of "quality" [spec_path_]) in
  match fst (run_intent_command env "quality" [spec_path_] w) with
  | Return r =>
      robust_execution env spec_path_ w =
        if truthy (success r)
        then (Return tt, say w1 (success_lines r))
        else (Exit (exit_code (metadata r)), say w1 (failure_lines r))
  | Raise e =>
      robust_execution env spec_path_ w =
        (Exit (JInt 4), say_err w1 [Lit "Execution error: "; ExnText e])
  | _ => False
  end.
Proof.
  intros w1; subst w1.
  destruct (spawn env w (argv_of "quality" [spec_path_])) as [e | [rc out]] eqn:E.
  - pose proof (run_intent_command_not_started _ _ _ _ _ E) as Hrun.
    rewrite Hrun; simpl.
    apply (robust_execution_exception _ _ _ _ _ Hrun).
  - pose proof (run_intent_command_completed _ _ _ _ _ _ E) as Hrun.
    destruct out as [| j].
    + rewrite Hrun; simpl.
      apply (robust_execution_exception _ _ _ _ _ Hrun).
    + simpl in Hrun.
      destruct (to_response j) as [e | r] eqn:Hr; rewrite Hrun; simpl.
      * apply (robust_execution_exception _ _ _ _ _ Hrun).
      * destruct (truthy (success r)) eqn:Hs.
        -- apply (robust_execution_reported_success _ _ _ _ _ _ E Hr Hs).
        -- apply (robust_execution_reported_failure _ _ _ _ _ _ E Hr Hs).
Qed.

(** X7.  Robust execution ends in one of three ways, decided by its one
    sub-process: an exception of [run_intent_command] (launch, decoding or
    conversion) becomes [sys.exit(4)] with one line on the error stream; a
    response whose [success] is false becomes [sys.exit] with the
    response's own [exit_code], whatever value that is; any other response
    is reported and the function returns. *)
Theorem robust_execution_outcome env spec_path_ w :
  let w1 := logged w (argv_of "quality" [spec_path_]) in
  (forall e, fst (run_intent_command env "quality" [spec_path_] w) = Raise e ->
     robust_execution env spec_path_ w =
       (Exit (JInt 4), say_err w1 [Lit "Execution error: "; ExnText e])) /\
  (forall r, fst (run_intent_command env "quality" [spec_path_] w) = Return r ->
     robust_execution env spec_path_ w =
       if truthy (success r)
       then (Return tt, say w1 (success_lines r))
       else (Exit (exit_code (metadata r)), say w1 (failure_lines r))) /\
  ((exists e, fst (run_intent_command env "quality" [spec_path_] w) = Raise e) \/
   (exists r, fst (run_intent_command env "quality" [spec_path_] w) = Return r)).
Proof.
  intros w1; pose proof (robust_execution_cases env spec_path_ w) as H.
  cbv zeta in H.
  destruct (fst (run_intent_command env "quality" [spec_path_] w))
    as [r | e | c | ]; try contradiction.
  - split; [discriminate |]; split; [intros r' [= <-]; exact H | eauto].
  - split; [intros e' [= <-]; exact H |]; split; [discriminate | eauto].
Qed.

(** X8.  Robust execution never lets an exception escape, starts exactly
    one sub-process (the fix commands it reports are not run) and writes
    no file. *)
Theorem robust_execution_contains_exceptions env spec_path_ w :
  (forall e, fst (robust_execution env spec_path_ w) <> Raise e) /\
  fst (robust_execution env spec_path_ w) <> Diverge /\
  calls (snd (robust_execution env spec_path_ w))
  = calls w ++ [["intent"; "quality"; spec_path_; "--json=true"]] /\
  files (snd (robust_execution env spec_path_ w)) = files w.
Proof.
  pose proof (robust_execution_cases env spec_path_ w) as H.
  cbv zeta in H.
  destruct (fst (run_intent_command env "quality" [spec_path_] w))
    as [r | e | c | ]; try contradiction.
  - destruct (truthy (success r)); rewrite H; repeat split; discriminate.
  - rewrite H; repeat split; discriminate.
Qed.

(** X9.  [main] runs robust execution on the first command line argument,
    or on [examples/user-api.cue] when there is none; so it never ends
    with an exception and starts exactly one sub-process. *)
Theorem main_runs_robust_execution env argv w :
  let spec_path_ := nth 1 argv "examples/user-api.cue" in
  main env argv w = robust_execution env spec_path_ w /\
  (forall e, fst (main env argv w) <> Raise e) /\
  calls (snd (main env argv w))
  = calls w ++ [["intent"; "quality"; spec_path_; "--json=true"]].
Proof.
  intros spec_path_.
  assert (Hmain : main env argv w = robust_execution env spec_path_ w).
  { unfold main, spec_path_; destruct argv as [| a [| p rest]]; reflexivity. }
  rewrite Hmain; split; [reflexivity |].
  pose proof (robust_execution_cases env spec_path_ w) as H.
  cbv zeta in H.
  destruct (fst (run_intent_command env "quality" [spec_path_] w))
    as [r | e | c | ]; try contradiction.
  - destruct (truthy (success r)); rewrite H; repeat split; discriminate.
  - rewrite H; repeat split; discriminate.
Qed.

(** ** The chained workflow driver: a bound for every tool *)

(** A command line built from a suggested command: the sub-command is not
    empty and no argument before the final [--json=true] is empty or
    starts with [--]. *)
Definition chained_ok (argv : list string) : Prop :=
  exists sub args,
    argv = ["intent"; sub] ++ args ++ ["--json=true"] /\
    sub <> "" /\
    Forall (fun a => startswith a "--" = false /\ a <> "") args.

Lemma is_empty_false (s : string) : is_empty s = false -> s <> "".
Proof. intros H ->; discriminate. Qed.

Lemma In_skipn {A} (n : nat) (l : list A) (x : A) : In x (skipn n l) -> In x l.
Proof.
  intros H; rewrite <- (firstn_skipn n l); apply in_or_app; right; exact H.
Qed.

Lemma positional_ok (parts : list string) :
  Forall (fun t => is_empty t = false) parts ->
  Forall (fun a => startswith a "--" = false /\ a <> "") (positional parts).
Proof.
  intros Hparts; rewrite Forall_forall in *.
  intros a Ha; unfold positional in Ha.
  apply filter_In in Ha as (Hin & Hflag).
  split.
  - apply negb_true_iff in Hflag; exact Hflag.
  - apply is_empty_false, Hparts, (In_skipn _ _ _ Hin).
Qed.

Lemma chained_ok_split (s sub : string) :
  index (split s) 1 = inr sub ->
  chained_ok (argv_of sub (positional (split s))).
Proof.
  intros Hsub; exists sub, (positional (split s)); split; [reflexivity |].
  pose proof (split_nonempty s) as Hne.
  split; [| apply positional_ok, Hne].
  unfold index in Hsub.
  destruct (nth_error (split s) 1) as [t |] eqn:E; inversion Hsub; subst t.
  rewrite Forall_forall in Hne.
  apply is_empty_false, Hne, (nth_error_In _ _ E).
Qed.

(** The effect of the loop: at most [n] more sub-processes, each with a
    command line built from a suggestion; no file, nothing on the error
    stream, and the process is not ended. *)
Definition workflow_effect {A} (w : World) (n : nat) (res : outcome A * World) : Prop :=
  files (snd res) = files w /\
  printed_err (snd res) = printed_err w /\
  (exists cs, calls (snd res) = calls w ++ cs /\
              (List.length cs <= n)%nat /\ Forall chained_ok cs) /\
  (forall c, fst res <> Exit c) /\
  fst res <> Diverge.

Lemma workflow_effect_none {A} (w : World) (n : nat) (o : outcome A) (ls : list line) :
  (forall c, o <> Exit c) -> o <> Diverge ->
  workflow_effect w n (o, say w ls).
Proof.
  intros He Hd; unfold workflow_effect; cbn.
  repeat split; auto.
  exists []; rewrite app_nil_r; repeat split; [apply Nat.le_0_l | constructor].
Qed.

Lemma workflow_effect_same {A} (w : World) (n : nat) (o : outcome A) :
  (forall c, o <> Exit c) -> o <> Diverge ->
  workflow_effect w n (o, w).
Proof.
  intros He Hd; rewrite <- (say_nil w) at 2; apply workflow_effect_none; assumption.
Qed.

Lemma workflow_effect_step {A} (w w1 : World) (argv : list string) (n : nat)
      (res : outcome A * World) :
  calls w1 = calls w ++ [argv] ->
  files w1 = files w ->
  printed_err w1 = printed_err w ->
  chained_ok argv ->
  workflow_effect w1 n res ->
  workflow_effect w (S n) res.
Proof.
  intros Hc Hf He Hok (Hf' & He' & (cs & Hcs & Hlen & Hall) & Hx & Hd).
  unfold workflow_effect; repeat split; try congruence; auto.
  exists (argv :: cs); repeat split.
  - rewrite Hcs, Hc, <- app_assoc; reflexivity.
  - simpl; apply le_n_S, Hlen.
  - constructor; assumption.
Qed.

Lemma auto_loop_effect env fuel :
  forall max_depth r depth w,
    (Z.to_nat (max_depth - depth) <= fuel)%nat ->
    workflow_effect w (Z.to_nat (max_depth - depth))
      (auto_loop env fuel max_depth r depth w).
Proof.
  induction fuel as [| fuel IH]; intros max_depth r depth w Hfuel;
    rewrite auto_loop_unfold;
    destruct (nonempty (next_actions r) && (depth <? max_depth)) eqn:C;
    try (apply workflow_effect_same; [intros c | ]; discriminate).
  - apply andb_true_iff in C as (_ & C); apply Z.ltb_lt in C; lia.
  - apply andb_true_iff in C as (_ & C); apply Z.ltb_lt in C.
    rewrite !bind_print.
    destruct (index (next_actions r) 0) as [e | a];
      [rewrite bind_lift_inl; normalize_world;
       apply workflow_effect_none; [intros c | ]; discriminate
      | rewrite bind_lift_inr].
    rewrite !bind_print.
    destruct (na_command a) as [| | | | s | |]; cbn [split_of];
      try (rewrite bind_lift_inl; normalize_world;
           apply workflow_effect_none; [intros c | ]; discriminate).
    rewrite bind_lift_inr.
    destruct (index (split s) 1) as [e | sub] eqn:Esub;
      [rewrite bind_lift_inl; normalize_world;
       apply workflow_effect_none; [intros c | ]; discriminate
      | rewrite bind_lift_inr].
    replace (Z.to_nat (max_depth - depth))
      with (S (Z.to_nat (max_depth - (depth + 1)))) by lia.
    normalize_world.
    apply run_cases.
    + intros e.
      match goal with
      | |- workflow_effect _ _ (_, ?w1) =>
          apply (workflow_effect_step w w1 (argv_of sub (positional (split s))));
            try reflexivity
      end.
      * apply (chained_ok_split _ _ Esub).
      * apply workflow_effect_same; [intros c | ]; discriminate.
    + intros r'.
      match goal with
      | |- workflow_effect _ _ (auto_loop _ _ _ _ _ ?w1) =>
          apply (workflow_effect_step w w1 (argv_of sub (positional (split s))));
            try reflexivity
      end.
      * apply (chained_ok_split _ _ Esub).
      * apply IH; lia.
Qed.

(** X10.  Whatever the tool answers and whatever [max_depth] is, the
    chained workflow driver terminates, starts [quality] first and at
    most [max_depth] further sub-processes, each with a non-empty
    sub-command and without flags among its arguments other than the
    final [--json=true]; it writes no file and never ends the process. *)
Theorem auto_workflow_effect env spec_path_ max_depth w :
  let res := auto_workflow env spec_path_ max_depth w in
  files (snd res) = files w /\
  printed_err (snd res) = printed_err w /\
  (exists chained,
     calls (snd res) = calls w ++ argv_of "quality" [spec_path_] :: chained /\
     (List.length chained <= Z.to_nat max_depth)%nat /\
     Forall chained_ok chained) /\
  (forall c, fst res <> Exit c) /\
  fst res <> Diverge.
Proof.
  cbv zeta; unfold auto_workflow.
  rewrite bind_print.
  apply run_cases.
  - intros e; cbn.
    repeat split; try discriminate.
    exists []; repeat split; [apply Nat.le_0_l | constructor].
  - intros r.
    set (w1 := logged _ _).
    pose proof (auto_loop_effect env (Z.to_nat max_depth) max_depth r 0 w1) as H.
    replace (max_depth - 0) with max_depth in H by lia.
    specialize (H (Nat.le_refl _)).
    destruct H as (Hf & He & (cs & Hcs & Hlen & Hall) & Hx & Hd).
    unfold bind.
    destruct (auto_loop env (Z.to_nat max_depth) max_depth r 0 w1) as [o w2].
    cbn [fst snd] in *.
    assert (Hcalls : calls w2 = calls w ++ argv_of "quality" [spec_path_] :: cs).
    { rewrite Hcs; unfold w1; cbn; rewrite <- app_assoc; reflexivity. }
    destruct o as [[] | e | c | ]; cbn [fst snd print calls files printed_err];
      [ | | exfalso; exact (Hx c eq_refl) | exfalso; exact (Hd eq_refl)];
      (split; [rewrite Hf; reflexivity |]);
      (split; [rewrite He; reflexivity |]);
      (split; [exists cs; auto |]);
      split; [intros c | | intros c | ]; discriminate.
Qed.

(* ------------------------------------------------------------------ *)
(** * The response parser: what it accepts *)

(** [e.get(k)] for an entry of the document, [None] when [e] is no dict. *)
Definition member (e : json) (k : string) : json :=
  match e with
  | JObject kvs => dict_get kvs k
  | _ => JNull
  end.

Definition as_error (e : json) : JsonError :=
  mkJsonError (member e "code") (member e "message") (member e "location")
    (member e "fix_hint") (member e "fix_command").

Definition as_next_action (a : json) : NextAction :=
  mkNextAction (member a "command") (member a "reason").

Definition as_metadata (m : json) : JsonMetadata :=
  mkJsonMetadata (member m "timestamp") (member m "version") (member m "exit_code")
    (member m "correlation_id") (member m "duration_ms").

(** A dict whose keys are among [fields] and include [needed]. *)
Definition entry_ok (fields needed : list string) (e : json) : Prop :=
  exists kvs,
    e = JObject kvs /\
    (forall k x, In (k, x) kvs -> In k fields) /\
    (forall k, In k needed -> lookup k kvs <> None).

Lemma In_mem (k : string) (ks : list string) : In k ks -> mem k ks = true.
Proof.
  intros H; unfold mem; apply existsb_exists.
  exists k; split; [exact H | apply String.eqb_refl].
Qed.

Lemma keys_within_all fields kvs :
  (forall k x, In (k, x) kvs -> In k fields) -> keys_within fields kvs = true.
Proof.
  intros H; unfold keys_within; apply forallb_forall.
  intros [k x] Hin; apply In_mem, (H k x Hin).
Qed.

Lemma required_present kvs k :
  lookup k kvs <> None -> required kvs k = inr (dict_get kvs k).
Proof.
  unfold required, dict_get; destruct (lookup k kvs); [reflexivity | congruence].
Qed.

Lemma JsonError_kw_complete e :
  entry_ok JsonError_fields ["code"; "message"] e ->
  JsonError_kw e = inr (as_error e).
Proof.
  intros (kvs & -> & Hkeys & Hneeded); simpl.
  rewrite (keys_within_all _ _ Hkeys).
  rewrite !required_present by (apply Hneeded; simpl; tauto).
  reflexivity.
Qed.

Lemma NextAction_kw_complete a :
  entry_ok NextAction_fields NextAction_fields a ->
  NextAction_kw a = inr (as_next_action a).
Proof.
  intros (kvs & -> & Hkeys & Hneeded); simpl.
  rewrite (keys_within_all _ _ Hkeys).
  rewrite !required_present by (apply Hneeded; simpl; tauto).
  reflexivity.
Qed.

Lemma JsonMetadata_kw_complete m :
  entry_ok JsonMetadata_fields JsonMetadata_fields m ->
  JsonMetadata_kw m = inr (as_metadata m).
Proof.
  intros (kvs & -> & Hkeys & Hneeded); simpl.
  rewrite (keys_within_all _ _ Hkeys).
  rewrite !required_present by (apply Hneeded; simpl; tauto).
  reflexivity.
Qed.

Lemma rmap_complete {A B} (f : A -> res B) (g : A -> B) (l : list A) :
  Forall (fun a => f a = inr (g a)) l -> rmap f l = inr (map g l).
Proof.
  induction 1 as [| a l Ha _ IH]; simpl; [reflexivity |].
  rewrite Ha; simpl; rewrite IH; reflexivity.
Qed.

Lemma rmap_determined {A B} (f : A -> res B) (g : A -> B) (l : list A) (bs : list B) :
  (forall a b, f a = inr b -> b = g a) ->
  rmap f l = inr bs -> bs = map g l.
Proof.
  intros Hf; revert bs; induction l as [| a l IH]; simpl; intros bs H.
  - inversion H; reflexivity.
  - apply rbind_ok in H as (b & Hb & H).
    apply rbind_ok in H as (bs' & Hbs & H).
    inversion H; subst; f_equal; auto.
Qed.

Lemma required_value kvs k v : required kvs k = inr v -> v = dict_get kvs k.
Proof.
  unfold required, dict_get; destruct (lookup k kvs); intros H; inversion H; reflexivity.
Qed.

Lemma JsonError_kw_value e b : JsonError_kw e = inr b -> b = as_error e.
Proof.
  destruct e; simpl; try discriminate.
  destruct (keys_within JsonError_fields kvs); [| discriminate].
  intros H.
  apply rbind_ok in H as (c & Hc & H); apply rbind_ok in H as (m & Hm & H).
  apply required_value in Hc, Hm; inversion H; subst; reflexivity.
Qed.

Lemma NextAction_kw_value a b : NextAction_kw a = inr b -> b = as_next_action a.
Proof.
  destruct a; simpl; try discriminate.
  destruct (keys_within NextAction_fields kvs); [| discriminate].
  intros H.
  apply rbind_ok in H as (c & Hc & H); apply rbind_ok in H as (m & Hm & H).
  apply required_value in Hc, Hm; inversion H; subst; reflexivity.
Qed.

(** X11.  A JSON object converts to a response as soon as it has the seven
    fields, [errors] and [next_actions] are lists of dicts with their
    required keys and no unknown key, and [metadata] is a dict with
    exactly its five keys.  The values are taken as they are (no type is
    checked), the entries keep their order, an optional field that is
    absent becomes [None], and other top-level keys are ignored. *)
Theorem to_response_complete kvs success_ action_ command_ data_ es nas md :
  lookup "success" kvs = Some success_ ->
  lookup "action" kvs = Some action_ ->
  lookup "command" kvs = Some command_ ->
  lookup "data" kvs = Some data_ ->
  lookup "errors" kvs = Some (JArray es) ->
  Forall (entry_ok JsonError_fields ["code"; "message"]) es ->
  lookup "next_actions" kvs = Some (JArray nas) ->
  Forall (entry_ok NextAction_fields NextAction_fields) nas ->
  lookup "metadata" kvs = Some md ->
  entry_ok JsonMetadata_fields JsonMetadata_fields md ->
  to_response (JObject kvs)
  = inr (mkJsonResponse success_ action_ command_ data_
           (map as_error es) (map as_next_action nas) (as_metadata md)
           (dict_get kvs "spec_path")).
Proof.
  intros Hs Ha Hc Hd He Hes Hn Hnas Hm Hmd.
  unfold to_response; simpl.
  rewrite Hs, Ha, Hc, Hd, He, Hn, Hm; simpl.
  rewrite (rmap_complete JsonError_kw as_error es); simpl.
  2:{ eapply Forall_impl; [| exact Hes]; intros a; apply JsonError_kw_complete. }
  rewrite (rmap_complete NextAction_kw as_next_action nas); simpl.
  2:{ eapply Forall_impl; [| exact Hnas]; intros a; apply NextAction_kw_complete. }
  rewrite (JsonMetadata_kw_complete _ Hmd); reflexivity.
Qed.

(** A document with one error that has no optional field, one suggestion,
    a [success] that is no boolean and a top-level key of its own. *)
Definition lenient_document : list (string * json) :=
  [("success", JString "yes");
   ("action", JInt 7);
   ("command", JNull);
   ("data", JArray []);
   ("errors", JArray [JObject [("message", JString "m"); ("code", JInt 3)]]);
   ("next_actions", JArray [JObject [("command", JString "intent gaps a.cue");
                                     ("reason", JString "r")]]);
   ("metadata", sample_metadata (JString "0"));
   ("trace_id", JString "t-1")].

Lemma entry_ok_by_keys fields needed kvs :
  keys_within fields kvs = true ->
  forallb (fun k => match lookup k kvs with Some _ => true | None => false end) needed
  = true ->
  entry_ok fields needed (JObject kvs).
Proof.
  intros Hkeys Hneeded; exists kvs; split; [reflexivity |]; split.
  - intros k x Hin; unfold keys_within in Hkeys; rewrite forallb_forall in Hkeys.
    apply mem_In, (Hkeys (k, x) Hin).
  - intros k Hk; rewrite forallb_forall in Hneeded.
    specialize (Hneeded k Hk); destruct (lookup k kvs); [discriminate | discriminate].
Qed.

Lemma to_response_complete_witness :
  to_response (JObject lenient_document)
  = inr (mkJsonResponse (JString "yes") (JInt 7) JNull (JArray [])
           [mkJsonError (JInt 3) (JString "m") JNull JNull JNull]
           [mkNextAction (JString "intent gaps a.cue") (JString "r")]
           (as_metadata (sample_metadata (JString "0")))
           JNull).
Proof.
  exact (to_response_complete lenient_document (JString "yes") (JInt 7) JNull (JArray [])
           [JObject [("message", JString "m"); ("code", JInt 3)]]
           [JObject [("command", JString "intent gaps a.cue"); ("reason", JString "r")]]
           (sample_metadata (JString "0"))
           eq_refl eq_refl eq_refl eq_refl eq_refl
           (Forall_cons _
              (entry_ok_by_keys JsonError_fields ["code"; "message"]
                 [("message", JString "m"); ("code", JInt 3)] eq_refl eq_refl)
              (Forall_nil _))
           eq_refl
           (Forall_cons _
              (entry_ok_by_keys NextAction_fields NextAction_fields
                 [("command", JString "intent gaps a.cue"); ("reason", JString "r")]
                 eq_refl eq_refl)
              (Forall_nil _))
           eq_refl
           (entry_ok_by_keys JsonMetadata_fields JsonMetadata_fields
              [("timestamp", JString "2024-01-01T00:00:00Z");
               ("version", JString "1.0.0");
               ("exit_code", JString "0");
               ("correlation_id", JString "c-1");
               ("duration_ms", JInt 12)] eq_refl eq_refl)).
Defined.

(** X12.  After a conversion the helpers read the document: the error
    messages are the [message] values of the entries of [errors], the next
    action commands the [command] values of the entries of
    [next_actions], both in the order of the document. *)
Theorem helpers_follow_document kvs r es nas :
  to_response (JObject kvs) = inr r ->
  lookup "errors" kvs = Some (JArray es) ->
  lookup "next_actions" kvs = Some (JArray nas) ->
  get_error_messages r = map (fun e => member e "message") es /\
  get_next_actions r = map (fun a => member a "command") nas.
Proof.
  intros Hr He Hn.
  apply to_response_ok in Hr
    as (kvs' & es' & nas' & md & ei & ni & Ej & _ & _ & _ & _ & H5 & H6 & H7
        & H8 & H9 & H10 & _).
  inversion Ej; subst kvs'; clear Ej.
  rewrite He in H5; inversion H5; subst es'; simpl in H6; inversion H6; subst ei.
  rewrite Hn in H8; inversion H8; subst nas'; simpl in H9; inversion H9; subst ni.
  apply (rmap_determined _ as_error _ _ JsonError_kw_value) in H7.
  apply (rmap_determined _ as_next_action _ _ NextAction_kw_value) in H10.
  unfold get_error_messages, get_next_actions; rewrite H7, H10, !map_map.
  split; reflexivity.
Qed.

Lemma helpers_follow_document_witness :
  get_error_messages (response_of (JObject lenient_document)) = [JString "m"] /\
  get_next_actions (response_of (JObject lenient_document))
  = [JString "intent gaps a.cue"].
Proof.
  exact (helpers_follow_document lenient_document
           (response_of (JObject lenient_document)) _ _ eq_refl eq_refl eq_refl).
Defined.

(* ------------------------------------------------------------------ *)
(** * Exceptions of the policy functions *)

Lemma join_strings (sep : string) (l : list string) :
  join sep (map JString l) = inr (String.concat sep l).
Proof.
  induction l as [| s l IH]; [reflexivity |].
  destruct l as [| t l]; [reflexivity |].
  change (join sep (map JString (s :: t :: l)))
    with (rbind (join sep (map JString (t :: l)))
            (fun r => ok (s ++ sep ++ r)%string)).
  rewrite IH; reflexivity.
Qed.

Lemma join_not_string (sep : string) (l : list json) (m : json) :
  In m l -> (forall s, m <> JString s) -> join sep l = inl TypeError.
Proof.
  intros Hin Hm; induction l as [| x l IH]; [contradiction |].
  destruct Hin as [-> | Hin].
  - destruct m; try reflexivity.
    exfalso; exact (Hm s eq_refl).
  - specialize (IH Hin).
    destruct x; try reflexivity.
    destruct l as [| y l]; [contradiction |].
    change (join sep (JString s :: y :: l))
      with (rbind (join sep (y :: l)) (fun r => ok (s ++ sep ++ r)%string)).
    rewrite IH; reflexivity.
Qed.

(** X13.  On a response whose [success] is false the quality gate raises
    and does not end the process: a [RuntimeError] whose text is
    [Quality check failed:] followed by the error messages, one per line,
    when all messages are strings, and a [TypeError] when one is not.
    Nothing but the first line has been printed. *)
Theorem quality_gate_reported_failure env w spec_path_ threshold rc j r :
  (forall w', spawn env w' (argv_of "quality" [spec_path_])
              = inr (mkCompleted rc (Document j))) ->
  to_response j = inr r ->
  truthy (success r) = false ->
  (forall messages,
     get_error_messages r = map JString messages ->
     quality_gate env spec_path_ threshold w =
       (Raise (RuntimeError
                 ("Quality check failed:" ++ nl ++ String.concat nl messages)),
        say (logged w (argv_of "quality" [spec_path_])) [gate_banner threshold])) /\
  (forall m,
     In m (get_error_messages r) -> (forall s, m <> JString s) ->
     quality_gate env spec_path_ threshold w =
       (Raise TypeError,
        say (logged w (argv_of "quality" [spec_path_])) [gate_banner threshold])).
Proof.
  intros Hspawn Hr Hs; split.
  - intros messages Hm.
    unfold quality_gate.
    rewrite bind_print.
    rewrite (bind_Return _ _ _ _ _
               (run_intent_command_response _ _ _ _ _ _ _ (Hspawn _) Hr)).
    rewrite Hs; simpl negb; cbv iota.
    rewrite bind_assoc, Hm, join_strings, bind_lift_inr.
    reflexivity.
  - intros m Hin Hm.
    unfold quality_gate.
    rewrite bind_print.
    rewrite (bind_Return _ _ _ _ _
               (run_intent_command_response _ _ _ _ _ _ _ (Hspawn _) Hr)).
    rewrite Hs; simpl negb; cbv iota.
    rewrite bind_assoc, (join_not_string _ _ _ Hin Hm), bind_lift_inl.
    reflexivity.
Qed.

Lemma JInt_not_string (z : Z) (s : string) : JInt z <> JString s.
Proof. discriminate. Qed.

Definition rejected_document : json :=
  sample_document (JBool false) (JObject [])
    [JObject [("code", JString "E1"); ("message", JString "no behaviors")];
     JObject [("code", JString "E2"); ("message", JString "no features")]]
    [] (JInt 2).

Definition odd_message_document : json :=
  sample_document (JBool false) (JObject [])
    [JObject [("code", JString "E1"); ("message", JInt 404)]]
    [] (JInt 2).

Lemma quality_gate_reported_failure_witness :
  quality_gate (const_env (mkCompleted 2 (Document rejected_document)))
    "spec.cue" (NInt 80) empty_world
  = (Raise (RuntimeError
              ("Quality check failed:" ++ nl ++ "no behaviors" ++ nl ++ "no features")),
     mkWorld [["intent"; "quality"; "spec.cue"; "--json=true"]] []
       [gate_banner (NInt 80)] []) /\
  quality_gate (const_env (mkCompleted 2 (Document odd_message_document)))
    "spec.cue" (NInt 80) empty_world
  = (Raise TypeError,
     mkWorld [["intent"; "quality"; "spec.cue"; "--json=true"]] []
       [gate_banner (NInt 80)] []).
Proof.
  split.
  - exact (proj1 (quality_gate_reported_failure
                    (const_env (mkCompleted 2 (Document rejected_document)))
                    empty_world "spec.cue" (NInt 80) 2 rejected_document
                    (response_of rejected_document)
                    (fun _ => eq_refl) eq_refl eq_refl)
             ["no behaviors"; "no features"] eq_refl).
  - exact (proj2 (quality_gate_reported_failure
                    (const_env (mkCompleted 2 (Document odd_message_document)))
                    empty_world "spec.cue" (NInt 80) 2 odd_message_document
                    (response_of odd_message_document)
                    (fun _ => eq_refl) eq_refl eq_refl)
             (JInt 404) (or_introl eq_refl)
             (fun s => JInt_not_string 404 s)).
Defined.

(** X14.  On a response that reports success the quality gate raises, and
    does not end the process, when the score cannot be used: the exception
    of the subscript ([KeyError('overall_score')] for a dict without the
    key, [TypeError] when [data] is no dict) before any score line, and a
    [TypeError] after the score line when the score is no number. *)
Theorem quality_gate_unusable_score env w spec_path_ threshold rc j r :
  (forall w', spawn env w' (argv_of "quality" [spec_path_])
              = inr (mkCompleted rc (Document j))) ->
  to_response j = inr r ->
  truthy (success r) = true ->
  (forall e,
     getitem (data r) "overall_score" = inl e ->
     quality_gate env spec_path_ threshold w =
       (Raise e,
        say (logged w (argv_of "quality" [spec_path_])) [gate_banner threshold]) /\
     (e = TypeError \/ e = KeyError "overall_score")) /\
  (forall score,
     getitem (data r) "overall_score" = inr score ->
     num_of score = None ->
     quality_gate env spec_path_ threshold w =
       (Raise TypeError,
        say (logged w (argv_of "quality" [spec_path_]))
          [gate_banner threshold; gate_score score])).
Proof.
  intros Hspawn Hr Hs; split.
  - intros e He; split; [| apply (getitem_error _ _ _ He)].
    unfold quality_gate.
    rewrite bind_print.
    rewrite (bind_Return _ _ _ _ _
               (run_intent_command_response _ _ _ _ _ _ _ (Hspawn _) Hr)).
    rewrite Hs; simpl negb; cbv iota.
    rewrite (bind_Return _ _ _ tt _ eq_refl).
    rewrite He, bind_lift_inl; reflexivity.
  - intros score Hscore Hnum.
    unfold quality_gate.
    rewrite bind_print.
    rewrite (bind_Return _ _ _ _ _
               (run_intent_command_response _ _ _ _ _ _ _ (Hspawn _) Hr)).
    rewrite Hs; simpl negb; cbv iota.
    rewrite (bind_Return _ _ _ tt _ eq_refl).
    rewrite (bind_lift_ok _ _ _ score Hscore), bind_print.
    unfold lt; rewrite Hnum, bind_lift_inl.
    normalize_world; reflexivity.
Qed.

Definition scoreless_document : json :=
  sample_document (JBool true) (JObject [("issues", JArray [])]) [] [] (JInt 0).

Definition textual_score_document : json :=
  sample_document (JBool true) (JObject [("overall_score", JString "90")]) [] [] (JInt 0).

Lemma quality_gate_unusable_score_witness :
  quality_gate (const_env (mkCompleted 0 (Document scoreless_document)))
    "spec.cue" (NInt 80) empty_world
  = (Raise (KeyError "overall_score"),
     mkWorld [["intent"; "quality"; "spec.cue"; "--json=true"]] []
       [gate_banner (NInt 80)] []) /\
  quality_gate (const_env (mkCompleted 0 (Document textual_score_document)))
    "spec.cue" (NInt 80) empty_world
  = (Raise TypeError,
     mkWorld [["intent"; "quality"; "spec.cue"; "--json=true"]] []
       [gate_banner (NInt 80); gate_score (JString "90")] []).
Proof.
  split.
  - exact (proj1 (proj1 (quality_gate_unusable_score
                    (const_env (mkCompleted 0 (Document scoreless_document)))
                    empty_world "spec.cue" (NInt 80) 0 scoreless_document
                    (response_of scoreless_document)
                    (fun _ => eq_refl) eq_refl eq_refl)
             (KeyError "overall_score") eq_refl)).
  - exact (proj2 (quality_gate_unusable_score
                    (const_env (mkCompleted 0 (Document textual_score_document)))
                    empty_world "spec.cue" (NInt 80) 0 textual_score_document
                    (response_of textual_score_document)
                    (fun _ => eq_refl) eq_refl eq_refl)
             (JString "90") eq_refl eq_refl).
Defined.

(** X15.  With [allow_critical_gaps] set, critical gaps never fail the
    CI/CD check and [security_gaps] is not read: the check ends with
    [sys.exit(1)] exactly when the quality score or the coverage score is
    below its threshold or a test failed. *)
Theorem cicd_check_allows_critical_gaps env spec_path_
    quality_threshold coverage_threshold
    quality coverage gaps check rc_quality rc_coverage rc_gaps rc_check
    j_quality j_coverage j_gaps j_check
    quality_score coverage_score breakdown critical_count passed total failed_count
    quality_low coverage_low some_critical tests_failed w :
  (forall w', spawn env w' (argv_of "quality" [spec_path_])
              = inr (mkCompleted rc_quality (Document j_quality))) ->
  to_response j_quality = inr quality ->
  (forall w', spawn env w' (argv_of "coverage" [spec_path_])
              = inr (mkCompleted rc_coverage (Document j_coverage))) ->
  to_response j_coverage = inr coverage ->
  (forall w', spawn env w' (argv_of "gaps" [spec_path_])
              = inr (mkCompleted rc_gaps (Document j_gaps))) ->
  to_response j_gaps = inr gaps ->
  (forall w', spawn env w' (argv_of "check" [spec_path_])
              = inr (mkCompleted rc_check (Document j_check))) ->
  to_response j_check = inr check ->
  getitem (data quality) "overall_score" = inr quality_score ->
  lt quality_score quality_threshold = inr quality_low ->
  getitem (data coverage) "overall_score" = inr coverage_score ->
  fixed1_check coverage_score = inr tt ->
  lt coverage_score coverage_threshold = inr coverage_low ->
  getitem (data gaps) "severity_breakdown" = inr breakdown ->
  getitem breakdown "critical" = inr critical_count ->
  gt critical_count (NInt 0) = inr some_critical ->
  getitem (data check) "passed" = inr passed ->
  getitem (data check) "total" = inr total ->
  getitem (data check) "failed" = inr failed_count ->
  gt failed_count (NInt 0) = inr tests_failed ->
  exists w',
    cicd_check env spec_path_ quality_threshold coverage_threshold true w
    = (if quality_low || coverage_low || tests_failed
       then Exit (JInt 1) else Return tt, w') /\
    calls w' = calls w ++ [argv_of "quality" [spec_path_];
                           argv_of "coverage" [spec_path_];
                           argv_of "gaps" [spec_path_];
                           argv_of "check" [spec_path_]].
Proof.
  intros Hq Hrq Hc Hrc Hg Hrg Hk Hrk Hqs Hql Hcs Hcf Hcl Hbd Hcc Hsc Hp Ht Hf Htf.
  assert (Hsg : some_critical && negb true = true ->
                exists security_gaps,
                  rbind (getitem (data gaps) "security_gaps") iter = inr security_gaps /\
                  Forall gap_ok security_gaps).
  { rewrite andb_false_r; discriminate. }
  destruct (cicd_check_runs_all env spec_path_ quality_threshold coverage_threshold
              true quality coverage gaps check
              rc_quality rc_coverage rc_gaps rc_check
              j_quality j_coverage j_gaps j_check
              Hq Hrq Hc Hrc Hg Hrg Hk Hrk
              quality_score coverage_score breakdown critical_count
              passed total failed_count
              quality_low coverage_low some_critical tests_failed
              Hqs Hql Hcs Hcf Hcl Hbd Hcc Hsc Hsg Hp Ht Hf Htf w)
    as (w' & Hrun & Hcalls & _ & _).
  exists w'; split; [| exact Hcalls].
  rewrite Hrun, andb_false_r, orb_false_r; reflexivity.
Qed.

(** Three critical gaps are counted, and no list of security gaps given. *)
Definition critical_gaps_unlisted : json :=
  sample_document (JBool true)
    (JObject [("severity_breakdown", JObject [("critical", JInt 3)])])
    [] [] (JInt 0).

Definition coverage_75 : json :=
  sample_document (JBool true) (JObject [("overall_score", JInt 75)]) [] [] (JInt 0).

Lemma cicd_check_allows_critical_gaps_witness :
  exists w',
    cicd_check (scripted_env quality_90 coverage_75 critical_gaps_unlisted all_tests_pass)
      "spec.cue" (NInt 80) (NFloat float_70) true empty_world
    = (Return tt, w') /\
    calls w' = calls empty_world
               ++ [argv_of "quality" ["spec.cue"]; argv_of "coverage" ["spec.cue"];
                   argv_of "gaps" ["spec.cue"]; argv_of "check" ["spec.cue"]].
Proof.
  exact (cicd_check_allows_critical_gaps
           (scripted_env quality_90 coverage_75 critical_gaps_unlisted all_tests_pass)
           "spec.cue" (NInt 80) (NFloat float_70)
           (response_of quality_90) (response_of coverage_75)
           (response_of critical_gaps_unlisted) (response_of all_tests_pass)
           0 0 0 0 quality_90 coverage_75 critical_gaps_unlisted all_tests_pass
           (JInt 90) (JInt 75) (JObject [("critical", JInt 3)]) (JInt 3)
           (JInt 12) (JInt 12) (JInt 0)
           false false true false empty_world
           (fun _ => eq_refl) eq_refl (fun _ => eq_refl) eq_refl
           (fun _ => eq_refl) eq_refl (fun _ => eq_refl) eq_refl
           eq_refl eq_refl eq_refl eq_refl eq_refl eq_refl eq_refl eq_refl
           eq_refl eq_refl eq_refl eq_refl).
Defined.

(** X16.  An exception, unlike a failed threshold, stops the CI/CD check
    at once: when the coverage score cannot be shown with one decimal (a
    string is a [ValueError], a list, dict or [None] a [TypeError]) the
    check raises after [quality] and [coverage], and [gaps] and [check]
    are not started. *)
Theorem cicd_check_stops_on_exception env spec_path_
    quality_threshold coverage_threshold allow_critical_gaps
    quality coverage rc_quality rc_coverage j_quality j_coverage
    quality_score coverage_score quality_low e w :
  (forall w', spawn env w' (argv_of "quality" [spec_path_])
              = inr (mkCompleted rc_quality (Document j_quality))) ->
  to_response j_quality = inr quality ->
  (forall w', spawn env w' (argv_of "coverage" [spec_path_])
              = inr (mkCompleted rc_coverage (Document j_coverage))) ->
  to_response j_coverage = inr coverage ->
  getitem (data quality) "overall_score" = inr quality_score ->
  lt quality_score quality_threshold = inr quality_low ->
  getitem (data coverage) "overall_score" = inr coverage_score ->
  fixed1_check coverage_score = inl e ->
  exists w',
    cicd_check env spec_path_ quality_threshold coverage_threshold
      allow_critical_gaps w = (Raise e, w') /\
    calls w' = calls w ++ [argv_of "quality" [spec_path_];
                           argv_of "coverage" [spec_path_]] /\
    (forall s, coverage_score = JString s -> e = ValueError).
Proof.
  intros Hq Hrq Hc Hrc Hqs Hql Hcs Hcf.
  unfold cicd_check.
  rewrite bind_print.
  rewrite (bind_Return _ _ _ _ _
             (run_intent_command_response _ _ _ _ _ _ _ (Hq _) Hrq)).
  rewrite (bind_lift_ok _ _ _ _ Hqs), bind_print.
  rewrite (bind_lift_ok _ _ _ _ Hql), bind_flag.
  rewrite (bind_Return _ _ _ _ _
             (run_intent_command_response _ _ _ _ _ _ _ (Hc _) Hrc)).
  rewrite (bind_lift_ok _ _ _ _ Hcs).
  unfold fixed1; rewrite Hcf; cbn [rbind]; rewrite bind_lift_inl.
  eexists; split; [reflexivity |]; split.
  - normalize_world; cbn [calls say logged]; rewrite <- app_assoc; reflexivity.
  - intros s ->; simpl in Hcf; inversion Hcf; reflexivity.
Qed.

Definition coverage_as_text : json :=
  sample_document (JBool true) (JObject [("overall_score", JString "60%")])
    [] [] (JInt 0).

Lemma cicd_check_stops_on_exception_witness :
  exists w',
    cicd_check (scripted_env quality_90 coverage_as_text no_critical_gaps all_tests_pass)
      "spec.cue" (NInt 80) (NFloat float_70) false empty_world
    = (Raise ValueError, w') /\
    calls w' = calls empty_world
               ++ [argv_of "quality" ["spec.cue"]; argv_of "coverage" ["spec.cue"]] /\
    (forall s, JString "60%" = JString s -> ValueError = ValueError).
Proof.
  exact (cicd_check_stops_on_exception
           (scripted_env quality_90 coverage_as_text no_critical_gaps all_tests_pass)
           "spec.cue" (NInt 80) (NFloat float_70) false
           (response_of quality_90) (response_of coverage_as_text)
           0 0 quality_90 coverage_as_text
           (JInt 90) (JString "60%") false ValueError empty_world
           (fun _ => eq_refl) eq_refl (fun _ => eq_refl) eq_refl
           eq_refl eq_refl eq_refl eq_refl).
Defined.




(** X18.  The chained workflow driver follows nothing when [max_depth] is
    zero or negative, or when the first response suggests no next action:
    it starts the [quality] sub-process only, prints its first and its
    last line and returns. *)
Theorem auto_workflow_nothing_to_follow env w spec_path_ max_depth rc j r :
  spawn env (say w [[Lit ("Starting automated workflow..." ++ nl)]])
    (argv_of "quality" [spec_path_])
  = inr (mkCompleted rc (Document j)) ->
  to_response j = inr r ->
  max_depth <= 0 \/ next_actions r = [] ->
  auto_workflow env spec_path_ max_depth w
  = (Return tt,
     mkWorld (calls w ++ [argv_of "quality" [spec_path_]])
       (files w)
       (printed w ++ [[Lit ("Starting automated workflow..." ++ nl)];
                      [Lit (nl ++ "=== Workflow Complete ===")]])
       (printed_err w)).
Proof.
  intros Hspawn Hr Hstop.
  unfold auto_workflow.
  rewrite bind_print.
  rewrite (bind_Return _ _ _ _ _
             (run_intent_command_response _ _ _ _ _ _ _ Hspawn Hr)).
  assert (Hcond : nonempty (next_actions r) && (0 <? max_depth) = false).
  { destruct Hstop as [Hd | Hn].
    - replace (0 <? max_depth) with false by (symmetry; apply Z.ltb_ge; exact Hd).
      apply andb_false_r.
    - rewrite Hn; reflexivity. }
  erewrite bind_Return.
  2:{ rewrite auto_loop_unfold, Hcond; reflexivity. }
  rewrite print_say; normalize_world.
  unfold say, logged; cbn [calls files printed printed_err app].
  rewrite <- ?app_assoc; reflexivity.
Qed.

Lemma auto_workflow_nothing_to_follow_witness :
  auto_workflow (const_env (mkCompleted 0 (Document looping_document)))
    "spec.cue" 0 empty_world
  = (Return tt,
     mkWorld [["intent"; "quality"; "spec.cue"; "--json=true"]] []
       [[Lit ("Starting automated workflow..." ++ nl)];
        [Lit (nl ++ "=== Workflow Complete ===")]]
       []) /\
  auto_workflow (const_env (mkCompleted 0 (Document passing_document)))
    "spec.cue" 3 empty_world
  = (Return tt,
     mkWorld [["intent"; "quality"; "spec.cue"; "--json=true"]] []
       [[Lit ("Starting automated workflow..." ++ nl)];
        [Lit (nl ++ "=== Workflow Complete ===")]]
       []).
Proof.
  split.
  - exact (auto_workflow_nothing_to_follow
             (const_env (mkCompleted 0 (Document looping_document)))
             empty_world "spec.cue" 0 0 looping_document
             (response_of looping_document) eq_refl eq_refl
             (or_introl (Z.le_refl 0))).
  - exact (auto_workflow_nothing_to_follow
             (const_env (mkCompleted 0 (Document passing_document)))
             empty_world "spec.cue" 3 0 passing_document
             (response_of passing_document) eq_refl eq_refl
             (or_intror eq_refl)).
Defined.

(** X19.  A first suggestion that cannot be followed makes the driver
    raise after the [quality] sub-process and the five lines of the step:
    [AttributeError] when its command is no string, [IndexError] when the
    command has fewer than two words. *)
Theorem auto_workflow_unfollowable env w spec_path_ max_depth rc j r a others :
  spawn env (say w [[Lit ("Starting automated workflow..." ++ nl)]])
    (argv_of "quality" [spec_path_])
  = inr (mkCompleted rc (Document j)) ->
  to_response j = inr r ->
  next_actions r = a :: others ->
  0 < max_depth ->
  let stopped e :=
    auto_workflow env spec_path_ max_depth w
    = (Raise e,
       mkWorld (calls w ++ [argv_of "quality" [spec_path_]])
         (files w)
         (printed w ++ [Lit ("Starting automated workflow..." ++ nl)]
                       :: step_lines r 0 a)
         (printed_err w)) in
  ((forall s, na_command a <> JString s) -> stopped AttributeError) /\
  (forall s, na_command a = JString s ->
             (List.length (split s) < 2)%nat -> stopped IndexError).
Proof.
  intros Hspawn Hr Hna Hdepth stopped.
  assert (Hstart :
    forall e,
      rbind (split_of (na_command a)) (fun parts => index parts 1) = inl e ->
      stopped e).
  { intros e He; unfold stopped, auto_workflow.
    rewrite bind_print.
    rewrite (bind_Return _ _ _ _ _
               (run_intent_command_response _ _ _ _ _ _ _ Hspawn Hr)).
    erewrite bind_Raise; [reflexivity |].
    destruct (Z.to_nat max_depth) as [| fuel] eqn:Efuel; [lia |].
    rewrite auto_loop_unfold, Hna.
    apply Z.ltb_lt in Hdepth; rewrite Hdepth; cbn [nonempty andb].
    rewrite !bind_print.
    rewrite (bind_lift_ok _ _ _ a eq_refl).
    rewrite !bind_print.
    destruct (split_of (na_command a)) as [e' | parts]; cbn [rbind] in He.
    - inversion He; subst e'.
      rewrite bind_lift_inl; normalize_world.
      unfold say, logged, step_lines; cbn [calls files printed printed_err app].
      rewrite <- ?app_assoc; reflexivity.
    - rewrite bind_lift_inr, He, bind_lift_inl; normalize_world.
      unfold say, logged, step_lines; cbn [calls files printed printed_err app].
      rewrite <- ?app_assoc; reflexivity. }
  split.
  - intros Hns; apply Hstart.
    destruct (na_command a) as [| | | | s | |]; try reflexivity.
    exfalso; exact (Hns s eq_refl).
  - intros s Hs Hlen; apply Hstart.
    rewrite Hs; cbn [split_of rbind]; unfold index.
    destruct (split s) as [| t [| u rest]]; [reflexivity | reflexivity |].
    simpl in Hlen; lia.
Qed.

Definition one_word_document : json :=
  sample_document (JBool true) (JObject [])
    [] [JObject [("command", JString "intent"); ("reason", JString "?")]] (JInt 0).

Lemma auto_workflow_unfollowable_witness :
  auto_workflow (const_env (mkCompleted 0 (Document dead_end_document)))
    "spec.cue" 3 empty_world
  = (Raise AttributeError,
     mkWorld [["intent"; "quality"; "spec.cue"; "--json=true"]] []
       ([Lit ("Starting automated workflow..." ++ nl)]
        :: step_lines (response_of dead_end_document) 0 (mkNextAction (JInt 5) JNull))
       []) /\
  auto_workflow (const_env (mkCompleted 0 (Document one_word_document)))
    "spec.cue" 3 empty_world
  = (Raise IndexError,
     mkWorld [["intent"; "quality"; "spec.cue"; "--json=true"]] []
       ([Lit ("Starting automated workflow..." ++ nl)]
        :: step_lines (response_of one_word_document) 0
             (mkNextAction (JString "intent") (JString "?")))
       []).
Proof.
  split.
  - exact (proj1 (auto_workflow_unfollowable
                    (const_env (mkCompleted 0 (Document dead_end_document)))
                    empty_world "spec.cue" 3 0 dead_end_document
                    (response_of dead_end_document) (mkNextAction (JInt 5) JNull) []
                    eq_refl eq_refl eq_refl eq_refl)
             (fun s => JInt_not_string 5 s)).
  - exact (proj2 (auto_workflow_unfollowable
                    (const_env (mkCompleted 0 (Document one_word_document)))
                    empty_world "spec.cue" 3 0 one_word_document
                    (response_of one_word_document)
                    (mkNextAction (JString "intent") (JString "?")) []
                    eq_refl eq_refl eq_refl eq_refl)
             "intent" eq_refl (Nat.lt_succ_diag_r 1)).
Defined.

(** X20.  For every threshold and every numeric score the quality gate
    passes exactly when the score is not below the threshold, integers and
    floats being compared by value: below the threshold it ends the
    process with [sys.exit(1)] (given the two lists it reports), otherwise
    it returns.  A score that is not a number in the IEEE sense (NaN, which
    the decoder accepts) is below no threshold and passes. *)
Theorem quality_gate_decides env w spec_path_ threshold rc j r d score n :
  (forall w', spawn env w' (argv_of "quality" [spec_path_])
              = inr (mkCompleted rc (Document j))) ->
  to_response j = inr r ->
  truthy (success r) = true ->
  data r = JObject d ->
  lookup "overall_score" d = Some score ->
  num_of score = Some n ->
  (num_ltb n threshold = true ->
   exists issues suggestions,
     lookup "issues" d = Some (JArray issues) /\
     lookup "suggestions" d = Some (JArray suggestions)) ->
  fst (quality_gate env spec_path_ threshold w)
  = (if num_ltb n threshold then Exit (JInt 1) else Return tt) /\
  (score = JFloat S754_nan -> fst (quality_gate env spec_path_ threshold w) = Return tt).
Proof.
  intros Hspawn Hr Hs Hd Hscore Hnum Hlists.
  assert (Hlt : lt score threshold = inr (num_ltb n threshold))
    by (unfold lt; rewrite Hnum; reflexivity).
  assert (Hfst : fst (quality_gate env spec_path_ threshold w)
                 = (if num_ltb n threshold then Exit (JInt 1) else Return tt)).
  { destruct (num_ltb n threshold) eqn:E.
    - destruct (Hlists eq_refl) as (issues & suggestions & Hi & Hsg).
      erewrite quality_gate_below; eauto.
    - erewrite quality_gate_not_below; eauto.
      rewrite Hd; simpl; rewrite Hscore; reflexivity. }
  split; [exact Hfst |].
  intros ->; rewrite Hfst.
  simpl in Hnum; inversion Hnum; subst n; reflexivity.
Qed.

Definition nan_score_document : json :=
  sample_document (JBool true) (JObject [("overall_score", JFloat S754_nan)])
    [] [] (JInt 0).

Lemma quality_gate_decides_witness :
  fst (quality_gate (const_env (mkCompleted 0 (Document nan_score_document)))
         "spec.cue" (NInt 80) empty_world)
  = Return tt.
Proof.
  exact (proj2 (quality_gate_decides
                  (const_env (mkCompleted 0 (Document nan_score_document)))
                  empty_world "spec.cue" (NInt 80) 0 nan_score_document
                  (response_of nan_score_document)
                  [("overall_score", JFloat S754_nan)] (JFloat S754_nan)
                  (NFloat S754_nan)
                  (fun _ => eq_refl) eq_refl eq_refl eq_refl eq_refl eq_refl
                  (fun H => False_ind _ (diff_false_true H)))
           eq_refl).
Defined.

(* ------------------------------------------------------------------ *)
(** * Success flag against exit code *)

(** ** The functions that read neither field *)

(** A response without what it says of its success: [success] and
    [metadata.exit_code] are blanked, every other field is kept. *)
Definition flags_erased (r : JsonResponse) : JsonResponse :=
  mkJsonResponse JNull (action r) (command r) (data r) (errors r) (next_actions r)
    (mkJsonMetadata (timestamp (metadata r)) (version (metadata r)) JNull
       (correlation_id (metadata r)) (duration_ms (metadata r)))
    (spec_path r).

(** Two tools that answer alike but for the [success] and the
    [metadata.exit_code] of their responses, on the same file system. *)
Definition same_but_flags (env env' : Env) : Prop :=
  (forall w argv,
     match answer env w argv, answer env' w argv with
     | inl e, inl e' => e = e'
     | inr r, inr r' => flags_erased r = flags_erased r'
     | _, _ => False
     end) /\
  (forall w path, writable env w path = writable env' w path).

Lemma flags_erased_fields r r' :
  flags_erased r = flags_erased r' ->
  action r = action r' /\ command r = command r' /\ data r = data r' /\
  next_actions r = next_actions r'.
Proof. unfold flags_erased; intros H; injection H; auto. Qed.

Lemma bind_ext {A B} (m : M A) (k k' : A -> M B) w :
  (forall a w', k a w' = k' a w') -> bind m k w = bind m k' w.
Proof.
  intros H; unfold bind; destruct (m w) as [[a | e | c | ] w1]; auto.
Qed.

Lemma run_similar {B} env env' command_ args (k k' : JsonResponse -> M B) w :
  same_but_flags env env' ->
  (forall r r', flags_erased r = flags_erased r' ->
     k r (logged w (argv_of command_ args))
     = k' r' (logged w (argv_of command_ args))) ->
  bind (run_intent_command env command_ args) k w
  = bind (run_intent_command env' command_ args) k' w.
Proof.
  intros (H & _) Hk.
  pose proof (run_intent_command_answer env command_ args w) as Hrun.
  pose proof (run_intent_command_answer env' command_ args w) as Hrun'.
  specialize (H w (argv_of command_ args)).
  destruct (answer env w (argv_of command_ args)) as [e | r],
           (answer env' w (argv_of command_ args)) as [e' | r'];
    simpl in Hrun, Hrun'; try contradiction.
  - subst e'.
    rewrite (bind_Raise _ _ _ _ _ Hrun), (bind_Raise _ _ _ _ _ Hrun'); reflexivity.
  - rewrite (bind_Return _ _ _ _ _ Hrun), (bind_Return _ _ _ _ _ Hrun').
    apply Hk, H.
Qed.

Lemma write_similar {B} env env' path value (k k' : unit -> M B) w :
  same_but_flags env env' ->
  (forall w', k tt w' = k' tt w') ->
  bind (write_json env path value) k w = bind (write_json env' path value) k' w.
Proof.
  intros (_ & H) Hk; unfold bind, write_json; rewrite (H w path).
  destruct (writable env' w path); [apply Hk | reflexivity].
Qed.

(** One step of two runs of the same statements against two such tools. *)
Ltac similar_step H :=
  first
    [ apply (run_similar _ _ _ _ _ _ _ H);
      let r := fresh "r" in
      let r' := fresh "r'" in
      let Hr := fresh "Hr" in
      let Ha := fresh "Ha" in
      let Hc := fresh "Hc" in
      let Hd := fresh "Hd" in
      let Hn := fresh "Hn" in
      intros r r' Hr;
      destruct (flags_erased_fields _ _ Hr) as (Ha & Hc & Hd & Hn);
      rewrite ?Ha, ?Hc, ?Hd, ?Hn
    | apply (write_similar _ _ _ _ _ _ _ H); intros ?
    | apply bind_ext; intros ? ?
    | match goal with
      | |- bind (if ?b then _ else _) _ _ = _ => destruct b
      end
    | progress rewrite !bind_assoc
    | reflexivity ].

Lemma cicd_check_ignores_flags env env' spec_path_ quality_threshold
      coverage_threshold allow_critical_gaps w :
  same_but_flags env env' ->
  cicd_check env spec_path_ quality_threshold coverage_threshold
    allow_critical_gaps w
  = cicd_check env' spec_path_ quality_threshold coverage_threshold
      allow_critical_gaps w.
Proof. intros H; unfold cicd_check; repeat similar_step H. Qed.

Lemma kirk_analysis_ignores_flags env env' spec_path_ w :
  same_but_flags env env' ->
  kirk_analysis env spec_path_ w = kirk_analysis env' spec_path_ w.
Proof. intros H; unfold kirk_analysis; repeat similar_step H. Qed.

Lemma test_with_feedback_ignores_flags env env' spec_path_ w :
  same_but_flags env env' ->
  test_with_feedback env spec_path_ w = test_with_feedback env' spec_path_ w.
Proof. intros H; unfold test_with_feedback; repeat similar_step H. Qed.

Lemma auto_loop_ignores_flags env env' fuel :
  same_but_flags env env' ->
  forall max_depth r r' depth w,
    flags_erased r = flags_erased r' ->
    auto_loop env fuel max_depth r depth w
    = auto_loop env' fuel max_depth r' depth w.
Proof.
  intros H; induction fuel as [| fuel IH]; intros max_depth r r' depth w Hr;
    destruct (flags_erased_fields _ _ Hr) as (Ha & Hc & _ & Hn);
    rewrite (auto_loop_unfold env), (auto_loop_unfold env'), ?Ha, ?Hc, ?Hn;
    destruct (nonempty (next_actions r') && (depth <? max_depth));
    try reflexivity.
  repeat (apply bind_ext; intros ? ?).
  apply (run_similar _ _ _ _ _ _ _ H); intros r0 r0' Hr0.
  apply IH, Hr0.
Qed.

Lemma auto_workflow_ignores_flags env env' spec_path_ max_depth w :
  same_but_flags env env' ->
  auto_workflow env spec_path_ max_depth w
  = auto_workflow env' spec_path_ max_depth w.
Proof.
  intros H; unfold auto_workflow.
  apply bind_ext; intros ? w1.
  apply (run_similar _ _ _ _ _ _ _ H); intros r r' Hr.
  unfold bind.
  rewrite (auto_loop_ignores_flags env env' _ H _ r r' _ _ Hr); reflexivity.
Qed.

(** ** What each policy function does with the mismatch *)

(** A response that reports success while the tool ended with code 3. *)
Definition mismatch_document : json :=
  sample_document (JBool true) (JObject [("overall_score", JInt 90)]) [] [] (JInt 3).

(** C1 (amended).  On a response with [success == True] and
    [metadata.exit_code != 0] the helper [is_success] answers false, but no
    policy function calls it.  Robust execution and the quality gate decide
    on [success] alone: robust execution reports success and returns
    normally, and the quality gate goes on to the score and passes when the
    score is not below the threshold.  The CI/CD check, test-with-feedback,
    the chained workflow driver and the KIRK analysis read neither field:
    each ends the same way, in the same world, against a tool that differs
    only in the [success] and [exit_code] of its responses. *)
Theorem exit_code_mismatch_is_not_checked env w spec_path_ rc j r :
  (forall w', spawn env w' (argv_of "quality" [spec_path_])
              = inr (mkCompleted rc (Document j))) ->
  to_response j = inr r ->
  success r = JBool true ->
  eq_num (exit_code (metadata r)) (NInt 0) = false ->
  is_success r = false /\
  robust_execution env spec_path_ w =
    (Return tt,
     say (logged w (argv_of "quality" [spec_path_]))
       [[Lit "✅ Success"];
        [Lit "Correlation ID: "; Val (correlation_id (metadata r))]]) /\
  (forall threshold score,
     getitem (data r) "overall_score" = inr score ->
     lt score threshold = inr false ->
     quality_gate env spec_path_ threshold w =
       (Return tt,
        say (logged w (argv_of "quality" [spec_path_]))
          ([gate_banner threshold; gate_score score; gate_passed score threshold]
           ++ next_steps (next_actions r)))) /\
  (forall env',
     same_but_flags env env' ->
     (forall quality_threshold coverage_threshold allow_critical_gaps,
        cicd_check env spec_path_ quality_threshold coverage_threshold
          allow_critical_gaps w
        = cicd_check env' spec_path_ quality_threshold coverage_threshold
            allow_critical_gaps w) /\
     test_with_feedback env spec_path_ w = test_with_feedback env' spec_path_ w /\
     (forall max_depth,
        auto_workflow env spec_path_ max_depth w
        = auto_workflow env' spec_path_ max_depth w) /\
     kirk_analysis env spec_path_ w = kirk_analysis env' spec_path_ w).
Proof.
  intros Hspawn Hr Hs Hcode; split; [| split; [| split]].
  - unfold is_success; rewrite Hcode; apply andb_false_r.
  - eapply robust_execution_reported_success; eauto.
    rewrite Hs; reflexivity.
  - intros threshold score Hscore Hlt.
    eapply quality_gate_not_below; eauto.
    rewrite Hs; reflexivity.
  - intros env' H; repeat split; intros.
    + apply cicd_check_ignores_flags, H.
    + apply test_with_feedback_ignores_flags, H.
    + apply auto_workflow_ignores_flags, H.
    + apply kirk_analysis_ignores_flags, H.
Qed.

(** The tool that always prints [mismatch_document] and the one that always
    prints the same document with exit code 0 differ in the flags only. *)
Lemma mismatch_same_but_flags :
  same_but_flags (const_env (mkCompleted 3 (Document mismatch_document)))
    (const_env (mkCompleted 0 (Document passing_document))).
Proof. split; intros; reflexivity. Qed.

Lemma exit_code_mismatch_is_not_checked_witness :
  let env := const_env (mkCompleted 3 (Document mismatch_document)) in
  is_success (response_of mismatch_document) = false /\
  robust_execution env "spec.cue" empty_world
  = (Return tt,
     mkWorld [["intent"; "quality"; "spec.cue"; "--json=true"]] []
       [[Lit "✅ Success"]; [Lit "Correlation ID: "; Val (JString "c-1")]] []) /\
  (forall threshold score,
     getitem (data (response_of mismatch_document)) "overall_score" = inr score ->
     lt score threshold = inr false ->
     quality_gate env "spec.cue" threshold empty_world =
       (Return tt,
        say (logged empty_world (argv_of "quality" ["spec.cue"]))
          ([gate_banner threshold; gate_score score; gate_passed score threshold]
           ++ next_steps (next_actions (response_of mismatch_document))))) /\
  (forall env',
     same_but_flags env env' ->
     (forall quality_threshold coverage_threshold allow_critical_gaps,
        cicd_check env "spec.cue" quality_threshold coverage_threshold
          allow_critical_gaps empty_world
        = cicd_check env' "spec.cue" quality_threshold coverage_threshold
            allow_critical_gaps empty_world) /\
     test_with_feedback env "spec.cue" empty_world
     = test_with_feedback env' "spec.cue" empty_world /\
     (forall max_depth,
        auto_workflow env "spec.cue" max_depth empty_world
        = auto_workflow env' "spec.cue" max_depth empty_world) /\
     kirk_analysis env "spec.cue" empty_world
     = kirk_analysis env' "spec.cue" empty_world).
Proof.
  exact (exit_code_mismatch_is_not_checked
           (const_env (mkCompleted 3 (Document mismatch_document)))
           empty_world "spec.cue" 3 mismatch_document
           (response_of mismatch_document)
           (fun _ => eq_refl) eq_refl eq_refl eq_refl).
Defined.

(** C1 as stated fails: a response with [success] true and exit code 3
    goes through the quality gate on the success path.  The gate returns
    normally and prints the pass message. *)
Lemma mismatch_passes_quality_gate :
  success (response_of mismatch_document) = JBool true /\
  exit_code (metadata (response_of mismatch_document)) = JInt 3 /\
  to_response mismatch_document = inr (response_of mismatch_document) /\
  quality_gate (const_env (mkCompleted 3 (Document mismatch_document)))
    "spec.cue" (NInt 80) empty_world
  = (Return tt,
     mkWorld [["intent"; "quality"; "spec.cue"; "--json=true"]] []
       [gate_banner (NInt 80); gate_score (JInt 90);
        gate_passed (JInt 90) (NInt 80)]
       []).
Proof. repeat split. Qed.

(** The two tools of [mismatch_same_but_flags], one reporting exit code 3
    and one exit code 0, are told apart by none of the four functions. *)
Example mismatch_is_invisible :
  cicd_check (const_env (mkCompleted 3 (Document mismatch_document)))
    "spec.cue" (NInt 80) (NFloat float_70) false empty_world
  = cicd_check (const_env (mkCompleted 0 (Document passing_document)))
      "spec.cue" (NInt 80) (NFloat float_70) false empty_world /\
  auto_workflow (const_env (mkCompleted 3 (Document mismatch_document)))
    "spec.cue" 3 empty_world
  = auto_workflow (const_env (mkCompleted 0 (Document passing_document)))
      "spec.cue" 3 empty_world.
Proof.
  split.
  - apply cicd_check_ignores_flags, mismatch_same_but_flags.
  - apply auto_workflow_ignores_flags, mismatch_same_but_flags.
Qed.
